(** * Worm shape geometry and the worm model

    A shallow embedding of [worm/geometry.py] and [worm/model.py].

    Conventions of the embedding:
    - a Python float is a real number ([R]); a one-dimensional numpy
      array is a [list R], an array of shape (n,2) is a [list point];
    - integer indices are [Z] where the source can produce a negative
      one (Python wraps negative indices around), [nat] for lengths;
    - a Python exception is the [Raise] case of [result];
    - a method of [WormModel] is a function from the object's state to an
      outcome and the state it leaves behind, so that what was assigned
      before an exception stays assigned. *)

From Stdlib Require Import Reals Lra Lia List ZArith Bool Arith.
From Stdlib Require Import Sorting.Sorted Sorting.Permutation.
Import ListNotations.

Local Open Scope R_scope.

(** ** Python exceptions *)

Module Py.

Inductive exn : Type :=
| AttributeError
| AxisError
| IndexError
| TypeError
| ValueError
| ZeroDivisionError.

Inductive result (A : Type) : Type :=
| Ok (a : A)
| Raise (e : exn).

Arguments Ok {A} a.
Arguments Raise {A} e.

Definition bind {A B : Type} (r : result A) (k : A -> result B) : result B :=
  match r with
  | Ok a => k a
  | Raise e => Raise e
  end.

(** Python normalises a negative index by adding the length. *)
Definition norm_index (n i : Z) : Z := if (i <? 0)%Z then (i + n)%Z else i.

(** [l[i]]: IndexError outside [-len, len). *)
Definition getitem {A : Type} (l : list A) (i : Z) : result A :=
  let j := norm_index (Z.of_nat (length l)) i in
  if ((0 <=? j) && (j <? Z.of_nat (length l)))%Z
  then match nth_error l (Z.to_nat j) with
       | Some a => Ok a
       | None => Raise IndexError
       end
  else Raise IndexError.

(** A slice bound is normalised and then clipped into [0, len]. *)
Definition clip_index (n i : Z) : Z := Z.max 0 (Z.min n (norm_index n i)).

(** [l[start:stop]] with step 1; [None] is an omitted bound. *)
Definition slice {A : Type} (l : list A) (start stop : option Z) : list A :=
  let n := Z.of_nat (length l) in
  let s := match start with Some i => clip_index n i | None => 0%Z end in
  let e := match stop with Some i => clip_index n i | None => n end in
  skipn (Z.to_nat s) (firstn (Z.to_nat e) l).

End Py.

Import Py.

Declare Scope py_scope.
Delimit Scope py_scope with py.
Notation "x <- e ;; k" := (bind e (fun x => k))
  (at level 61, e at next level, right associativity) : py_scope.
Notation "' p <- e ;; k" := (bind e (fun p => k))
  (at level 61, p pattern, e at next level, right associativity) : py_scope.
Local Open Scope py_scope.

(** ** The numpy operations the program uses *)

Module Np.

Abbreviation point := (R * R)%type (only parsing).

Definition padd (p q : point) : point := (fst p + fst q, snd p + snd q).
Definition psub (p q : point) : point := (fst p - fst q, snd p - snd q).
Definition pmul (p q : point) : point := (fst p * fst q, snd p * snd q).
Definition pscale (a : R) (p : point) : point := (a * fst p, a * snd p).

(** [np.linspace(a, b, n)]. *)
Definition linspace (a b : R) (n : nat) : list R :=
  match n with
  | O => []
  | S O => [a]
  | S m => map (fun i => a + INR i * ((b - a) / INR m)) (seq 0 n)
  end.

Definition zeros (n : nat) : list R := repeat 0 n.
Definition zeros2 (n : nat) : list point := repeat (0, 0) n.

(** [np.vstack([a, b]).T] for two one-dimensional arrays: ValueError
    unless they have the same length. *)
Definition columns (a b : list R) : result (list point) :=
  if (length a =? length b)%nat then Ok (combine a b) else Raise ValueError.

(** [a.flatten()] of an (n,2) array, row by row. *)
Fixpoint flatten (c : list point) : list R :=
  match c with
  | [] => []
  | (x, y) :: t => x :: y :: flatten t
  end.

Fixpoint pairs (l : list R) : list point :=
  match l with
  | x :: y :: t => (x, y) :: pairs t
  | _ => []
  end.

(** [np.reshape(a, (n, 2))]: ValueError unless [a] has 2n entries. *)
Definition reshape2 (a : list R) (n : nat) : result (list point) :=
  if (length a =? 2 * n)%nat then Ok (pairs a) else Raise ValueError.

(** Elementwise binary operation on two arrays with broadcasting along
    the first axis: equal lengths, or one of them of length one. *)
Definition broadcast {A : Type} (f : A -> A -> A) (a b : list A)
  : result (list A) :=
  if (length a =? length b)%nat then Ok (map (fun ab => f (fst ab) (snd ab)) (combine a b))
  else match a, b with
       | [x], _ => Ok (map (f x) b)
       | _, [y] => Ok (map (fun x => f x y) a)
       | _, _ => Raise ValueError
       end.

(** [np.power(x, y)] on a nonnegative base: [0 ** y] is 0 for the positive
    exponents used here (the standard library's [Rpower 0 y] is 1). *)
Definition power (x y : R) : R :=
  if Req_dec_T x 0 then 0 else Rpower x y.

(** [np.mod(a, b)] (an alias of [np.remainder]) for a positive [b]: the
    remainder of floored division. *)
Definition remainder (a b : R) : R := a - IZR (Int_part (a / b)) * b.

(** [np.arctan2(y, x)], the angle of the point (x, y) from the positive
    x axis; [PI] on the negative x axis and 0 at the origin. *)
Definition arctan2 (y x : R) : R :=
  if Rlt_dec 0 x then atan (y / x)
  else if Rlt_dec x 0
       then (if Rle_dec 0 y then atan (y / x) + PI else atan (y / x) - PI)
       else if Rlt_dec 0 y then PI / 2
            else if Rlt_dec y 0 then - (PI / 2)
                 else 0.

Definition sum (l : list R) : R := fold_right Rplus 0 l.

Fixpoint cumsum_from (acc : R) (l : list R) : list R :=
  match l with
  | [] => []
  | x :: t => (acc + x) :: cumsum_from (acc + x) t
  end.

(** [np.cumsum(a)] *)
Definition cumsum (l : list R) : list R := cumsum_from 0 l.

(** [np.diff(a, axis = 0)]: each entry minus the one before it. *)
Fixpoint diff {A : Type} (sub : A -> A -> A) (l : list A) : list A :=
  match l with
  | [] => []
  | a :: t =>
      match t with
      | [] => []
      | b :: _ => sub b a :: diff sub t
      end
  end.

(** Euclidean norm of one row. *)
Definition norm (p : point) : R := sqrt (fst p * fst p + snd p * snd p).

(** [np.linalg.norm(a, axis = 1)] of an (n,2) array: one norm per row. *)
Definition norm_axis1 (a : list point) : list R := map norm a.

(** [np.linalg.norm(a, axis = 0)] of an (n,2) array: one norm per column,
    so always two values. *)
Definition norm_axis0 (a : list point) : list R :=
  [ sqrt (sum (map (fun p => fst p * fst p) a));
    sqrt (sum (map (fun p => snd p * snd p) a)) ].

(** Difference of two arrays of the same length. *)
Definition sub_arrays (a b : list R) : list R :=
  map (fun ab => fst ab - snd ab) (combine a b).

(** A float that may be infinite or not-a-number. *)
Inductive float : Type :=
| Num (x : R)
| Inf
| NaN.

(** Strict order used by [np.argmin] on such floats: the first NaN wins
    over everything, [Inf] is above every number. *)
Definition flt (a b : float) : bool :=
  match a, b with
  | _, NaN => false
  | NaN, _ => true
  | Inf, _ => false
  | Num _, Inf => true
  | Num x, Num y => if Rlt_dec x y then true else false
  end.

Definition Rltb (x y : R) : bool := if Rlt_dec x y then true else false.

Fixpoint argmin_from {A : Type} (lt : A -> A -> bool)
    (best : A) (ibest i : Z) (l : list A) : Z :=
  match l with
  | [] => ibest
  | x :: t =>
      if lt x best
      then argmin_from lt x i (i + 1)%Z t
      else argmin_from lt best ibest (i + 1)%Z t
  end.

Definition argmin_by {A : Type} (lt : A -> A -> bool) (l : list A) : result Z :=
  match l with
  | [] => Raise ValueError
  | x :: t => Ok (argmin_from lt x 0%Z 1%Z t)
  end.

(** [np.argmin(a)]: the first index of the smallest entry; ValueError on
    an empty array. *)
Definition argmin (l : list R) : result Z := argmin_by Rltb l.
Definition argmin_float (l : list float) : result Z := argmin_by flt l.

(** [a.max()] of a non-empty array. *)
Definition amax (l : list R) : result R :=
  match l with
  | [] => Raise ValueError
  | x :: t => Ok (fold_left Rmax t x)
  end.

(** [a[i] = v] on a copy. *)
Definition setitem {A : Type} (l : list A) (i : Z) (v : A) : result (list A) :=
  let j := norm_index (Z.of_nat (length l)) i in
  if ((0 <=? j) && (j <? Z.of_nat (length l)))%Z
  then Ok (firstn (Z.to_nat j) l ++ v :: skipn (S (Z.to_nat j)) l)
  else Raise IndexError.

Fixpoint traverse {A B : Type} (f : A -> result B) (l : list A)
  : result (list B) :=
  match l with
  | [] => Ok []
  | a :: t =>
      b <- f a ;;
      bs <- traverse f t ;;
      Ok (b :: bs)
  end.

(** [a[ids]] for an integer array [ids]. *)
Definition take {A : Type} (a : list A) (ids : list Z) : result (list A) :=
  traverse (getitem a) ids.

(** [a[m]] for a boolean array [m]: IndexError unless the lengths agree. *)
Definition mask {A : Type} (m : list bool) (a : list A) : result (list A) :=
  if (length m =? length a)%nat
  then Ok (map snd (filter fst (combine m a)))
  else Raise IndexError.

Fixpoint nonzero_from (i : Z) (m : list bool) : list Z :=
  match m with
  | [] => []
  | b :: t => if b then i :: nonzero_from (i + 1)%Z t else nonzero_from (i + 1)%Z t
  end.

(** [np.where(m)[0]], that is [np.nonzero(m)[0]]. *)
Definition nonzero (m : list bool) : list Z := nonzero_from 0%Z m.

Fixpoint insert_int (x : Z) (l : list Z) : list Z :=
  match l with
  | [] => [x]
  | y :: t => if (x <=? y)%Z then x :: l else y :: insert_int x t
  end.

(** [np.sort(a)] of an integer array. *)
Definition sort (a : list Z) : list Z :=
  fold_right insert_int [] a.

(** What [np.zeros(shape, dtype)] is given as its second argument. *)
Inductive dtype_arg : Type :=
| DtypeDefault
| DtypeArray (a : list R).

(** [np.zeros((n, 2), dtype)]: an array is not a data type. *)
Definition zeros2_dtype (n : nat) (dtype : dtype_arg) : result (list point) :=
  match dtype with
  | DtypeDefault => Ok (zeros2 n)
  | DtypeArray _ => Raise TypeError
  end.

End Np.

Import Np.

(** ** worm/geometry.py *)

Module Geometry.

(** [default_width(npoints)] for an integer [npoints]. *)
Definition default_width_w (x : R) : R :=
  let a := 9.56 * 0.5 in
  let b := 0.351 in
  a * power x b * power (1 - x) b * power 0.5 (-2 * b).

Definition default_width (npoints : nat) : list R :=
  map default_width_w (linspace 0 1 npoints).

Definition default (o : option Z) (d : Z) : Z :=
  match o with
  | Some n => n
  | None => d
  end.

Definition len {A : Type} (l : list A) : Z := Z.of_nat (length l).

(** [range(a, b)] *)
Definition range (a b : Z) : list Z :=
  map (fun i => (a + Z.of_nat i)%Z) (seq 0 (Z.to_nat (b - a))).

Section Curves.

(** [interpolation.resampling.resample], an external collaborator: resample
    an (n,2) curve, or a one-dimensional array, to a number of points with
    an optional smoothing factor. *)
Variable resample_curve : list point -> Z -> option R -> list point.
Variable resample_curve1d : list R -> Z -> option R -> list R.

(** [center_from_sides_mean]; the arguments [npoints] and [nsamples] are
    [None] for the default [all]. *)
Definition center_from_sides_mean (left right : list point)
    (npoints nsamples : option Z) (resample with_width : bool)
  : result (list point * option (list R)) :=
  let nl := len left in
  let nr := len right in
  let nsamples := default nsamples (Z.max nl nr) in
  let npoints := default npoints (Z.max nl nr) in
  let '(leftcurve, rightcurve) :=
    if negb (nl =? nsamples)%Z || negb (nr =? nsamples)%Z || resample
    then (resample_curve left nsamples None, resample_curve right nsamples None)
    else (left, right) in
  s <- broadcast padd leftcurve rightcurve ;;
  let center := map (fun p => (fst p / 2, snd p / 2)) s in
  let center :=
    if negb (npoints =? nsamples)%Z
    then resample_curve center npoints None
    else center in
  if with_width
  then
    d <- broadcast psub leftcurve rightcurve ;;
    let width := norm_axis0 d in
    Ok (center, Some width)
  else Ok (center, None).

(** The wrap of an angle used for theta and the orientation:
    [np.mod(a + np.pi, 2 * np.pi) - np.pi]. *)
Definition wrap (a : R) : R := remainder (a + PI) (2 * PI) - PI.

(** [np.arctan2(v[:,0], v[:,1])]: the first coordinate is passed as y. *)
Definition arctan2_rows (v : list point) : list R :=
  map (fun p => arctan2 (fst p) (snd p)) v.

(** [theta_from_center_discrete]: returns theta, orientation, xy, length. *)
Definition theta_from_center_discrete (center : list point)
    (npoints nsamples : option Z) (resample : bool) (smooth : R)
  : result (list R * R * point * R) :=
  let nc := len center in
  let npoints := default npoints nc in
  let nsamples := default nsamples nc in
  let n2 := ((nsamples - 1) / 2)%Z in
  let centercurve :=
    if negb (nsamples =? nc)%Z || resample
    then resample_curve center nsamples None
    else center in
  let centervec := diff psub centercurve in
  let t0 : point := (1, 0) in
  t1 <- getitem centervec n2 ;;
  let orientation :=
    wrap (arctan2 (fst t0) (snd t0) - arctan2 (fst t1) (snd t1)) in
  xy <- getitem centercurve n2 ;;
  let theta :=
    sub_arrays (arctan2_rows (slice centervec None (Some (-1)%Z)))
               (arctan2_rows (slice centervec (Some 1%Z) None)) in
  let theta := map wrap theta in
  let theta := map (fun a => a * IZR (nsamples - 1)) theta in
  let length := sum (norm_axis1 centervec) in
  let theta :=
    if negb (npoints =? nsamples)%Z || resample
    then resample_curve1d theta (npoints - 2)%Z (Some smooth)
    else theta in
  Ok (theta, orientation, xy, length).

(** [itheta = np.hstack([itheta, itheta[-1]]); itheta[1:-1] -= dtheta / 2] *)
Definition spread_half_angles (itheta dtheta : list R) : result (list R) :=
  l <- getitem itheta (-1)%Z ;;
  let itheta := itheta ++ [l] in
  mid <- broadcast Rminus (slice itheta (Some 1%Z) (Some (-1)%Z))
                          (map (fun d => d / 2) dtheta) ;;
  Ok (slice itheta None (Some 1%Z) ++ mid ++ slice itheta (Some (-1)%Z) None).

(** The integrated, re-anchored angle shared by [center_from_theta_discrete]
    and [normals_from_theta_discrete]. *)
Definition integrate_theta (theta : list R) (orientation : R)
    (nsamples : Z) (resample : bool) : result (list R) :=
  let nt := len theta in
  let n2 := ((nsamples - 1) / 2)%Z in
  let itheta :=
    if negb (nsamples =? nt + 2)%Z || resample
    then resample_curve1d theta (nsamples - 2)%Z None
    else theta in
  if (nsamples - 1 =? 0)%Z then Raise ZeroDivisionError
  else
    let delta := 1 / IZR (nsamples - 1) in
    let itheta := map (fun a => a * delta) (cumsum (0 :: itheta)) in
    i2 <- getitem itheta n2 ;;
    Ok (map (fun a => a + (orientation - i2)) itheta).

(** [center_from_theta_discrete] *)
Definition center_from_theta_discrete (theta : list R) (orientation : R)
    (xy : point) (length : R) (npoints nsamples : option Z)
    (resample : bool) (smooth : R) (with_normals : bool)
  : result (list point * option (list point)) :=
  let nt := len theta in
  let npoints := default npoints (nt + 2) in
  let nsamples := default nsamples (nt + 2) in
  let n2 := ((nsamples - 1) / 2)%Z in
  itheta <- integrate_theta theta orientation nsamples resample ;;
  let delta := 1 / IZR (nsamples - 1) in
  let cos := map cos itheta in
  let sin := map sin itheta in
  let x := cumsum cos in
  let y := cumsum sin in
  let center := combine x y in
  let center := (0, 0) :: center in
  let center := map (pscale (length * delta)) center in
  c2 <- getitem center n2 ;;
  let center := map (fun p => padd p (psub xy c2)) center in
  let center :=
    if negb (npoints =? nsamples)%Z || resample
    then resample_curve center npoints (Some smooth)
    else center in
  if with_normals
  then
    let itheta :=
      if negb (npoints =? nsamples)%Z
      then resample_curve1d itheta (npoints - 1)%Z None
      else itheta in
    let dtheta := diff Rminus itheta in
    let itheta := map (fun a => a + PI / 2) itheta in
    itheta <- spread_half_angles itheta dtheta ;;
    Ok (center, Some (combine (map Rtrigo_def.cos itheta) (map Rtrigo_def.sin itheta)))
  else Ok (center, None).

(** [normals_from_theta_discrete] *)
Definition normals_from_theta_discrete (theta : list R) (orientation : R)
    (npoints nsamples : option Z) (resample : bool) : result (list point) :=
  let nt := len theta in
  let npoints := default npoints (nt + 2) in
  let nsamples := default nsamples (nt + 2) in
  itheta <- integrate_theta theta orientation nsamples resample ;;
  let itheta :=
    if negb (npoints =? nsamples)%Z
    then resample_curve1d itheta (npoints - 1)%Z None
    else itheta in
  let dtheta := diff Rminus itheta in
  let itheta := map (fun a => a + PI / 2) itheta in
  itheta <- spread_half_angles itheta dtheta ;;
  Ok (combine (map cos itheta) (map sin itheta)).

(** [normals_from_center_discrete] *)
Definition normals_from_center_discrete (center : list point)
  : result (list point) :=
  ' (theta, orientation, _, _) <- theta_from_center_discrete center None None false 0 ;;
  normals_from_theta_discrete theta orientation None None false.

(** [shape_from_center_discrete]: left, right and, with [with_normals],
    the normals. *)
Definition shape_from_center_discrete (center : list point) (width : list R)
    (normals : option (list point)) (with_normals : bool)
  : result (list point * list point * option (list point)) :=
  let w :=
    if negb (length width =? length center)%nat
    then resample_curve1d width (len center) None
    else width in
  let w := combine w w in
  normals <-
    match normals with
    | None => normals_from_center_discrete center
    | Some n => Ok n
    end ;;
  hw <- broadcast pmul (map (pscale 0.5) w) normals ;;
  left <- broadcast padd center hw ;;
  right <- broadcast psub center hw ;;
  if with_normals
  then Ok (left, right, Some normals)
  else Ok (left, right, None).

End Curves.

Section MinProjection.

Variable resample_curve : list point -> Z -> option R -> list point.
Variable resample_curve1d : list R -> Z -> option R -> list R.

(** shapely: [LineString(pts).project(p, normalized = True)] and
    [LineString(pts).interpolate(u, normalized = True)]. *)
Variable project : list point -> point -> R.
Variable interpolate : list point -> R -> point.

(** The loop of [center_from_sides_min_projection]; every round advances
    [il] or [ir] towards [bound], so twice their distance to it is fuel
    enough. *)
Fixpoint min_projection_walk (fuel : nat) (leftcurve rightcurve : list point)
    (bound : Z) (il ir : Z) (leftline rightline : list point)
    (left_point right_point : point) (full_left full_right : list point)
  : result (list point * list point) :=
  match fuel with
  | O => Ok (full_left, full_right)
  | S fuel =>
    if ((il <? bound) && (ir <? bound))%Z
    then
      let ul := project leftline right_point in
      let ur := project rightline left_point in
      if Req_dec_T ul ur
      then
        let full_left := full_left ++ [left_point] in
        let full_right := full_right ++ [right_point] in
        let leftline := slice leftcurve (Some il) (Some (il + 2)%Z) in
        let rightline := slice rightcurve (Some ir) (Some (ir + 2)%Z) in
        let il := (il + 1)%Z in
        let ir := (ir + 1)%Z in
        left_point <- getitem leftcurve il ;;
        right_point <- getitem rightcurve ir ;;
        min_projection_walk fuel leftcurve rightcurve bound il ir
          leftline rightline left_point right_point full_left full_right
      else if Rlt_dec ul ur
      then
        let full_left := full_left ++ [interpolate leftline ul] in
        let full_right := full_right ++ [right_point] in
        let rightline := slice rightcurve (Some ir) (Some (ir + 2)%Z) in
        let ir := (ir + 1)%Z in
        right_point <- getitem rightcurve ir ;;
        min_projection_walk fuel leftcurve rightcurve bound il ir
          leftline rightline left_point right_point full_left full_right
      else
        let full_left := full_left ++ [left_point] in
        let full_right := full_right ++ [interpolate rightline ur] in
        let leftline := slice leftcurve (Some il) (Some (il + 2)%Z) in
        let il := (il + 1)%Z in
        left_point <- getitem leftcurve il ;;
        min_projection_walk fuel leftcurve rightcurve bound il ir
          leftline rightline left_point right_point full_left full_right
    else Ok (full_left, full_right)
  end.

(** [center_from_sides_min_projection] *)
Definition center_from_sides_min_projection (left right : list point)
    (npoints nsamples : option Z) (resample with_width : bool)
    (smooth : R) (center_offset : Z)
  : result (list point * option (list R)) :=
  let nl := len left in
  let nr := len right in
  let nsamples := default nsamples (Z.max nl nr) in
  let npoints := default npoints (Z.max nl nr) in
  let '(leftcurve, rightcurve) :=
    if negb (nl =? nsamples)%Z || negb (nr =? nsamples)%Z || resample
    then (resample_curve left nsamples None, resample_curve right nsamples None)
    else (left, right) in
  full_left <- take leftcurve (range 0 center_offset) ;;
  full_right <- take rightcurve (range 0 center_offset) ;;
  let il := (center_offset - 1)%Z in
  let ir := (center_offset - 1)%Z in
  let rightline := slice rightcurve (Some il) (Some (il + 2)%Z) in
  let leftline := slice leftcurve (Some ir) (Some (ir + 2)%Z) in
  let il := center_offset in
  let ir := center_offset in
  left_point <- getitem leftcurve il ;;
  right_point <- getitem rightcurve ir ;;
  ' (full_left, full_right) <-
    min_projection_walk
      (2 * Z.to_nat (nsamples - center_offset - 1 - center_offset))
      leftcurve rightcurve
      (nsamples - center_offset - 1)%Z il ir leftline rightline
      left_point right_point full_left full_right ;;
  tail_left <- take leftcurve (range (- center_offset) 0) ;;
  tail_right <- take rightcurve (range (- center_offset) 0) ;;
  let full_left := full_left ++ tail_left in
  let full_right := full_right ++ tail_right in
  s <- broadcast padd full_left full_right ;;
  let center := map (fun p => (fst p / 2, snd p / 2)) s in
  let center := resample_curve center npoints (Some smooth) in
  if negb with_width
  then Ok (center, None)
  else
    d <- broadcast psub full_left full_right ;;
    let width := norm_axis1 d in
    let width := map (fun w => 0.5 * w) (resample_curve1d width npoints (Some 0)) in
    Ok (center, Some width).

End MinProjection.

(** What [shape_from_image] returns: status, center, left, right and
    width, or the four entries of its give-up return. *)
Inductive detection : Type :=
| Detection (status : Z) (center left right : list point) (width : list R)
| Detection4 (status : Z) (center left right : list point).

(** One row of the contour hierarchy: next, previous, first child, parent. *)
Abbreviation hierarchy_row := (Z * Z * Z * Z)%type (only parsing).

(** The moments of a contour that the program reads. *)
Record moments : Type := { m00 : R; m10 : R; m01 : R }.

(** Python float division. *)
Definition truediv (a b : R) : result R :=
  if Req_dec_T b 0 then Raise ZeroDivisionError else Ok (a / b).

Section HeadTail.

(** [np.argsort]: the indices that sort an array.  The default sort is not
    stable, so the order it gives to equal values is left to the routine. *)
Variable argsort : list R -> list Z.

(** The resolution of head and tail in [shape_from_image], from
    "# find head and tail" to the statement before "### calcualte sides and
    midline": [x], [y] are the contour samples, [peak_ids] and
    [peak_values] the curvature peaks; returns [imax] and the status. *)
Definition head_tail (x y : list R) (peak_ids : list Z) (peak_values : list R)
    (ncontour : Z) (head_tail_hint : option (point * point)) (status : Z)
  : result (list Z * Z) :=
  if (2 <=? len peak_ids)%Z
  then
    match head_tail_hint with
    | Some (hint0, hint1) =>
        xs <- take x peak_ids ;;
        ys <- take y peak_ids ;;
        xy <- columns xs ys ;;
        let dist_h := norm_axis1 (map (fun p => psub p hint0) xy) in
        let dist_t := norm_axis1 (map (fun p => psub p hint1) xy) in
        i_h <- argmin dist_h ;;
        i_t <- argmin dist_t ;;
        i_t <-
          (if (i_h =? i_t)%Z
           then
             dist_t <- setitem (map Num dist_t) i_t Inf ;;
             argmin_float dist_t
           else Ok i_t) ;;
        p_h <- getitem peak_ids i_h ;;
        p_t <- getitem peak_ids i_t ;;
        Ok ([p_h; p_t], (status + 10)%Z)
    | None =>
        ids <- take peak_ids (slice (argsort peak_values) (Some (-2)%Z) None) ;;
        Ok (sort ids, (status + 20)%Z)
    end
  else if (len peak_ids =? 1)%Z
  then
    match head_tail_hint with
    | Some (hint0, hint1) =>
        p0 <- getitem peak_ids 0 ;;
        _ <- getitem x p0 ;;
        _ <- getitem y p0 ;;
        (* np.linalg.norm of a one-dimensional array along axis 1 *)
        Raise AxisError
    | None =>
        p0 <- getitem peak_ids 0 ;;
        Ok (sort [((p0 + 0) mod ncontour)%Z; ((p0 + ncontour / 2) mod ncontour)%Z],
            (status + 40)%Z)
    end
  else
    match head_tail_hint with
    | Some (hint0, hint1) =>
        xy <- columns x y ;;
        let dist_h := norm_axis1 (map (fun p => psub p hint0) xy) in
        let dist_t := norm_axis1 (map (fun p => psub p hint1) xy) in
        i_h <- argmin dist_h ;;
        i_t <- argmin dist_t ;;
        i_t <-
          (if (i_h =? i_t)%Z
           then
             dist_t <- setitem (map Num dist_t) i_t Inf ;;
             argmin_float dist_t
           else Ok i_t) ;;
        Ok ([i_h; i_t], (status + 50)%Z)
    | None =>
        Ok ([0%Z; (ncontour / 2)%Z], (status + 60)%Z)
    end.

End HeadTail.

Section Image.

Variable resample_curve : list point -> Z -> option R -> list point.
Variable resample_curve1d : list R -> Z -> option R -> list R.
Variable project : list point -> point -> R.
Variable interpolate : list point -> R -> point.

(** The image type and the external image, contour and spline routines. *)
Variable image : Type.
Variable image_shape : image -> point.
Variable gaussian_filter : image -> R -> image.
Variable threshold_otsu : image -> R.
Variable detect_contour : image -> R -> list (list point) * list hierarchy_row.
Variable contourArea : list point -> R.
Variable cv2_moments : list point -> moments.
Variable matchShapes : list point -> list point -> R.
Variable spline : Type.
Variable splprep : list point -> R -> spline * list R.
Variable splev : list R -> spline -> nat -> list R * list R.
Variable find_peaks : list R -> R -> list Z * list R.

(** [np.argsort], as for [head_tail]. *)
Variable argsort : list R -> list Z.

(** The choice among the contours found, from [if len(pts) == 1:] on. *)
Definition select_contour (img : image) (pts : list (list point))
    (hrchy : list hierarchy_row) (contour_hint : option (list point))
    (size_hint : option R) (status : Z) : result (list point * Z) :=
  if (len pts =? 1)%Z
  then
    p <- getitem pts 0 ;;
    Ok (p, (status + 1)%Z)
  else
    let outer := nonzero (map (fun row => (snd row =? -1)%Z) hrchy) in
    outer_pts <- take pts outer ;;
    let areas := map contourArea outer_pts in
    outer <- mask (map (fun a => Rltb 0 a) areas) outer ;;
    if (len outer =? 1)%Z
    then
      o <- getitem outer 0 ;;
      p <- getitem pts o ;;
      Ok (p, (status + 2)%Z)
    else
      outer_pts <- take pts outer ;;
      let moments := map cv2_moments outer_pts in
      centroids <-
        traverse (fun m =>
                    cx <- truediv (m10 m) (m00 m) ;;
                    cy <- truediv (m01 m) (m00 m) ;;
                    Ok (cx, cy)) moments ;;
      match contour_hint, size_hint with
      | Some hint, _ =>
          let dist := map (fun c => matchShapes c hint) outer_pts in
          imin <- argmin dist ;;
          let status := (status + 3)%Z in
          o <- getitem outer imin ;;
          p <- getitem pts o ;;
          Ok (p, status)
      | None, Some size =>
          let dist := map contourArea outer_pts in
          let dist := map (fun d => Rabs (d - size)) dist in
          imin <- argmin dist ;;
          let status := (status + 4)%Z in
          o <- getitem outer imin ;;
          p <- getitem pts o ;;
          Ok (p, status)
      | None, None =>
          let half := (fst (image_shape img) / 2, snd (image_shape img) / 2) in
          let dist := norm_axis1 (map (fun c => psub c half) centroids) in
          imin <- argmin dist ;;
          let status := (status + 5)%Z in
          o <- getitem outer imin ;;
          p <- getitem pts o ;;
          Ok (p, status)
      end.

(** [peak_ids -= nextra] and the two masks that keep the peaks on the
    contour proper. *)
Definition keep_contour_peaks (peak_ids : list Z) (peak_values : list R)
    (nextra ncontour : Z) : result (list Z * list R) :=
  if (0 <? len peak_ids)%Z
  then
    let peak_ids := map (fun i => (i - nextra)%Z) peak_ids in
    let m := map (fun i => (0 <=? i)%Z) peak_ids in
    peak_values <- mask m peak_values ;;
    peak_ids <- mask m peak_ids ;;
    let m := map (fun i => (i <? ncontour)%Z) peak_ids in
    peak_values <- mask m peak_values ;;
    peak_ids <- mask m peak_ids ;;
    Ok (peak_ids, peak_values)
  else Ok (peak_ids, peak_values).

(** [- (dx * d2y - dy * d2x) / np.power(dx**2 + dy**2, 1.5)], entry by entry. *)
Definition curvature (d1 d2 : list R * list R) : list R :=
  map (fun v =>
         let '(dx, dy, (d2x, d2y)) := v in
         - (dx * d2y - dy * d2x) / power (dx * dx + dy * dy) 1.5)
      (combine (combine (fst d1) (snd d1)) (combine (fst d2) (snd d2))).

(** [shape_from_image] once a contour has been found, from
    [if len(pts) == 1:] to the final return. *)
Definition shape_from_contours (img : image) (pts : list (list point))
    (hrchy : list hierarchy_row) (status : Z)
    (ncontour : nat) (delta smooth_head_tail : R) (smooth_left_right : option R)
    (smooth_center : R) (npoints : nat) (center_offset : Z)
    (contour_hint : option (list point)) (size_hint : option R)
    (delta_reduce : option R) (head_tail_hint : option (point * point))
  : result detection :=
  ' (pts, status) <- select_contour img pts hrchy contour_hint size_hint status ;;
  (* interpolate outer contour *)
  let nextra := Z.min (len pts - 1) 20 in
  let ptsa := slice pts (Some (- nextra)%Z) None ++ pts ++ slice pts None (Some nextra) in
  let '(cinterp, u) := splprep ptsa smooth_head_tail in
  u0 <- getitem u nextra ;;
  u1 <- getitem u (- nextra - 1)%Z ;;
  let us := slice (linspace u0 u1 (ncontour + 1)) None (Some (-1)%Z) in
  let '(x, y) := splev us cinterp 0 in
  let k := curvature (splev us cinterp 1) (splev us cinterp 2) in
  let kk := slice k (Some (- nextra)%Z) None ++ k ++ slice k None (Some nextra) in
  let '(peak_ids, peak_values) := find_peaks kk delta in
  ' (peak_ids, peak_values) <-
    keep_contour_peaks peak_ids peak_values nextra (Z.of_nat ncontour) ;;
  ' (peak_ids, peak_values) <-
    match delta_reduce with
    | Some r =>
        if (len peak_ids <? 2)%Z
        then
          let '(peak_ids, peak_values) := find_peaks kk (delta * r) in
          keep_contour_peaks peak_ids peak_values nextra (Z.of_nat ncontour)
        else Ok (peak_ids, peak_values)
    | None => Ok (peak_ids, peak_values)
    end ;;
  (* find head and tail *)
  ' (imax, status) <-
    head_tail argsort x y peak_ids peak_values (Z.of_nat ncontour)
      head_tail_hint status ;;
  (* calculate sides and midline *)
  let '(cinterp, u) :=
    match smooth_left_right with
    | Some s =>
        if Req_dec_T smooth_head_tail s then (cinterp, u) else splprep ptsa s
    | None => (cinterp, u)
    end in
  i0 <- getitem imax 0 ;;
  i1 <- getitem imax 1 ;;
  us0 <- getitem us i0 ;;
  us1 <- getitem us i1 ;;
  let u1 := linspace us0 us1 ncontour in
  let '(x1, y1) := splev u1 cinterp 0 in
  left <- columns x1 y1 ;;
  u1 <- getitem u (- nextra - 1)%Z ;;
  let du := u1 - u0 in
  let u2 := linspace us0 (us1 - du) ncontour in
  let u2 := map (fun v => if Rlt_dec v u0 then v + du else v) u2 in
  let '(x2, y2) := splev u2 cinterp 0 in
  right <- columns x2 y2 ;;
  cw <- center_from_sides_min_projection resample_curve resample_curve1d
          project interpolate left right (Some (Z.of_nat npoints))
          (Some (Z.of_nat ncontour)) false true smooth_center center_offset ;;
  match cw with
  | (center, Some width) => Ok (Detection status center left right width)
  | (center, None) => Raise TypeError (* not reached: [with_width] is set *)
  end.

(** [shape_from_image]; [ncontour] and [npoints] are counts. *)
Definition shape_from_image (img : image) (sigma : option R)
    (absolute_threshold : option R) (threshold_factor : R)
    (ncontour : nat) (delta smooth_head_tail : R) (smooth_left_right : option R)
    (smooth_center : R) (npoints : nat) (center_offset : Z)
    (threshold_reduce : option R)
    (contour_hint : option (list point)) (size_hint : option R)
    (delta_reduce : option R) (head_tail_hint : option (point * point))
  : result detection :=
  (* smooth image *)
  let imgs :=
    match sigma with
    | Some s => gaussian_filter img s
    | None => img
    end in
  (* get contours *)
  let level :=
    match absolute_threshold with
    | Some t => t
    | None => threshold_factor * threshold_otsu imgs
    end in
  let '(pts, hrchy) := detect_contour imgs level in
  let status := 0%Z in
  let rest pts hrchy status :=
    shape_from_contours img pts hrchy status ncontour delta
      smooth_head_tail smooth_left_right smooth_center npoints
      center_offset contour_hint size_hint delta_reduce head_tail_hint in
  if (len pts =? 0)%Z
  then
    let '(pts, hrchy, status) :=
      match threshold_reduce with
      | Some r =>
          let '(pts, hrchy) := detect_contour imgs (r * level) in
          (pts, hrchy, (status + 1000)%Z)
      | None => (pts, hrchy, status)
      end in
    if (len pts =? 0)%Z
    then
      (* return -1, np.zeros((npoints,2)), np.zeros((npoints,2)),
                np.zeros((npoints,2), np.zeros(npoints)) *)
      let center := zeros2 npoints in
      let left := zeros2 npoints in
      right <- zeros2_dtype npoints (DtypeArray (zeros npoints)) ;;
      Ok (Detection4 (-1) center left right)
    else rest pts hrchy status
  else rest pts hrchy status.

End Image.

(** The matching of the two ends of the shape to the hint points in
    [distance_shape_to_contour_discrete], the body of
    [if match_head_tail is not None:]; returns [distance_head],
    [head_match], [distance_tail], [tail_match]. *)
Definition match_ends (left match_head_tail : list point)
  : result (float * option Z * float * option Z) :=
  if (0 <? len match_head_tail)%Z
  then
    head <- getitem left 0 ;;
    tail <- getitem left (-1)%Z ;;
    let dists_head := norm_axis1 (map (fun m => psub head m) match_head_tail) in
    let dists_tail := norm_axis1 (map (fun m => psub tail m) match_head_tail) in
    head_match <- argmin dists_head ;;
    tail_match <- argmin dists_tail ;;
    distance_head <- getitem dists_head head_match ;;
    distance_tail <- getitem dists_tail tail_match ;;
    if (head_match =? tail_match)%Z
    then
      dh <- getitem dists_head head_match ;;
      dt <- getitem dists_tail tail_match ;;
      if Rle_dec dh dt
      then
        if (len dists_tail <=? 1)%Z
        then Ok (Num distance_head, Some head_match, NaN, None)
        else
          top <- amax dists_tail ;;
          dists_tail <- setitem dists_tail tail_match (top + 1) ;;
          tail_match <- argmin dists_tail ;;
          distance_tail <- getitem dists_tail tail_match ;;
          Ok (Num distance_head, Some head_match, Num distance_tail, Some tail_match)
      else
        if (len dists_head <=? 1)%Z
        then Ok (NaN, None, Num distance_tail, Some tail_match)
        else
          top <- amax dists_head ;;
          dists_head <- setitem dists_head head_match (top + 1) ;;
          head_match <- argmin dists_head ;;
          (* dists_head = dists_tail[head_match] *)
          dists_head <- getitem dists_tail head_match ;;
          Ok (Num distance_head, Some head_match, Num distance_tail, Some tail_match)
    else Ok (Num distance_head, Some head_match, Num distance_tail, Some tail_match)
  else Ok (NaN, None, NaN, None).

Section Distance.

(** [interpolation.curve.Curve] with its constructor from points, its
    [intersections] with a two-point line (xy, ii, ij, pi, pj) and its
    normalised [normals] at curve parameters. *)
Variable Curve : Type.
Variable Curve_from_points : list point -> Curve.
Variable intersections :
  Curve -> list point -> list point * list Z * list Z * list R * list R.
Variable normals_at : Curve -> list R -> list point.

(** One round of either loop over the side points: the distance and the
    intersection point for side point [p], searched along [start]-[stop];
    [n] is the lookup of the normal the alignment is measured against,
    which happens only when [min_alignment] is given. *)
Definition nearest_intersection (contour : Curve) (min_alignment : option R)
    (p start stop : point) (n : result point)
  : result (float * (float * float)) :=
  let '(xy, ii, ij, pi, pj) := intersections contour [start; stop] in
  if (len ii =? 0)%Z then Ok (NaN, (NaN, NaN))
  else
    let pick (xy : list point) : result (float * (float * float)) :=
      let dd := norm_axis1 (map (fun q => psub p q) xy) in
      minidx <- argmin dd ;;
      d <- getitem dd minidx ;;
      q <- getitem xy minidx ;;
      Ok (Num d, (Num (fst q), Num (snd q))) in
    match min_alignment with
    | Some a =>
        let cntnrmls := normals_at contour pi in
        n <- n ;;
        let algnmt := map (fun c => fst c * fst n + snd c * snd n) cntnrmls in
        let aligned := map (fun v => if Rge_dec v a then true else false) algnmt in
        if existsb (fun b => b) aligned
        then
          xy <- mask aligned xy ;;
          _ <- mask aligned ii ;;
          _ <- mask aligned ij ;;
          _ <- mask aligned pi ;;
          _ <- mask aligned pj ;;
          pick xy
        else Ok (NaN, (NaN, NaN))
    | None => pick xy
    end.

(** What [distance_shape_to_contour_discrete] returns. *)
Record distances : Type := {
  distances_left : list float;
  intersection_pts_left : list (float * float);
  distances_right : list float;
  intersection_pts_right : list (float * float);
  ends : option (float * option Z * float * option Z)
}.

(** [distance_shape_to_contour_discrete] *)
Definition distance_shape_to_contour_discrete (left right normals : list point)
    (contour : list point + Curve) (search_radius : list R)
    (min_alignment : option R) (match_head_tail : option (list point))
  : result distances :=
  let contour :=
    match contour with
    | inl pts => Curve_from_points pts
    | inr c => c
    end in
  let search_radius :=
    if (len search_radius <? 2)%Z
    then search_radius ++ search_radius
    else search_radius in
  let '(lleft, rright, normals) :=
    match match_head_tail with
    | Some _ =>
        (slice left (Some 1%Z) (Some (-1)%Z),
         slice right (Some 1%Z) (Some (-1)%Z),
         slice normals (Some 1%Z) (Some (-1)%Z))
    | None => (left, right, normals)
    end in
  let npts := len lleft in
  r0 <- getitem search_radius 0 ;;
  left_start <- broadcast psub lleft (map (pscale r0) normals) ;;
  r1 <- getitem search_radius 1 ;;
  left_end <- broadcast padd lleft (map (pscale r1) normals) ;;
  right_start <- broadcast padd rright (map (pscale r0) normals) ;;
  right_end <- broadcast psub rright (map (pscale r1) normals) ;;
  lefts <-
    traverse (fun i =>
                p <- getitem lleft i ;;
                a <- getitem left_start i ;;
                b <- getitem left_end i ;;
                nearest_intersection contour min_alignment p a b
                  (getitem normals i))
             (range 0 npts) ;;
  rights <-
    traverse (fun i =>
                p <- getitem rright i ;;
                a <- getitem right_start i ;;
                b <- getitem right_end i ;;
                nearest_intersection contour min_alignment p a b
                  (n <- getitem normals i ;; Ok (- fst n, - snd n)))
             (range 0 npts) ;;
  ends <-
    match match_head_tail with
    | Some hints =>
        e <- match_ends left hints ;;
        Ok (Some e)
    | None => Ok None
    end ;;
  Ok {| distances_left := map fst lefts;
        intersection_pts_left := map snd lefts;
        distances_right := map fst rights;
        intersection_pts_right := map snd rights;
        ends := ends |}.

End Distance.

(** [length_from_center_discrete] *)
Definition length_from_center_discrete (center : list point) : R :=
  let ds := diff psub center in
  sum (map (fun d => sqrt (fst d * fst d + snd d * snd d)) ds).

(** [center_of_center_discrete] *)
Definition center_of_center_discrete (center : list point) : result point :=
  let n := len center in
  let n2 := (n / 2)%Z in
  if (n mod 2 =? 0)%Z
  then
    a <- getitem center (n2 - 1)%Z ;;
    b <- getitem center n2 ;;
    Ok ((fst a + fst b) / 2, (snd a + snd b) / 2)
  else getitem center n2.

(** [np.dot(v, r.T)] for the rotation matrix
    [r = [[cos(rad), -sin(rad)], [sin(rad), cos(rad)]]]. *)
Definition dot_rotation (rad : R) (v : point) : point :=
  (fst v * cos rad + snd v * - sin rad, fst v * sin rad + snd v * cos rad).

(** [rotate_center_discrete]; [pos] is [None] for the center of the
    center line. *)
Definition rotate_center_discrete (center : list point) (rad : R)
    (pos : option point) : result (list point) :=
  pos <-
    match pos with
    | None => center_of_center_discrete center
    | Some p => Ok p
    end ;;
  Ok (map (fun c => padd (dot_rotation rad (psub c pos)) pos) center).

(** [lift[i:] = op(lift[i:])] for an index that is not negative. *)
Definition update_from (op : R -> R) (lift : list R) (i : Z) : list R :=
  slice lift None (Some i) ++ map op (slice lift (Some i) None).

(** [lift_cirular] *)
Definition lift_cirular (phi : list R) : list R :=
  let dphi := diff Rminus phi in
  let ii := map (fun i => (i + 1)%Z) (nonzero (map (fun d => Rltb d (- PI)) dphi)) in
  let ip := map (fun i => (i + 1)%Z) (nonzero (map (fun d => Rltb PI d) dphi)) in
  let lift := zeros (length phi) in
  let lift := fold_left (update_from (fun x => x + 2 * PI)) ii lift in
  let lift := fold_left (update_from (fun x => x - 2 * PI)) ip lift in
  map (fun ab => fst ab + snd ab) (combine phi lift).

(** [np.allclose(a, b)] on two points, with the default tolerances
    [rtol = 1e-05] and [atol = 1e-08]. *)
Definition allclose (a b : point) : bool :=
  let close (x y : R) : bool :=
    if Rle_dec (Rabs (x - y)) (1 / 100000000 + 1 / 100000 * Rabs y)
    then true else false in
  close (fst a) (fst b) && close (snd a) (snd b).

(** [normals_from_contour_discrete] for a contour given as an array. *)
Definition normals_from_contour_discrete (contour : list point)
  : result (list point) :=
  c0 <- getitem contour 0 ;;
  cl <- getitem contour (-1)%Z ;;
  if negb (allclose c0 cl) then Raise ValueError
  else
    let centervec := diff psub contour in
    let t0 : point := (1, 0) in
    t1 <- getitem centervec 0 ;;
    let orientation :=
      remainder (arctan2 (fst t0) (snd t0) - arctan2 (fst t1) (snd t1) + PI)
                (2 * PI) - PI in
    let theta :=
      sub_arrays (map (fun p => arctan2 (fst p) (snd p))
                      (slice centervec None (Some (-1)%Z)))
                 (map (fun p => arctan2 (fst p) (snd p))
                      (slice centervec (Some 1%Z) None)) in
    let theta := map (fun a => remainder (a + PI) (2 * PI) - PI) theta in
    let theta := 0 :: theta in
    let itheta := cumsum theta in
    let itheta := map (fun a => a + (PI / 2 + orientation)) itheta in
    itheta <- broadcast Rminus itheta (map (fun t => t / 2) theta) ;;
    i0 <- getitem itheta 0 ;;
    tl <- getitem theta (-1)%Z ;;
    itheta <- setitem itheta 0 (i0 - tl / 2) ;;
    Ok (combine (map cos itheta) (map sin itheta)).

End Geometry.

(** ** worm/model.py *)

Module WormModel.

(** An attribute that the constructor sets to a float and that
    [set_parameter] overwrites with a slice of the parameter array. *)
Inductive value : Type :=
| Float (x : R)
| Array (a : list R).

(** What [np.hstack] makes of such an entry. *)
Definition atleast_1d (v : value) : list R :=
  match v with
  | Float x => [x]
  | Array a => a
  end.

Record t : Type := mk {
  length : value;
  xy : point;
  speed : value;
  center : list point;
  npoints : nat;
  width : list R;
  nparameter : nat;
  nparameter_total : nat;
  position_index : Z * Z
}.

(** The [center] argument of the constructor: [None], a [Curve] (its
    [values] are taken) or anything [np.array] accepts. *)
Inductive center_arg : Type :=
| CenterNone
| CenterCurve (values : list point)
| CenterArray (a : list point).

(** The [width] argument: [None], a [Spline] or an array. *)
Inductive width_arg : Type :=
| WidthNone
| WidthSpline (values : list R)
| WidthArray (a : list R).

(** [WormModel.__init__] *)
Definition init (center : center_arg) (width : width_arg)
    (xy : point) (length : R) (npoints : nat) : result t :=
  let self_length := Float length in
  let self_xy := xy in
  let self_speed := Float 0 in
  self_center <-
    match center with
    | CenterNone =>
        c <- columns (linspace 0 1 npoints) (zeros npoints) ;;
        Ok (map (fun p => padd p xy) c)
    | CenterCurve values => Ok values
    | CenterArray a => Ok a
    end ;;
  let self_npoints := List.length self_center in
  let self_width :=
    match width with
    | WidthNone => Geometry.default_width self_npoints
    | WidthSpline values => values
    | WidthArray a => a
    end in
  if negb (self_npoints =? List.length self_width)%nat
  then Raise ValueError
  else
    let self_nparameter := (2 * self_npoints)%nat in
    Ok {| length := self_length;
          xy := self_xy;
          speed := self_speed;
          center := self_center;
          npoints := self_npoints;
          width := self_width;
          nparameter := self_nparameter;
          nparameter_total := (self_nparameter + 2 + self_npoints)%nat;
          position_index := ((Z.of_nat self_nparameter - 2)%Z,
                             (Z.of_nat self_nparameter - 1)%Z) |}.

(** A method: the outcome and the state of the object afterwards. *)
Definition method (A : Type) : Type := t -> result A * t.

Definition set_center (c : list point) (self : t) : t :=
  mk (length self) (xy self) (speed self) c (npoints self) (width self)
     (nparameter self) (nparameter_total self) (position_index self).

Definition set_length (v : value) (self : t) : t :=
  mk v (xy self) (speed self) (center self) (npoints self) (width self)
     (nparameter self) (nparameter_total self) (position_index self).

Definition set_speed (v : value) (self : t) : t :=
  mk (length self) (xy self) v (center self) (npoints self) (width self)
     (nparameter self) (nparameter_total self) (position_index self).

Definition set_width (w : list R) (self : t) : t :=
  mk (length self) (xy self) (speed self) (center self) (npoints self) w
     (nparameter self) (nparameter_total self) (position_index self).

(** [WormModel.get_parameter] *)
Definition get_parameter (full : bool) (self : t) : list R :=
  let par := flatten (center self) in
  if full
  then par ++ atleast_1d (length self) ++ atleast_1d (speed self) ++ width self
  else par.

(** [self.width.nparameter]: the width is a numpy array, which has no
    such attribute. *)
Definition ndarray_nparameter (a : list R) : result nat := Raise AttributeError.

(** [WormModel.set_parameter] *)
Definition set_parameter (parameter : list R) : method unit := fun self =>
  let istr := 0%Z in
  let iend := (2 * Z.of_nat (npoints self))%Z in
  match reshape2 (slice parameter (Some istr) (Some iend)) (npoints self) with
  | Raise e => (Raise e, self)
  | Ok c =>
    let self := set_center c self in
    if (nparameter self <? List.length parameter)%nat
    then
      let istr := iend in
      let iend := (iend + 1)%Z in
      let self := set_length (Array (slice parameter (Some istr) (Some iend))) self in
      let istr := iend in
      let iend := (iend + 1)%Z in
      let self := set_speed (Array (slice parameter (Some istr) (Some iend))) self in
      match ndarray_nparameter (width self) with
      | Raise e => (Raise e, self)
      | Ok k =>
        let istr := iend in
        let iend := (iend + Z.of_nat k)%Z in
        (Ok tt, set_width (slice parameter (Some istr) (Some iend)) self)
      end
    else (Ok tt, self)
  end.

(** [WormModel.translate]: [self.center += np.array(xy)]. *)
Definition translate (v : point) : method unit := fun self =>
  (Ok tt, set_center (map (fun p => padd p v) (center self)) self).

(** One method after another; an exception ends the sequence. *)
Definition and_then {A B : Type} (m : method A) (k : method B) : method B :=
  fun self =>
    match m self with
    | (Ok _, self') => k self'
    | (Raise e, self') => (Raise e, self')
    end.

(** [WormModel.set_length]; [None] measures the center line. *)
Definition set_length_of (length : option R) : method unit := fun self =>
  match length with
  | None =>
      (Ok tt,
       set_length (Float (Geometry.length_from_center_discrete (center self))) self)
  | Some l => (Ok tt, set_length (Float l) self)
  end.

(** [WormModel.from_center] *)
Definition from_center (c : list point) (w : option (list R)) : method unit :=
  fun self =>
    let self := set_center c self in
    match w with
    | Some w => (Ok tt, set_width w self)
    | None => (Ok tt, self)
    end.

(** [WormModel.center_point] *)
Definition center_point : method point := fun self =>
  (Geometry.center_of_center_discrete (center self), self).

(** [WormModel.head], [WormModel.tail] *)
Definition head : method point := fun self => (getitem (center self) 0, self).
Definition tail : method point := fun self => (getitem (center self) (-1), self).

(** [WormModel.swith_head_tail]: [self.center = self.center[::-1,:]]. *)
Definition swith_head_tail : method unit := fun self =>
  (Ok tt, set_center (rev (center self)) self).

(** [WormModel.rotate] *)
Definition rotate (angle : R) (pos : option point) : method unit := fun self =>
  match Geometry.rotate_center_discrete (center self) angle pos with
  | Ok c => (Ok tt, set_center c self)
  | Raise e => (Raise e, self)
  end.

(** [WormModel.stretch] *)
Definition stretch (factor : R) : method unit := fun self =>
  match center_point self with
  | (Ok p0, self) =>
      (Ok tt,
       set_center (map (fun c => padd (pscale factor (psub c p0)) p0) (center self))
                  self)
  | (Raise e, self) => (Raise e, self)
  end.

(** [self.width.multiply]: a numpy array has no such method. *)
Definition ndarray_multiply (a : list R) (factor : R) : result (list R) :=
  Raise AttributeError.

(** [WormModel.widen] *)
Definition widen (factor : R) : method unit := fun self =>
  match ndarray_multiply (width self) factor with
  | Ok _ => (Ok tt, self)
  | Raise e => (Raise e, self)
  end.

(** [WormModel.scale] *)
Definition scale (factor : R) : method unit :=
  and_then (stretch factor) (widen factor).

End WormModel.

(** ** Notions the properties are stated with *)

(** The round trip of the discrete mapping: the theta of a center line,
    and the center line of that theta, all arguments at their defaults. *)
Definition roundtrip_discrete
    (resample_curve : list point -> Z -> option R -> list point)
    (resample_curve1d : list R -> Z -> option R -> list R)
    (center : list point) : result (list point) :=
  ' (theta, orientation, xy, length) <-
    Geometry.theta_from_center_discrete resample_curve resample_curve1d
      center None None false 0 ;;
  ' (c, _) <-
    Geometry.center_from_theta_discrete resample_curve resample_curve1d
      theta orientation xy length None None false 0 false ;;
  Ok c.

(** Two curves agree within [eps], point by point and coordinate by
    coordinate. *)
Definition within (eps : R) (a b : list point) : Prop :=
  Forall2 (fun p q => Rabs (fst p - fst q) <= eps /\ Rabs (snd p - snd q) <= eps)
          a b.

(** All segments of a center line have the length [d]. *)
Definition evenly_spaced (d : R) (center : list point) : Prop :=
  Forall (fun v => norm v = d) (diff psub center).

(** Two angles that differ by whole turns. *)
Definition same_angle (s a : R) : Prop := exists k : Z, s = a + 2 * IZR k * PI.

(** What [np.argsort] promises of its result [s] on the array [a]: [s]
    holds every index of [a] once, and the values of [a] taken in the
    order of [s] do not decrease. *)
Definition sorting_indices (a : list R) (s : list Z) : Prop :=
  Permutation s (map Z.of_nat (seq 0 (length a))) /\
  StronglySorted Rle (map (fun i => nth (Z.to_nat i) a 0) s).

(** The order of two keys of the insertion sort below. *)
Definition key_le (a b : R * Z) : Prop := fst a <= fst b.

(** The half offsets [0.5 * w * normals] of [shape_from_center_discrete]. *)
Definition half_offsets (width : list R) (normals : list point) : list point :=
  map (fun ab => pmul (fst ab) (snd ab))
      (combine (map (pscale 0.5) (combine width width)) normals).

(** ** Sample inputs *)

(** The model that the constructor builds from three center points and
    three widths, with the default position and length. *)
Definition three_point_worm : WormModel.t :=
  WormModel.mk (WormModel.Float 50) (75, 75) (WormModel.Float 0)
    [(0, 0); (1, 0); (2, 0)] 3 [1; 2; 1] 6 11 (4%Z, 5%Z).

(** A resampler that cuts or pads with zeros to the number of points. *)
Definition pad_resample (a : list R) (n : Z) (smooth : option R) : list R :=
  firstn (Z.to_nat n) (a ++ repeat 0 (Z.to_nat n)).

Definition pad_resample2 (a : list point) (n : Z) (smooth : option R)
  : list point :=
  firstn (Z.to_nat n) (a ++ repeat (0, 0) (Z.to_nat n)).

(** An [argsort] that sorts by insertion and leaves equal values in index
    order. *)
Fixpoint enumerate_from {A : Type} (i : Z) (l : list A) : list (A * Z) :=
  match l with
  | [] => []
  | a :: t => (a, i) :: enumerate_from (i + 1)%Z t
  end.

Fixpoint insert_key (xi : R * Z) (l : list (R * Z)) : list (R * Z) :=
  match l with
  | [] => [xi]
  | yj :: t =>
      if Rlt_dec (fst xi) (fst yj) then xi :: l else yj :: insert_key xi t
  end.

Definition sort_keys (l : list (R * Z)) : list (R * Z) :=
  fold_left (fun acc xi => insert_key xi acc) l [].

Definition insertion_argsort (a : list R) : list Z :=
  map snd (sort_keys (enumerate_from 0%Z a)).

(** An image pipeline that never finds a contour: images are their mean
    intensity, the contour tracer returns nothing. *)
Definition blank_detect_contour (img : R) (level : R)
  : list (list point) * list (Z * Z * Z * Z) := ([], []).

(** * Properties *)

(** Settle the comparisons of real numerals a computation branches on. *)
Ltac decide_reals :=
  repeat match goal with
         | |- context [Rlt_dec ?a ?b] => destruct (Rlt_dec a b); try lra
         | |- context [Rle_dec ?a ?b] => destruct (Rle_dec a b); try lra
         | |- context [Rcase_abs ?a] => destruct (Rcase_abs a); try lra
         end.

(** ** The worm model *)

Section ModelFacts.

Import WormModel.

Lemma length_flatten (c : list point) :
  List.length (flatten c) = (2 * List.length c)%nat.
Proof.
  induction c as [| [x y] c IH]; simpl; [reflexivity | rewrite IH; lia].
Qed.

Lemma pairs_flatten (c : list point) : pairs (flatten c) = c.
Proof.
  induction c as [| [x y] c IH]; simpl; [reflexivity | now rewrite IH].
Qed.

Lemma slice_prefix {A : Type} (a b : list A) :
  slice (a ++ b) (Some 0%Z) (Some (Z.of_nat (List.length a))) = a.
Proof.
  unfold slice, clip_index, norm_index.
  rewrite length_app, Nat2Z.inj_add.
  assert (H0 : (0 <? 0)%Z = false) by reflexivity. rewrite H0.
  destruct (Z.of_nat (List.length a) <? 0)%Z eqn:E; [apply Z.ltb_lt in E; lia |].
  replace (Z.to_nat (Z.max 0 (Z.min _ 0))) with 0%nat by lia.
  replace (Z.to_nat (Z.max 0 (Z.min _ (Z.of_nat (List.length a)))))
    with (List.length a) by lia.
  rewrite skipn_O.
  rewrite firstn_app, Nat.sub_diag, firstn_all. simpl. apply app_nil_r.
Qed.

(** The layout of the full parameter vector for a model whose length and
    speed are the floats the constructor stores. *)
Lemma get_parameter_full_layout (self : t) (l s : R) :
  length self = Float l -> speed self = Float s ->
  get_parameter true self = flatten (center self) ++ [l; s] ++ width self.
Proof.
  intros Hl Hs. unfold get_parameter. rewrite Hl, Hs. reflexivity.
Qed.

Lemma get_parameter_center_only (self : t) :
  get_parameter false self = flatten (center self).
Proof. reflexivity. Qed.

(** Whatever the model, [set_parameter] does not survive a parameter
    vector longer than [nparameter]. *)
Lemma set_parameter_long_vector (self : t) (parameter : list R) :
  (nparameter self < List.length parameter)%nat ->
  fst (set_parameter parameter self) = Raise AttributeError \/
  fst (set_parameter parameter self) = Raise ValueError.
Proof.
  intros Hlong. unfold set_parameter.
  destruct (reshape2 _ _) as [c | e] eqn:E.
  - left. simpl nparameter.
    apply Nat.ltb_lt in Hlong. rewrite Hlong. reflexivity.
  - right. unfold reshape2 in E.
    destruct (_ =? _)%nat; [discriminate | now inversion E].
Qed.

(** On a model in the state the constructor leaves it in, [set_parameter]
    applied to the full parameter vector raises AttributeError; center and
    width are as before. *)
Lemma set_parameter_get_parameter (self : t) (l : R) :
  npoints self = List.length (center self) ->
  nparameter self = (2 * npoints self)%nat ->
  length self = Float l ->
  fst (set_parameter (get_parameter true self) self) = Raise AttributeError /\
  center (snd (set_parameter (get_parameter true self) self)) = center self /\
  width (snd (set_parameter (get_parameter true self) self)) = width self.
Proof.
  intros Hn Hp Hl. unfold set_parameter, get_parameter.
  replace (2 * Z.of_nat (npoints self))%Z
    with (Z.of_nat (List.length (flatten (center self))))
    by (rewrite length_flatten, Hn; lia).
  rewrite slice_prefix. unfold reshape2.
  rewrite length_flatten, Hn, Nat.eqb_refl, pairs_flatten.
  cbn [nparameter set_center].
  assert (Hlong : (nparameter self <?
                   List.length (flatten (center self) ++ atleast_1d (length self)
                                ++ atleast_1d (speed self) ++ width self))%nat = true).
  { apply Nat.ltb_lt. rewrite length_app, length_flatten, Hp, Hn, Hl.
    simpl. lia. }
  rewrite Hlong. repeat split.
Qed.

End ModelFacts.

Lemma three_point_worm_init :
  WormModel.init (WormModel.CenterArray [(0, 0); (1, 0); (2, 0)])
    (WormModel.WidthArray [1; 2; 1]) (75, 75) 50 21 = Ok three_point_worm.
Proof. reflexivity. Qed.

(** C2, on the code: the full parameter vector of a three-point worm has
    the documented layout, but handing it back to [set_parameter] raises
    AttributeError, after length and speed were replaced by one-element
    arrays; set after get is not the identity. *)
Theorem set_parameter_after_get_raises :
  WormModel.get_parameter true three_point_worm
    = [0; 0; 1; 0; 2; 0; 50; 0; 1; 2; 1] /\
  WormModel.set_parameter (WormModel.get_parameter true three_point_worm)
    three_point_worm
    = (Raise AttributeError,
       WormModel.set_speed (WormModel.Array [0])
         (WormModel.set_length (WormModel.Array [50]) three_point_worm)).
Proof. split; reflexivity. Qed.




(** ** Indexing, slices and elementwise operations *)

Lemma getitem_in_range {A : Type} (l : list A) (i : Z) :
  (0 <= i < Z.of_nat (length l))%Z ->
  exists a, getitem l i = Ok a /\ nth_error l (Z.to_nat i) = Some a.
Proof.
  intros Hi. unfold getitem, norm_index.
  destruct (i <? 0)%Z eqn:E; [apply Z.ltb_lt in E; lia |].
  destruct (0 <=? i)%Z eqn:E0; [| apply Z.leb_gt in E0; lia].
  destruct (i <? Z.of_nat (length l))%Z eqn:E1; [| apply Z.ltb_ge in E1; lia].
  simpl. destruct (nth_error l (Z.to_nat i)) as [a |] eqn:En.
  - now exists a.
  - apply nth_error_None in En. lia.
Qed.

Lemma getitem_last {A : Type} (l : list A) (a : A) :
  getitem (l ++ [a]) (-1)%Z = Ok a.
Proof.
  unfold getitem, norm_index. rewrite length_app, Nat2Z.inj_add. simpl length.
  change (-1 <? 0)%Z with true. cbv iota.
  replace (-1 + (Z.of_nat (length l) + Z.of_nat 1))%Z with (Z.of_nat (length l)) by lia.
  destruct (0 <=? Z.of_nat (length l))%Z eqn:E0; [| apply Z.leb_gt in E0; lia].
  destruct (Z.of_nat (length l) <? Z.of_nat (length l) + Z.of_nat 1)%Z eqn:E1;
    [| apply Z.ltb_ge in E1; lia].
  simpl. rewrite Nat2Z.id, nth_error_app2, Nat.sub_diag by lia. reflexivity.
Qed.

Lemma slice_drop_last {A : Type} (l : list A) :
  slice l None (Some (-1)%Z) = removelast l.
Proof.
  unfold slice, clip_index, norm_index. change (-1 <? 0)%Z with true. cbv iota.
  simpl Z.to_nat at 1. rewrite skipn_O.
  replace (Z.to_nat (Z.max 0 (Z.min (Z.of_nat (length l)) (-1 + Z.of_nat (length l)))))
    with (length l - 1)%nat by lia.
  symmetry. destruct l as [| a l]; [reflexivity |].
  replace (length (a :: l) - 1)%nat with (length l) by (simpl; lia).
  revert a. induction l as [| b l IH]; intros a; [reflexivity |].
  change (removelast (a :: b :: l)) with (a :: removelast (b :: l)).
  rewrite IH. reflexivity.
Qed.

Lemma slice_drop_first {A : Type} (l : list A) :
  slice l (Some 1%Z) None = tl l.
Proof.
  unfold slice, clip_index, norm_index. change (1 <? 0)%Z with false. cbv iota.
  rewrite Nat2Z.id, firstn_all.
  destruct l as [| a l]; [reflexivity |].
  replace (Z.to_nat (Z.max 0 (Z.min (Z.of_nat (length (a :: l))) 1))) with 1%nat
    by (simpl length; lia).
  reflexivity.
Qed.

Lemma length_removelast {A : Type} (l : list A) :
  length (removelast l) = (length l - 1)%nat.
Proof.
  induction l as [| a l IH]; [reflexivity |].
  destruct l as [| b l]; [reflexivity |].
  change (removelast (a :: b :: l)) with (a :: removelast (b :: l)).
  simpl length in *. rewrite IH. lia.
Qed.

Lemma length_tl {A : Type} (l : list A) : length (tl l) = (length l - 1)%nat.
Proof. destruct l; simpl; lia. Qed.

Lemma length_diff {A : Type} (sub : A -> A -> A) (l : list A) :
  length (diff sub l) = (length l - 1)%nat.
Proof.
  induction l as [| a l IH]; [reflexivity |].
  destruct l as [| b l]; [reflexivity |].
  change (diff sub (a :: b :: l)) with (sub b a :: diff sub (b :: l)).
  simpl length in *. rewrite IH. lia.
Qed.

Lemma broadcast_same_length {A : Type} (f : A -> A -> A) (a b : list A) :
  length a = length b ->
  broadcast f a b = Ok (map (fun ab => f (fst ab) (snd ab)) (combine a b)).
Proof.
  intros H. unfold broadcast. apply Nat.eqb_eq in H. now rewrite H.
Qed.

Lemma nth_error_zip {A B : Type} (f : A * A -> B) (a b : list A) (i : nat) (x y : A) :
  nth_error a i = Some x -> nth_error b i = Some y ->
  nth_error (map f (combine a b)) i = Some (f (x, y)).
Proof.
  revert b i. induction a as [| a0 a IH]; intros b i Ha Hb.
  - destruct i; discriminate.
  - destruct b as [| b0 b]; [destruct i; discriminate |].
    destruct i as [| i]; simpl in *.
    + now inversion Ha; inversion Hb.
    + now apply IH.
Qed.

Lemma length_zip {A B : Type} (f : A * A -> B) (a b : list A) :
  length a = length b -> length (map f (combine a b)) = length a.
Proof.
  intros H. rewrite length_map, length_combine, <- H. apply Nat.min_id.
Qed.

(** ** Angles *)

Lemma remainder_bounds (a b : R) : 0 < b -> 0 <= remainder a b < b.
Proof.
  intros Hb. unfold remainder.
  pose proof (base_fp (a / b)) as [H0 H1]. unfold frac_part in *.
  assert (Ha : a = a / b * b) by (field; lra).
  rewrite Ha at 1. rewrite Ha at 3.
  split; nra.
Qed.

Lemma wrap_bounds (a : R) : - PI <= Geometry.wrap a < PI.
Proof.
  unfold Geometry.wrap.
  pose proof PI_RGT_0.
  pose proof (remainder_bounds (a + PI) (2 * PI)). lra.
Qed.

(** Wrapping changes an angle by a whole number of turns. *)
Lemma wrap_turns (a : R) : exists k : Z, Geometry.wrap a = a + 2 * IZR k * PI.
Proof.
  unfold Geometry.wrap, remainder.
  exists (- Int_part ((a + PI) / (2 * PI)))%Z. rewrite opp_IZR. ring.
Qed.

Lemma remainder_small (a b : R) : 0 <= a < b -> remainder a b = a.
Proof.
  intros [H0 H1]. unfold remainder.
  assert (Hb : 0 < b) by lra.
  assert (Hz : 0%Z = Int_part (a / b)).
  { apply Int_part_spec. simpl.
    assert (0 <= a / b) by (apply Rmult_le_pos; [lra | left; now apply Rinv_0_lt_compat]).
    assert (a / b < 1) by (apply Rmult_lt_reg_r with b; [lra | field_simplify; lra]).
    lra. }
  rewrite <- Hz. simpl. ring.
Qed.

Lemma remainder_full_turn (b : R) : 0 < b -> remainder b b = 0.
Proof.
  intros Hb. unfold remainder.
  assert (Hz : 1%Z = Int_part (b / b)).
  { apply Int_part_spec. replace (b / b) with 1 by (field; lra). simpl. lra. }
  rewrite <- Hz. simpl. ring.
Qed.

Lemma arctan2_up : Np.arctan2 1 0 = PI / 2.
Proof.
  unfold arctan2.
  destruct (Rlt_dec 0 0) as [H | _]; [lra |].
  destruct (Rlt_dec 0 1) as [_ | H]; [reflexivity | lra].
Qed.

Lemma arctan2_down : Np.arctan2 (-1) 0 = - (PI / 2).
Proof.
  unfold arctan2.
  destruct (Rlt_dec 0 0) as [H | _]; [lra |].
  destruct (Rlt_dec 0 (-1)) as [H | _]; [lra |].
  destruct (Rlt_dec (-1) 0) as [_ | H]; [reflexivity | lra].
Qed.

Lemma arctan2_right : Np.arctan2 0 1 = 0.
Proof.
  unfold arctan2.
  destruct (Rlt_dec 0 1) as [_ | H]; [| lra].
  replace (0 / 1) with 0 by field. apply atan_0.
Qed.

(** ** Theta of a center line *)

Section ThetaFacts.

Variable resample_curve : list point -> Z -> option R -> list point.
Variable resample_curve1d : list R -> Z -> option R -> list R.

(** With the default [npoints] and [nsamples] nothing is resampled; the
    result is spelled out on a center line of at least two points. *)
Lemma theta_from_center_discrete_default (center : list point) (smooth : R) :
  (2 <= length center)%nat ->
  exists t1 xy,
    getitem (diff psub center) ((Geometry.len center - 1) / 2)%Z = Ok t1 /\
    getitem center ((Geometry.len center - 1) / 2)%Z = Ok xy /\
    Geometry.theta_from_center_discrete resample_curve resample_curve1d
      center None None false smooth =
      Ok (map (fun a => a * IZR (Geometry.len center - 1))
            (map Geometry.wrap
               (sub_arrays (Geometry.arctan2_rows (removelast (diff psub center)))
                           (Geometry.arctan2_rows (tl (diff psub center))))),
          Geometry.wrap (arctan2 1 0 - arctan2 (fst t1) (snd t1)),
          xy,
          sum (norm_axis1 (diff psub center))).
Proof.
  intros Hn.
  assert (Hdiv : (0 <= (Geometry.len center - 1) / 2 < Geometry.len center - 1)%Z).
  { unfold Geometry.len. split.
    - apply Z.div_pos; lia.
    - apply Z.div_lt_upper_bound; lia. }
  destruct (getitem_in_range (diff psub center) ((Geometry.len center - 1) / 2)%Z)
    as [t1 [Ht1 _]].
  { rewrite length_diff. unfold Geometry.len in *. lia. }
  destruct (getitem_in_range center ((Geometry.len center - 1) / 2)%Z)
    as [xy [Hxy _]].
  { unfold Geometry.len in *. lia. }
  exists t1, xy. split; [exact Ht1 | split; [exact Hxy |]].
  unfold Geometry.theta_from_center_discrete.
  cbn [Geometry.default]. rewrite Z.eqb_refl. cbn [negb orb].
  rewrite Ht1. cbn [bind]. rewrite Hxy. cbn [bind fst snd].
  rewrite slice_drop_last, slice_drop_first. reflexivity.
Qed.

End ThetaFacts.

(** C8, as the code has it: on a center line of N >= 2 points and with the
    default arguments, [theta_from_center_discrete] returns N-2 values of
    theta, each of them N-1 times an angle in [-PI, PI], and an orientation
    in [-PI, PI]. *)
Theorem theta_from_center_discrete_ranges
    (resample_curve : list point -> Z -> option R -> list point)
    (resample_curve1d : list R -> Z -> option R -> list R)
    (center : list point) (smooth : R) :
  (2 <= length center)%nat ->
  exists theta orientation xy l,
    Geometry.theta_from_center_discrete resample_curve resample_curve1d
      center None None false smooth = Ok (theta, orientation, xy, l) /\
    length theta = (length center - 2)%nat /\
    (forall t, In t theta ->
       exists a, t = a * INR (length center - 1) /\ - PI <= a <= PI) /\
    - PI <= orientation <= PI.
Proof.
  intros Hn.
  destruct (theta_from_center_discrete_default resample_curve resample_curve1d
              center smooth Hn) as [t1 [xy [_ [_ Heq]]]].
  eexists _, _, _, _. split; [exact Heq |]. split; [| split].
  - rewrite !length_map. unfold sub_arrays, Geometry.arctan2_rows.
    rewrite length_map, length_combine, !length_map,
      length_removelast, length_tl, length_diff. lia.
  - intros t Ht. apply in_map_iff in Ht. destruct Ht as [a [Ha Hin]].
    apply in_map_iff in Hin. destruct Hin as [b [Hb _]].
    exists a. split.
    + rewrite <- Ha. f_equal. unfold Geometry.len.
      rewrite INR_IZR_INZ. f_equal. lia.
    + rewrite <- Hb. pose proof (wrap_bounds b). lra.
  - match goal with
    | |- _ <= Geometry.wrap ?a <= _ => pose proof (wrap_bounds a); lra
    end.
Qed.

Lemma theta_from_center_discrete_ranges_witness :
  exists theta orientation xy l,
    Geometry.theta_from_center_discrete (fun c _ _ => c) (fun a _ _ => a)
      [(0, 0); (1, 0); (1, 1); (2, 1)] None None false 0
      = Ok (theta, orientation, xy, l) /\
    length theta = 2%nat /\
    (forall t, In t theta -> exists a, t = a * INR 3 /\ - PI <= a <= PI) /\
    - PI <= orientation <= PI.
Proof.
  apply (theta_from_center_discrete_ranges (fun c _ _ => c) (fun a _ _ => a)
           [(0, 0); (1, 0); (1, 1); (2, 1)] 0).
  simpl. lia.
Defined.

(** The first theta of a center line that turns left by a quarter turn
    between its first two of three segments is 3 PI / 2. *)
Lemma theta_quarter_turn :
  exists theta orientation xy l,
    Geometry.theta_from_center_discrete (fun c _ _ => c) (fun a _ _ => a)
      [(0, 0); (1, 0); (1, 1); (2, 1)] None None false 0
      = Ok (theta, orientation, xy, l) /\
    nth_error theta 0 = Some (3 * PI / 2).
Proof.
  eexists _, _, _, _. split; [reflexivity |].
  cbn [nth_error map sub_arrays combine Geometry.arctan2_rows diff slice
       removelast tl fst snd psub].
  simpl. f_equal.
  replace (0 - 0) with 0 by ring. replace (1 - 0) with 1 by ring.
  replace (1 - 1) with 0 by ring.
  rewrite arctan2_right, arctan2_up. unfold Geometry.wrap.
  rewrite remainder_small.
  - unfold Geometry.len. simpl. lra.
  - pose proof PI_RGT_0. lra.
Qed.

(** C8 as stated fails: theta is not confined to (-PI, PI].  On the
    four-point center line (0,0), (1,0), (1,1), (2,1) the first theta is
    3 PI / 2. *)
Lemma theta_not_within_half_turn :
  ~ (forall (center : list point) theta orientation xy l,
       Geometry.theta_from_center_discrete (fun c _ _ => c) (fun a _ _ => a)
         center None None false 0 = Ok (theta, orientation, xy, l) ->
       length theta = (length center - 2)%nat /\
       (forall t, In t theta -> - PI < t <= PI) /\
       - PI < orientation <= PI).
Proof.
  intros H.
  destruct theta_quarter_turn as [theta [o [xy [l [Heq Hnth]]]]].
  destruct (H _ _ _ _ _ Heq) as [_ [Hrange _]].
  apply nth_error_In in Hnth. apply Hrange in Hnth.
  pose proof PI_RGT_0. lra.
Qed.

(** The orientation of a center line whose middle segment points along the
    negative x axis is -PI, the closed end of the interval. *)
Lemma orientation_minus_pi :
  exists theta orientation xy l,
    Geometry.theta_from_center_discrete (fun c _ _ => c) (fun a _ _ => a)
      [(1, 0); (0, 0)] None None false 0 = Ok (theta, orientation, xy, l) /\
    orientation = - PI.
Proof.
  eexists _, _, _, _. split; [reflexivity |].
  cbn [fst snd psub].
  replace (0 - 1) with (-1) by ring. replace (0 - 0) with 0 by ring.
  rewrite arctan2_up, arctan2_down. unfold Geometry.wrap.
  replace (PI / 2 - - (PI / 2) + PI) with (2 * PI) by field.
  rewrite remainder_full_turn; [ring | pose proof PI_RGT_0; lra].
Qed.

(** ** Sides from a center line *)

(** C3: with supplied normals of as many vectors as the center line has
    points, the sides are the center line offset by half the width along
    the normal, point by point; the width used is the given one when it
    has as many values as the center line, and the one resampled to that
    number of points otherwise. *)
Theorem shape_from_center_discrete_offsets
    (resample_curve : list point -> Z -> option R -> list point)
    (resample_curve1d : list R -> Z -> option R -> list R)
    (center : list point) (width : list R) (normals : list point)
    (with_normals : bool) (w : list R) :
  w = (if (length width =? length center)%nat then width
       else resample_curve1d width (Z.of_nat (length center)) None) ->
  length w = length center ->
  length normals = length center ->
  exists left right,
    Geometry.shape_from_center_discrete resample_curve resample_curve1d
      center width (Some normals) with_normals
      = Ok (left, right, if with_normals then Some normals else None) /\
    length left = length center /\
    length right = length center /\
    forall i c wi n,
      nth_error center i = Some c ->
      nth_error w i = Some wi ->
      nth_error normals i = Some n ->
      nth_error left i
        = Some (fst c + 0.5 * wi * fst n, snd c + 0.5 * wi * snd n) /\
      nth_error right i
        = Some (fst c - 0.5 * wi * fst n, snd c - 0.5 * wi * snd n).
Proof.
  intros Hw Hlw Hln.
  unfold Geometry.shape_from_center_discrete, Geometry.len.
  replace (if negb (length width =? length center)%nat
           then resample_curve1d width (Z.of_nat (length center)) None
           else width) with w
    by (rewrite Hw; destruct (length width =? length center)%nat; reflexivity).
  cbn [bind].
  assert (Hhw : length (map (pscale 0.5) (combine w w)) = length normals).
  { rewrite length_map, length_combine, Nat.min_id. congruence. }
  rewrite (broadcast_same_length pmul _ _ Hhw). cbn [bind].
  set (hw := map (fun ab => pmul (fst ab) (snd ab))
               (combine (map (pscale 0.5) (combine w w)) normals)).
  assert (Hlhw : length hw = length center).
  { unfold hw. rewrite length_zip by exact Hhw.
    rewrite length_map, length_combine, Nat.min_id. exact Hlw. }
  rewrite (broadcast_same_length padd center hw (eq_sym Hlhw)). cbn [bind].
  rewrite (broadcast_same_length psub center hw (eq_sym Hlhw)). cbn [bind].
  eexists _, _. split; [destruct with_normals; reflexivity |].
  split; [apply length_zip; now symmetry |].
  split; [apply length_zip; now symmetry |].
  intros i c wi n Hc Hwi Hn.
  assert (Hhwi : nth_error hw i = Some (0.5 * wi * fst n, 0.5 * wi * snd n)).
  { unfold hw.
    rewrite (nth_error_zip _ _ _ i (0.5 * wi, 0.5 * wi) n); [reflexivity | | exact Hn].
    rewrite nth_error_map.
    assert (Hww : nth_error (combine w w) i = Some (wi, wi)).
    { clear - Hwi. revert i Hwi. induction w as [| a w' IH]; intros [| i] H;
        simpl in *; try discriminate.
      - now inversion H.
      - now apply IH. }
    rewrite Hww. reflexivity. }
  split.
  - rewrite (nth_error_zip _ _ _ i c _ Hc Hhwi). reflexivity.
  - rewrite (nth_error_zip _ _ _ i c _ Hc Hhwi). reflexivity.
Qed.

Lemma shape_from_center_discrete_offsets_witness :
  exists left right,
    Geometry.shape_from_center_discrete (fun c _ _ => c)
      pad_resample
      [(0, 0); (1, 0)] [2; 4; 6] (Some [(0, 1); (0, 1)]) false
      = Ok (left, right, None) /\
    length left = 2%nat /\
    length right = 2%nat /\
    forall i c wi n,
      nth_error [(0, 0); (1, 0)] i = Some c ->
      nth_error [2; 4] i = Some wi ->
      nth_error [(0, 1); (0, 1)] i = Some n ->
      nth_error left i
        = Some (fst c + 0.5 * wi * fst n, snd c + 0.5 * wi * snd n) /\
      nth_error right i
        = Some (fst c - 0.5 * wi * fst n, snd c - 0.5 * wi * snd n).
Proof.
  apply (shape_from_center_discrete_offsets (fun c _ _ => c)
           pad_resample
           [(0, 0); (1, 0)] [2; 4; 6] [(0, 1); (0, 1)] false [2; 4]);
    reflexivity.
Defined.

(** ** Center line as the mean of the sides *)

(** For sides of equal length nothing is resampled, and the width that
    [center_from_sides_mean] returns has two entries, one per coordinate
    column, whatever the number of points. *)
Lemma center_from_sides_mean_width_shape
    (resample_curve : list point -> Z -> option R -> list point)
    (left right : list point) :
  length left = length right ->
  exists center width,
    Geometry.center_from_sides_mean resample_curve left right None None false true
      = Ok (center, Some width) /\
    length center = length left /\
    length width = 2%nat.
Proof.
  intros H. unfold Geometry.center_from_sides_mean, Geometry.len.
  cbn [Geometry.default]. rewrite <- H, Z.max_id, !Z.eqb_refl. cbn [negb orb].
  rewrite !(broadcast_same_length _ _ _ H). cbn [bind].
  eexists _, _. split; [reflexivity |].
  split; [| reflexivity].
  rewrite length_map. now apply length_zip.
Qed.

(** C6, on the code: for two three-point sides one unit apart the call
    returns normally, but the width has two entries for a center line of
    three points, and they are the column norms 0 and sqrt 3 instead of the
    three point distances 1, 1, 1. *)
Theorem center_from_sides_mean_width_columns
    (resample_curve : list point -> Z -> option R -> list point) :
  exists center,
    Geometry.center_from_sides_mean resample_curve
      [(0, 1); (1, 1); (2, 1)] [(0, 0); (1, 0); (2, 0)] None None false true
      = Ok (center, Some [0; sqrt 3]) /\
    length center = 3%nat.
Proof.
  eexists. split.
  - unfold Geometry.center_from_sides_mean. simpl.
    unfold norm_axis0, psub, sum. simpl.
    replace (0 - 0) with 0 by ring. replace (1 - 1) with 0 by ring.
    replace (2 - 2) with 0 by ring. replace (1 - 0) with 1 by ring.
    replace (0 * 0 + (0 * 0 + (0 * 0 + 0))) with 0 by ring.
    replace (1 * 1 + (1 * 1 + (1 * 1 + 0))) with 3 by ring.
    rewrite sqrt_0. reflexivity.
  - reflexivity.
Qed.

(** ** Shape from an image *)

(** C4, on the code: when the contour tracer finds nothing at the initial
    level and nothing at the reduced level (or no reduction is asked for),
    [shape_from_image] does not return status -1 with zero-filled arrays:
    building the last of them raises TypeError. *)
Theorem shape_from_image_no_contour_raises
    (resample_curve : list point -> Z -> option R -> list point)
    (resample_curve1d : list R -> Z -> option R -> list R)
    (project : list point -> point -> R)
    (interpolate : list point -> R -> point)
    (image : Type) (image_shape : image -> point)
    (gaussian_filter : image -> R -> image)
    (threshold_otsu : image -> R)
    (detect_contour : image -> R -> list (list point) * list (Z * Z * Z * Z))
    (contourArea : list point -> R)
    (cv2_moments : list point -> Geometry.moments)
    (matchShapes : list point -> list point -> R)
    (spline : Type)
    (splprep : list point -> R -> spline * list R)
    (splev : list R -> spline -> nat -> list R * list R)
    (find_peaks : list R -> R -> list Z * list R)
    (argsort : list R -> list Z)
    (img : image) (sigma absolute_threshold : option R) (threshold_factor : R)
    (ncontour : nat) (delta smooth_head_tail : R) (smooth_left_right : option R)
    (smooth_center : R) (npoints : nat) (center_offset : Z)
    (threshold_reduce : option R)
    (contour_hint : option (list point)) (size_hint : option R)
    (delta_reduce : option R) (head_tail_hint : option (point * point))
    (imgs : image) (level : R) :
  imgs = match sigma with Some s => gaussian_filter img s | None => img end ->
  level = match absolute_threshold with
          | Some t => t
          | None => threshold_factor * threshold_otsu imgs
          end ->
  fst (detect_contour imgs level) = [] ->
  (forall r, threshold_reduce = Some r ->
             fst (detect_contour imgs (r * level)) = []) ->
  Geometry.shape_from_image resample_curve resample_curve1d project interpolate
    image image_shape gaussian_filter threshold_otsu detect_contour contourArea
    cv2_moments matchShapes spline splprep splev find_peaks argsort
    img sigma absolute_threshold threshold_factor ncontour delta
    smooth_head_tail smooth_left_right smooth_center npoints center_offset
    threshold_reduce contour_hint size_hint delta_reduce head_tail_hint
  = Raise TypeError.
Proof.
  intros Himgs Hlevel Hfirst Hsecond.
  unfold Geometry.shape_from_image. rewrite <- Himgs, <- Hlevel.
  destruct (detect_contour imgs level) as [pts hrchy] eqn:E1.
  simpl in Hfirst. subst pts. cbn [Geometry.len length Z.of_nat Z.eqb].
  destruct threshold_reduce as [r |].
  - specialize (Hsecond r eq_refl).
    destruct (detect_contour imgs (r * level)) as [pts' hrchy'].
    simpl in Hsecond. subst pts'. reflexivity.
  - reflexivity.
Qed.

Lemma shape_from_image_no_contour_raises_witness :
  Geometry.shape_from_image pad_resample2 pad_resample
    (fun _ _ => 0) (fun _ _ => (0, 0))
    R (fun _ => (151, 151)) (fun img _ => img) (fun img => img)
    blank_detect_contour (fun _ => 0)
    (fun _ => Geometry.Build_moments 0 0 0) (fun _ _ => 0)
    unit (fun _ _ => (tt, [])) (fun us _ _ => (us, us)) (fun _ _ => ([], []))
    insertion_argsort
    0 (Some 1) None 0.95 100 0.3 1 (Some 1) 10 21 3 (Some 0.9)
    None None (Some 0.5) None
  = Raise TypeError.
Proof.
  apply (shape_from_image_no_contour_raises pad_resample2 pad_resample
           (fun _ _ => 0) (fun _ _ => (0, 0))
           R (fun _ => (151, 151)) (fun img _ => img) (fun img => img)
           blank_detect_contour (fun _ => 0)
           (fun _ => Geometry.Build_moments 0 0 0) (fun _ _ => 0)
           unit (fun _ _ => (tt, [])) (fun us _ _ => (us, us))
           (fun _ _ => ([], [])) insertion_argsort
           0 (Some 1) None 0.95 100 0.3 1 (Some 1) 10 21 3 (Some 0.9)
           None None (Some 0.5) None 0 (0.95 * 0));
    reflexivity.
Defined.

(** ** Distance of a shape to a contour *)

Lemma norm_vertical (x y : R) : norm (x - x, y) = Rabs y.
Proof.
  unfold norm. cbn [fst snd].
  replace ((x - x) * (x - x) + y * y) with (Rsqr y) by (unfold Rsqr; ring).
  apply sqrt_Rsqr_abs.
Qed.

Lemma getitem_nonneg {A : Type} (l : list A) (i : Z) (a : A) :
  (0 <= i)%Z -> nth_error l (Z.to_nat i) = Some a -> getitem l i = Ok a.
Proof.
  intros Hi Hn.
  assert (Hlt : (Z.to_nat i < length l)%nat)
    by (apply nth_error_Some; rewrite Hn; discriminate).
  destruct (getitem_in_range l i) as [b [Hb Hnb]]; [lia |].
  rewrite Hb. congruence.
Qed.

Lemma getitem_negative {A : Type} (l : list A) (i : Z) (a : A) :
  (i < 0)%Z -> (0 <= i + Z.of_nat (length l))%Z ->
  nth_error l (Z.to_nat (i + Z.of_nat (length l))) = Some a ->
  getitem l i = Ok a.
Proof.
  intros Hi H0 Hn.
  assert (Hlt : (Z.to_nat (i + Z.of_nat (length l)) < length l)%nat)
    by (apply nth_error_Some; rewrite Hn; discriminate).
  unfold getitem, norm_index.
  destruct (i <? 0)%Z eqn:E; [| apply Z.ltb_ge in E; lia].
  destruct (0 <=? i + Z.of_nat (length l))%Z eqn:E0; [| apply Z.leb_gt in E0; lia].
  destruct (i + Z.of_nat (length l) <? Z.of_nat (length l))%Z eqn:E1;
    [| apply Z.ltb_ge in E1; lia].
  simpl. now rewrite Hn.
Qed.

Lemma setitem_nonneg {A : Type} (l : list A) (i : Z) (v : A) :
  (0 <= i < Z.of_nat (length l))%Z ->
  setitem l i v = Ok (firstn (Z.to_nat i) l ++ v :: skipn (S (Z.to_nat i)) l).
Proof.
  intros Hi. unfold setitem, norm_index.
  destruct (i <? 0)%Z eqn:E; [apply Z.ltb_lt in E; lia |].
  destruct (0 <=? i)%Z eqn:E0; [| apply Z.leb_gt in E0; lia].
  destruct (i <? Z.of_nat (length l))%Z eqn:E1; [| apply Z.ltb_ge in E1; lia].
  reflexivity.
Qed.

(** The head is farther from the hint point that both ends are nearest to:
    the head is moved to the other hint point, but keeps the distance to
    the first one. *)
Lemma match_ends_head_farther :
  Geometry.match_ends [(0, 0); (0, 3)] [(0, 2); (0, -10)]
  = Ok (Num 2, Some 1%Z, Num 1, Some 0%Z).
Proof.
  unfold Geometry.match_ends, Geometry.len. cbn [length map norm_axis1].
  change (0 <? Z.of_nat 2)%Z with true. cbv iota.
  rewrite (getitem_nonneg _ 0 (0, 0)) by (try lia; reflexivity). cbn [bind].
  rewrite (getitem_negative _ (-1) (0, 3)) by (simpl; try lia; reflexivity).
  cbn [bind]. unfold psub. cbn [fst snd].
  rewrite !norm_vertical.
  replace (Rabs (0 - 2)) with 2 by (unfold Rabs; decide_reals).
  replace (Rabs (0 - -10)) with 10 by (unfold Rabs; decide_reals).
  replace (Rabs (3 - 2)) with 1 by (unfold Rabs; decide_reals).
  replace (Rabs (3 - -10)) with 13 by (unfold Rabs; decide_reals).
  unfold argmin, argmin_by. cbn [argmin_from]. unfold Rltb.
  decide_reals. cbn [bind].
  rewrite (getitem_nonneg [2; 10] 0 2) by (try lia; reflexivity). cbn [bind].
  rewrite (getitem_nonneg [1; 13] 0 1) by (try lia; reflexivity). cbn [bind].
  change (0 =? 0)%Z with true. cbv iota.
  decide_reals.
  change (Z.of_nat 2 <=? 1)%Z with false. cbv iota.
  unfold amax. cbn [fold_left bind].
  replace (Rmax 2 10) with 10 by (unfold Rmax; decide_reals).
  rewrite setitem_nonneg by (simpl; lia).
  cbn [bind Z.to_nat firstn skipn app argmin_from].
  decide_reals. cbn [bind].
  rewrite (getitem_nonneg [1; 13] 1 13) by (try lia; reflexivity).
  reflexivity.
Qed.

(** C7, on the code: a two-point shape with head (0,0) and tail (0,3) and
    the hint points (0,2) and (0,-10).  Both ends are nearest to the first
    hint point, the head at distance 2 and the tail at distance 1, so the
    head is moved to the second hint point, which is at distance 10; the
    distance returned for the head is still 2. *)
Theorem distance_head_keeps_first_distance
    (Curve : Type) (Curve_from_points : list point -> Curve)
    (intersections :
       Curve -> list point -> list point * list Z * list Z * list R * list R)
    (normals_at : Curve -> list R -> list point)
    (contour : list point + Curve) :
  Geometry.distance_shape_to_contour_discrete Curve Curve_from_points
    intersections normals_at
    [(0, 0); (0, 3)] [(1, 0); (1, 3)] [(1, 0); (1, 0)] contour [10; 20] None
    (Some [(0, 2); (0, -10)])
  = Ok (Geometry.Build_distances [] [] [] []
          (Some (Num 2, Some 1%Z, Num 1, Some 0%Z))).
Proof.
  unfold Geometry.distance_shape_to_contour_discrete.
  rewrite match_ends_head_farther. reflexivity.
Qed.

(** The tail is farther: it is moved to the other hint point and is given
    the distance to that point. *)
Lemma match_ends_tail_farther :
  Geometry.match_ends [(0, 3); (0, 0)] [(0, 2); (0, -10)]
  = Ok (Num 1, Some 0%Z, Num 10, Some 1%Z).
Proof.
  unfold Geometry.match_ends, Geometry.len. cbn [length map norm_axis1].
  change (0 <? Z.of_nat 2)%Z with true. cbv iota.
  rewrite (getitem_nonneg _ 0 (0, 3)) by (try lia; reflexivity). cbn [bind].
  rewrite (getitem_negative _ (-1) (0, 0)) by (simpl; try lia; reflexivity).
  cbn [bind]. unfold psub. cbn [fst snd].
  rewrite !norm_vertical.
  replace (Rabs (0 - 2)) with 2 by (unfold Rabs; decide_reals).
  replace (Rabs (0 - -10)) with 10 by (unfold Rabs; decide_reals).
  replace (Rabs (3 - 2)) with 1 by (unfold Rabs; decide_reals).
  replace (Rabs (3 - -10)) with 13 by (unfold Rabs; decide_reals).
  unfold argmin, argmin_by. cbn [argmin_from]. unfold Rltb.
  decide_reals. cbn [bind].
  rewrite (getitem_nonneg [1; 13] 0 1) by (try lia; reflexivity). cbn [bind].
  rewrite (getitem_nonneg [2; 10] 0 2) by (try lia; reflexivity). cbn [bind].
  change (0 =? 0)%Z with true. cbv iota.
  decide_reals.
  change (Z.of_nat 2 <=? 1)%Z with false. cbv iota.
  unfold amax. cbn [fold_left bind].
  replace (Rmax 2 10) with 10 by (unfold Rmax; decide_reals).
  rewrite setitem_nonneg by (simpl; lia).
  cbn [bind Z.to_nat firstn skipn app argmin_from].
  decide_reals. cbn [bind].
  rewrite (getitem_nonneg [10 + 1; 10] 1 10) by (try lia; reflexivity).
  reflexivity.
Qed.

(** With a single hint point the farther end is returned unmatched. *)
Lemma match_ends_single_hint :
  Geometry.match_ends [(0, 0); (0, 3)] [(0, 2)]
  = Ok (NaN, None, Num 1, Some 0%Z).
Proof.
  unfold Geometry.match_ends, Geometry.len. cbn [length map norm_axis1].
  change (0 <? Z.of_nat 1)%Z with true. cbv iota.
  rewrite (getitem_nonneg _ 0 (0, 0)) by (try lia; reflexivity). cbn [bind].
  rewrite (getitem_negative _ (-1) (0, 3)) by (simpl; try lia; reflexivity).
  cbn [bind]. unfold psub. cbn [fst snd].
  rewrite !norm_vertical.
  replace (Rabs (0 - 2)) with 2 by (unfold Rabs; decide_reals).
  replace (Rabs (3 - 2)) with 1 by (unfold Rabs; decide_reals).
  unfold argmin, argmin_by. cbn [argmin_from bind].
  rewrite (getitem_nonneg [2] 0 2) by (try lia; reflexivity). cbn [bind].
  rewrite (getitem_nonneg [1] 0 1) by (try lia; reflexivity). cbn [bind].
  change (0 =? 0)%Z with true. cbv iota.
  decide_reals. reflexivity.
Qed.

(** ** Sorting the peaks *)

Lemma insert_key_perm (x : R * Z) (l : list (R * Z)) :
  Permutation (insert_key x l) (x :: l).
Proof.
  induction l as [| y t IH]; simpl; [reflexivity |].
  destruct (Rlt_dec (fst x) (fst y)); [reflexivity |].
  rewrite IH. apply perm_swap.
Qed.

Lemma insert_key_sorted (x : R * Z) (l : list (R * Z)) :
  StronglySorted key_le l -> StronglySorted key_le (insert_key x l).
Proof.
  induction 1 as [| y t Hs IH Hall]; simpl.
  - constructor; constructor.
  - destruct (Rlt_dec (fst x) (fst y)) as [Hlt | Hge].
    + constructor; [constructor; assumption |].
      constructor; [unfold key_le; lra |].
      eapply Forall_impl; [| exact Hall].
      unfold key_le. intros z Hz. lra.
    + constructor; [exact IH |].
      eapply Permutation_Forall; [symmetry; apply insert_key_perm |].
      constructor; [unfold key_le; lra | exact Hall].
Qed.

Lemma fold_insert_keys (l acc : list (R * Z)) :
  StronglySorted key_le acc ->
  StronglySorted key_le (fold_left (fun acc xi => insert_key xi acc) l acc) /\
  Permutation (fold_left (fun acc xi => insert_key xi acc) l acc) (l ++ acc).
Proof.
  revert acc. induction l as [| x l IH]; intros acc Hacc; simpl.
  - split; [exact Hacc | reflexivity].
  - destruct (IH (insert_key x acc) (insert_key_sorted x acc Hacc)) as [Hs Hp].
    split; [exact Hs |].
    rewrite Hp. rewrite insert_key_perm. symmetry. apply Permutation_middle.
Qed.

Lemma sort_keys_sorted (l : list (R * Z)) : StronglySorted key_le (sort_keys l).
Proof. apply fold_insert_keys. constructor. Qed.

Lemma sort_keys_perm (l : list (R * Z)) : Permutation (sort_keys l) l.
Proof.
  unfold sort_keys.
  destruct (fold_insert_keys l [] (SSorted_nil _)) as [_ Hp].
  now rewrite app_nil_r in Hp.
Qed.

Lemma in_enumerate_from {A : Type} (a : list A) (k : Z) (v : A) (i : Z) :
  In (v, i) (enumerate_from k a) <->
  (k <= i)%Z /\ nth_error a (Z.to_nat (i - k)) = Some v.
Proof.
  revert k. induction a as [| x a IH]; intros k; simpl.
  - split; [intros [] | intros [_ H]]. destruct (Z.to_nat (i - k)); discriminate.
  - rewrite IH. split.
    + intros [H | [Hk Hn]].
      * inversion H; subst. rewrite Z.sub_diag. simpl. split; [lia | reflexivity].
      * split; [lia |].
        replace (Z.to_nat (i - k)) with (S (Z.to_nat (i - (k + 1)))) by lia.
        exact Hn.
    + intros [Hk Hn].
      destruct (Z.eq_dec i k) as [-> | Hne].
      * left. rewrite Z.sub_diag in Hn. simpl in Hn. now inversion Hn.
      * right. split; [lia |].
        replace (Z.to_nat (i - k)) with (S (Z.to_nat (i - (k + 1)))) in Hn by lia.
        exact Hn.
Qed.

Lemma enumerate_from_indices {A : Type} (a : list A) (k : Z) :
  NoDup (map snd (enumerate_from k a)) /\
  forall i, In i (map snd (enumerate_from k a)) -> (k <= i)%Z.
Proof.
  revert k. induction a as [| x a IH]; intros k; simpl.
  - split; [constructor | intros i []].
  - destruct (IH (k + 1)%Z) as [Hnd Hge]. split.
    + constructor; [| exact Hnd]. intros Hin. apply Hge in Hin. lia.
    + intros i [<- | Hin]; [lia | apply Hge in Hin; lia].
Qed.

Lemma length_enumerate_from {A : Type} (a : list A) (k : Z) :
  length (enumerate_from k a) = length a.
Proof.
  revert k. induction a as [| x a IH]; intros k; simpl; [reflexivity |].
  now rewrite IH.
Qed.

(** A list of at least two entries ends in two entries. *)
Lemma last_two {A : Type} (l : list A) :
  (2 <= length l)%nat -> exists pre a b, l = pre ++ [a; b].
Proof.
  intros H.
  destruct (exists_last (l := l)) as [l1 [b Hb]];
    [intros ->; simpl in H; lia |].
  subst l. rewrite length_app in H. simpl in H.
  destruct (exists_last (l := l1)) as [pre [a Ha]];
    [intros ->; simpl in H; lia |].
  subst l1. exists pre, a, b. now rewrite <- app_assoc.
Qed.

Lemma slice_last_two {A : Type} (pre : list A) (a b : A) :
  slice (pre ++ [a; b]) (Some (-2)%Z) None = [a; b].
Proof.
  unfold slice, clip_index, norm_index. change (-2 <? 0)%Z with true. cbv iota.
  rewrite Nat2Z.id, firstn_all, length_app. simpl length.
  replace (Z.to_nat (Z.max 0 (Z.min (Z.of_nat (length pre + 2))
                                (-2 + Z.of_nat (length pre + 2)))))
    with (length pre + 0)%nat by lia.
  rewrite skipn_app, Nat.add_0_r, skipn_all, Nat.sub_diag. reflexivity.
Qed.

Lemma sorted_app_inv {A : Type} (le : A -> A -> Prop) (l1 l2 : list A) :
  StronglySorted le (l1 ++ l2) ->
  StronglySorted le l2 /\
  forall x y, In x l1 -> In y l2 -> le x y.
Proof.
  induction l1 as [| a l1 IH]; simpl; intros H.
  - split; [exact H | intros x y []].
  - inversion H as [| ? ? Hs Hall]; subst.
    destruct (IH Hs) as [H2 Hcross]. split; [exact H2 |].
    intros x y [<- | Hx] Hy.
    + rewrite Forall_forall in Hall. apply Hall. apply in_or_app. now right.
    + now apply Hcross.
Qed.

(** The last two of the sorting indices are two different positions, and
    no other position holds a larger value than either of them. *)
Lemma sorting_indices_last_two (a : list R) (s : list Z) :
  sorting_indices a s ->
  (2 <= length a)%nat ->
  exists (i j : nat) (vi vj : R),
    slice s (Some (-2)%Z) None = [Z.of_nat i; Z.of_nat j] /\
    i <> j /\
    nth_error a i = Some vi /\ nth_error a j = Some vj /\
    vi <= vj /\
    forall k vk, k <> i -> k <> j -> nth_error a k = Some vk -> vk <= vi.
Proof.
  intros [Hp Hs] Hlen.
  assert (Hls : length s = length a).
  { rewrite (Permutation_length Hp), length_map, length_seq. reflexivity. }
  destruct (last_two s) as [pre [zi [zj He]]]; [lia |]. subst s.
  assert (Hidx : forall z, In z (pre ++ [zi; zj]) ->
                           exists k v, z = Z.of_nat k /\ nth_error a k = Some v).
  { intros z Hz. eapply Permutation_in in Hz; [| exact Hp].
    apply in_map_iff in Hz. destruct Hz as [k [<- Hk]].
    apply in_seq in Hk.
    destruct (nth_error a k) as [v |] eqn:E;
      [| apply nth_error_None in E; lia].
    now exists k, v. }
  destruct (Hidx zi) as [i [vi [-> Hvi]]];
    [apply in_or_app; right; now left |].
  destruct (Hidx zj) as [j [vj [-> Hvj]]];
    [apply in_or_app; right; right; now left |].
  assert (Hnd : NoDup (pre ++ [Z.of_nat i; Z.of_nat j])).
  { eapply Permutation_NoDup; [symmetry; exact Hp |].
    apply Finite.Injective_map_NoDup; [| apply seq_NoDup].
    intros u v Huv. now apply Nat2Z.inj. }
  assert (Hij : i <> j).
  { apply NoDup_remove_2 in Hnd. intros ->. apply Hnd.
    apply in_or_app. right. now left. }
  rewrite map_app in Hs. cbn [map] in Hs. rewrite !Nat2Z.id in Hs.
  rewrite (nth_error_nth _ _ 0 Hvi), (nth_error_nth _ _ 0 Hvj) in Hs.
  apply sorted_app_inv in Hs. destruct Hs as [Htail Hcross].
  exists i, j, vi, vj. rewrite slice_last_two.
  repeat (split; [assumption || reflexivity |]). split.
  - inversion Htail as [| ? ? _ Hall]; subst.
    inversion Hall as [| ? ? Hle _]; subst. exact Hle.
  - intros k vk Hki Hkj Hk.
    assert (Hin : In (Z.of_nat k) (pre ++ [Z.of_nat i; Z.of_nat j])).
    { eapply Permutation_in; [symmetry; exact Hp |].
      apply in_map, in_seq.
      assert (k < length a)%nat
        by (apply nth_error_Some; rewrite Hk; discriminate).
      lia. }
    apply in_app_or in Hin. destruct Hin as [Hin | [Heq | [Heq | []]]];
      [| apply Nat2Z.inj in Heq; congruence
       | apply Nat2Z.inj in Heq; congruence].
    apply (Hcross vk vi); [| now left].
    apply in_map_iff. exists (Z.of_nat k). split; [| exact Hin].
    rewrite Nat2Z.id. now apply nth_error_nth.
Qed.

Lemma snd_enumerate_from {A : Type} (a : list A) (k : nat) :
  map snd (enumerate_from (Z.of_nat k) a) = map Z.of_nat (seq k (length a)).
Proof.
  revert k. induction a as [| x a IH]; intros k; [reflexivity |].
  cbn [enumerate_from map length seq snd]. f_equal.
  replace (Z.of_nat k + 1)%Z with (Z.of_nat (S k)) by lia. apply IH.
Qed.

Lemma sorted_keys_values (l : list (R * Z)) :
  StronglySorted key_le l -> StronglySorted Rle (map fst l).
Proof.
  induction 1 as [| x l _ IH Hall]; cbn [map]; constructor; [exact IH |].
  apply Forall_map. exact Hall.
Qed.

(** The insertion sort keeps what [np.argsort] promises. *)
Lemma insertion_argsort_sorting (a : list R) :
  sorting_indices a (insertion_argsort a).
Proof.
  unfold sorting_indices, insertion_argsort.
  pose proof (sort_keys_sorted (enumerate_from 0%Z a)) as Hs.
  pose proof (sort_keys_perm (enumerate_from 0%Z a)) as Hp.
  split.
  - rewrite (Permutation_map snd Hp).
    change 0%Z with (Z.of_nat 0). now rewrite snd_enumerate_from.
  - rewrite map_map.
    rewrite (map_ext_in _ fst); [now apply sorted_keys_values |].
    intros [v i] Hin. cbn [fst snd].
    eapply Permutation_in in Hin; [| exact Hp].
    apply in_enumerate_from in Hin. destruct Hin as [_ Hv].
    rewrite Z.sub_0_r in Hv. now apply nth_error_nth.
Qed.

(** [np.sort] of two indices. *)
Lemma sort_pair (a b : Z) : sort [a; b] = [Z.min a b; Z.max a b].
Proof.
  unfold sort. cbn [fold_right insert_int].
  destruct (a <=? b)%Z eqn:E.
  - apply Z.leb_le in E. now rewrite Z.min_l, Z.max_r by lia.
  - apply Z.leb_gt in E. now rewrite Z.min_r, Z.max_l by lia.
Qed.

(** ** Head and tail from the curvature peaks *)

(** C5: without a head/tail hint, the resolution of head and tail takes
    one of three branches.  With two or more peaks, the peaks at two
    different positions are chosen such that no other peak has a larger
    value than either, and 20 is added to the status; with the single peak
    [p] of a contour of [ncontour] samples, [p] and
    [(p + ncontour // 2) mod ncontour] are chosen and 40 is added; without
    peaks, 0 and [ncontour // 2] are chosen and 60 is added.  Of the two
    chosen indices the smaller is returned first.  Values are compared as
    they are, not by magnitude. *)
Theorem head_tail_without_hint (argsort : list R -> list Z)
    (x y : list R) (peak_ids : list Z)
    (peak_values : list R) (ncontour status : Z) :
  sorting_indices peak_values (argsort peak_values) ->
  length peak_values = length peak_ids ->
  (0 < ncontour)%Z ->
  ((2 <= length peak_ids)%nat ->
   exists (i j : nat) (pi pj : Z) (vi vj : R),
     i <> j /\
     nth_error peak_ids i = Some pi /\ nth_error peak_ids j = Some pj /\
     nth_error peak_values i = Some vi /\ nth_error peak_values j = Some vj /\
     (forall k vk, k <> i -> k <> j -> nth_error peak_values k = Some vk ->
                   vk <= vi /\ vk <= vj) /\
     Geometry.head_tail argsort x y peak_ids peak_values ncontour None status
       = Ok ([Z.min pi pj; Z.max pi pj], (status + 20)%Z)) /\
  (forall p, peak_ids = [p] -> (0 <= p < ncontour)%Z ->
     Geometry.head_tail argsort x y peak_ids peak_values ncontour None status
       = Ok ([Z.min p ((p + ncontour / 2) mod ncontour);
              Z.max p ((p + ncontour / 2) mod ncontour)], (status + 40)%Z)) /\
  (peak_ids = [] ->
     Geometry.head_tail argsort x y peak_ids peak_values ncontour None status
       = Ok ([0%Z; (ncontour / 2)%Z], (status + 60)%Z)).
Proof.
  intros Hsort Hlen Hn. split; [| split].
  - intros H2.
    destruct (sorting_indices_last_two peak_values _ Hsort)
      as [i [j [vi [vj H]]]]; [lia |].
    destruct H as [Hslice [Hij [Hvi [Hvj [Hle Hmax]]]]].
    assert (Hi : (i < length peak_ids)%nat)
      by (rewrite <- Hlen; apply nth_error_Some; rewrite Hvi; discriminate).
    assert (Hj : (j < length peak_ids)%nat)
      by (rewrite <- Hlen; apply nth_error_Some; rewrite Hvj; discriminate).
    destruct (nth_error peak_ids i) as [pi |] eqn:Hpi;
      [| apply nth_error_None in Hpi; lia].
    destruct (nth_error peak_ids j) as [pj |] eqn:Hpj;
      [| apply nth_error_None in Hpj; lia].
    exists i, j, pi, pj, vi, vj.
    repeat (split; [assumption || reflexivity |]).
    split.
    + intros k vk Hki Hkj Hk. specialize (Hmax k vk Hki Hkj Hk). lra.
    + unfold Geometry.head_tail, Geometry.len.
      destruct (2 <=? Z.of_nat (length peak_ids))%Z eqn:E;
        [| apply Z.leb_gt in E; lia].
      rewrite Hslice. unfold take. cbn [traverse].
      rewrite (getitem_nonneg peak_ids (Z.of_nat i) pi)
        by (try lia; now rewrite Nat2Z.id).
      rewrite (getitem_nonneg peak_ids (Z.of_nat j) pj)
        by (try lia; now rewrite Nat2Z.id).
      cbn [bind]. now rewrite sort_pair.
  - intros p -> Hp. unfold Geometry.head_tail, Geometry.len. cbn [length].
    change (2 <=? Z.of_nat 1)%Z with false.
    change (Z.of_nat 1 =? 1)%Z with true. cbv iota.
    rewrite (getitem_nonneg [p] 0 p) by (try lia; reflexivity). cbn [bind].
    rewrite Z.add_0_r, (Z.mod_small p ncontour) by lia.
    now rewrite sort_pair.
  - intros ->. reflexivity.
Qed.

Lemma head_tail_without_hint_witness :
  (exists (i j : nat) (pi pj : Z) (vi vj : R),
     i <> j /\
     nth_error [5; 20; 40]%Z i = Some pi /\ nth_error [5; 20; 40]%Z j = Some pj /\
     nth_error [1; 3; 2] i = Some vi /\ nth_error [1; 3; 2] j = Some vj /\
     (forall k vk, k <> i -> k <> j -> nth_error [1; 3; 2] k = Some vk ->
                   vk <= vi /\ vk <= vj) /\
     Geometry.head_tail insertion_argsort [] [] [5; 20; 40]%Z [1; 3; 2]
       100 None 1
       = Ok ([Z.min pi pj; Z.max pi pj], (1 + 20)%Z)) /\
  Geometry.head_tail insertion_argsort [] [] [70]%Z [1] 100 None 1
  = Ok ([Z.min 70 ((70 + 100 / 2) mod 100); Z.max 70 ((70 + 100 / 2) mod 100)],
        (1 + 40)%Z).
Proof.
  split.
  - apply (head_tail_without_hint insertion_argsort [] [] [5; 20; 40]%Z
             [1; 3; 2] 100 1).
    + apply insertion_argsort_sorting.
    + reflexivity.
    + lia.
    + simpl. lia.
  - apply (head_tail_without_hint insertion_argsort [] [] [70]%Z [1] 100 1).
    + apply insertion_argsort_sorting.
    + reflexivity.
    + lia.
    + reflexivity.
    + lia.
Defined.

(** The three branches on sample peaks. *)
Example head_tail_two_highest :
  Geometry.head_tail insertion_argsort [] [] [5; 20; 40]%Z [1; 3; 2] 100 None 1
  = Ok ([20; 40]%Z, 21%Z).
Proof.
  unfold Geometry.head_tail, insertion_argsort, sort_keys. simpl.
  decide_reals. simpl. decide_reals. reflexivity.
Qed.

Example head_tail_single_peak :
  Geometry.head_tail insertion_argsort [] [] [70]%Z [1] 100 None 1
  = Ok ([20; 70]%Z, 41%Z).
Proof. reflexivity. Qed.

Example head_tail_no_peak :
  Geometry.head_tail insertion_argsort [] [] [] [] 100 None 1
  = Ok ([0; 50]%Z, 61%Z).
Proof. reflexivity. Qed.

(** C5, the claim as it was worded: the peak at position 5 has the value
    -5, the highest magnitude of the three, and is not chosen; the peaks
    at 20 and 40 with the values 1 and 2 are. *)
Lemma head_tail_not_highest_magnitude :
  Geometry.head_tail insertion_argsort [] [] [5; 20; 40]%Z [-5; 1; 2]
    100 None 1
  = Ok ([20; 40]%Z, 21%Z) /\
  Rabs 1 < Rabs (-5) /\ Rabs 2 < Rabs (-5).
Proof.
  split.
  - unfold Geometry.head_tail, insertion_argsort, sort_keys. simpl.
    decide_reals. simpl. decide_reals. reflexivity.
  - unfold Rabs. decide_reals.
Qed.

(** ** Sine and cosine of [arctan2] *)

Lemma hypot_pos (x y : R) : (x <> 0 \/ y <> 0) -> 0 < sqrt (x * x + y * y).
Proof.
  intros H. apply sqrt_lt_R0.
  destruct H as [H | H]; nra.
Qed.

Lemma hypot_sqr (x y : R) :
  sqrt (x * x + y * y) * sqrt (x * x + y * y) = x * x + y * y.
Proof. apply sqrt_sqrt. nra. Qed.

Lemma sqrt_slope (x y : R) :
  x <> 0 -> sqrt (1 + (y / x)²) = sqrt (x * x + y * y) / Rabs x.
Proof.
  intros Hx.
  assert (Hax : 0 < Rabs x) by now apply Rabs_pos_lt.
  pose proof (hypot_pos x y (or_introl Hx)) as Hr.
  pose proof (hypot_sqr x y) as Hrr.
  apply sqrt_lem_1.
  - unfold Rsqr. nra.
  - apply Rlt_le. now apply Rdiv_lt_0_compat.
  - assert (Habs : Rabs x * Rabs x = x * x).
    { unfold Rabs. destruct (Rcase_abs x); ring. }
    replace (sqrt (x * x + y * y) / Rabs x * (sqrt (x * x + y * y) / Rabs x))
      with (sqrt (x * x + y * y) * sqrt (x * x + y * y) / (Rabs x * Rabs x))
      by (field; lra).
    rewrite Habs, Hrr. unfold Rsqr. field. lra.
Qed.

Lemma atan_slope (x y : R) :
  x <> 0 ->
  cos (atan (y / x)) = Rabs x / sqrt (x * x + y * y) /\
  sin (atan (y / x)) = y / x * (Rabs x / sqrt (x * x + y * y)).
Proof.
  intros Hx.
  assert (Hax : 0 < Rabs x) by now apply Rabs_pos_lt.
  pose proof (hypot_pos x y (or_introl Hx)) as Hr.
  rewrite cos_atan, sin_atan, (sqrt_slope x y Hx).
  split; field; lra.
Qed.

(** For a point (x, y) other than the origin, [arctan2 y x] is an angle
    of the direction of that point. *)
Lemma arctan2_direction (x y : R) :
  (x <> 0 \/ y <> 0) ->
  cos (arctan2 y x) = x / sqrt (x * x + y * y) /\
  sin (arctan2 y x) = y / sqrt (x * x + y * y).
Proof.
  intros Hxy. pose proof (hypot_pos x y Hxy) as Hr.
  unfold arctan2.
  destruct (Rlt_dec 0 x) as [Hpos | Hnpos].
  - destruct (atan_slope x y) as [Hc Hs]; [lra |].
    rewrite Hc, Hs, Rabs_right by lra. split; field; lra.
  - destruct (Rlt_dec x 0) as [Hneg | Hnneg].
    + destruct (atan_slope x y) as [Hc Hs]; [lra |].
      rewrite Rabs_left in Hc, Hs by lra.
      destruct (Rle_dec 0 y).
      * rewrite neg_cos, neg_sin, Hc, Hs. split; field; lra.
      * replace (atan (y / x) - PI) with (- (- atan (y / x) + PI)) by ring.
        rewrite cos_neg, sin_neg, neg_cos, neg_sin, cos_neg, sin_neg, Hc, Hs.
        split; field; lra.
    + assert (Hx : x = 0) by lra. subst x.
      assert (Hy : y <> 0) by (destruct Hxy; [lra | assumption]).
      replace (0 * 0 + y * y) with (Rsqr y) in * by (unfold Rsqr; ring).
      rewrite sqrt_Rsqr_abs in *.
      destruct (Rlt_dec 0 y).
      * rewrite cos_PI2, sin_PI2, Rabs_right by lra. split; field; lra.
      * destruct (Rlt_dec y 0); [| lra].
        rewrite cos_neg, sin_neg, cos_PI2, sin_PI2, Rabs_left by lra.
        split; field; lra.
Qed.

(** Cosine and sine do not see whole turns. *)
Lemma cos_turns (a : R) (k : Z) : cos (a + 2 * IZR k * PI) = cos a.
Proof.
  destruct (Z_le_gt_dec 0 k) as [Hk | Hk].
  - rewrite <- (Z2Nat.id k Hk), <- INR_IZR_INZ. apply cos_period.
  - rewrite <- (cos_period (a + 2 * IZR k * PI) (Z.to_nat (- k))).
    f_equal. rewrite INR_IZR_INZ, Z2Nat.id, opp_IZR by lia. ring.
Qed.

Lemma sin_turns (a : R) (k : Z) : sin (a + 2 * IZR k * PI) = sin a.
Proof.
  destruct (Z_le_gt_dec 0 k) as [Hk | Hk].
  - rewrite <- (Z2Nat.id k Hk), <- INR_IZR_INZ. apply sin_period.
  - rewrite <- (sin_period (a + 2 * IZR k * PI) (Z.to_nat (- k))).
    f_equal. rewrite INR_IZR_INZ, Z2Nat.id, opp_IZR by lia. ring.
Qed.

(** ** The round trip between a center line and its theta *)

Lemma same_angle_refl (a : R) : same_angle a a.
Proof. exists 0%Z. simpl. ring. Qed.

Lemma same_angle_add (s a t b : R) :
  same_angle s a -> same_angle t b -> same_angle (s + t) (a + b).
Proof.
  intros [k ->] [m ->]. exists (k + m)%Z. rewrite plus_IZR. ring.
Qed.

Lemma same_angle_sub (s a t b : R) :
  same_angle s a -> same_angle t b -> same_angle (s - t) (a - b).
Proof.
  intros [k ->] [m ->]. exists (k - m)%Z. rewrite minus_IZR. ring.
Qed.

Lemma same_angle_wrap (a : R) : same_angle (Geometry.wrap a) a.
Proof. apply wrap_turns. Qed.

Lemma same_angle_eq (s a b : R) : same_angle s a -> a = b -> same_angle s b.
Proof. now intros H <-. Qed.

Lemma sub_arrays_diff (a : list R) :
  sub_arrays (removelast a) (tl a) = diff (fun y x => x - y) a.
Proof.
  induction a as [| x a IH]; [reflexivity |].
  destruct a as [| y a]; [reflexivity |].
  change (removelast (x :: y :: a)) with (x :: removelast (y :: a)).
  change (diff (fun y x => x - y) (x :: y :: a))
    with ((x - y) :: diff (fun y x => x - y) (y :: a)).
  rewrite <- IH. reflexivity.
Qed.

Lemma map_removelast {A B : Type} (f : A -> B) (l : list A) :
  map f (removelast l) = removelast (map f l).
Proof.
  induction l as [| a l IH]; [reflexivity |].
  destruct l as [| b l]; [reflexivity |].
  change (removelast (a :: b :: l)) with (a :: removelast (b :: l)).
  change (map f (a :: removelast (b :: l)))
    with (f a :: map f (removelast (b :: l))).
  rewrite IH. reflexivity.
Qed.

Lemma map_tl {A B : Type} (f : A -> B) (l : list A) : map f (tl l) = tl (map f l).
Proof. destruct l; reflexivity. Qed.

Lemma cumsum_from_scale (c acc : R) (l : list R) :
  map (fun a => a * c) (cumsum_from acc l)
  = cumsum_from (acc * c) (map (fun a => a * c) l).
Proof.
  revert acc. induction l as [| x l IH]; intros acc; simpl; [reflexivity |].
  rewrite IH. replace ((acc + x) * c) with (acc * c + x * c) by ring.
  reflexivity.
Qed.

Lemma length_cumsum_from (acc : R) (l : list R) :
  length (cumsum_from acc l) = length l.
Proof.
  revert acc. induction l as [| x l IH]; intros acc; simpl; [reflexivity |].
  now rewrite IH.
Qed.

(** Summing the wrapped turns from the angle [a] on gives, up to whole
    turns, the angle turned since [a0]. *)
Lemma cumsum_turns (a0 a acc : R) (rest : list R) :
  same_angle acc (a0 - a) ->
  Forall2 (fun s b => same_angle s (a0 - b))
    (cumsum_from acc (map Geometry.wrap (diff (fun y x => x - y) (a :: rest))))
    rest.
Proof.
  revert a acc. induction rest as [| b rest IH]; intros a acc Hacc.
  - constructor.
  - change (diff (fun y x => x - y) (a :: b :: rest))
      with ((a - b) :: diff (fun y x => x - y) (b :: rest)).
    cbn [map cumsum_from].
    assert (H : same_angle (acc + Geometry.wrap (a - b)) (a0 - b)).
    { eapply same_angle_eq.
      - apply same_angle_add; [exact Hacc | apply same_angle_wrap].
      - ring. }
    constructor; [exact H | apply IH; exact H].
Qed.

Lemma Forall2_nth_error {A B : Type} (P : A -> B -> Prop)
    (l1 : list A) (l2 : list B) (i : nat) (x : A) (y : B) :
  Forall2 P l1 l2 -> nth_error l1 i = Some x -> nth_error l2 i = Some y -> P x y.
Proof.
  intros H. revert i. induction H as [| a b l1 l2 Hab _ IH]; intros i Hx Hy.
  - destruct i; discriminate.
  - destruct i as [| i]; simpl in *.
    + inversion Hx; inversion Hy; subst. exact Hab.
    + eapply IH; eassumption.
Qed.

Lemma getitem_map {A B : Type} (f : A -> B) (l : list A) (i : Z) (a : A) :
  getitem l i = Ok a -> getitem (map f l) i = Ok (f a).
Proof.
  unfold getitem. rewrite length_map.
  destruct (_ && _)%bool; [| discriminate].
  rewrite nth_error_map.
  destruct (nth_error l _); [| discriminate].
  intros H. inversion H. reflexivity.
Qed.

(** The direction of a segment of length [d] from the angle the program
    takes of it. *)
Lemma segment_direction (v : point) (d psi : R) :
  0 < d -> norm v = d ->
  same_angle psi (PI / 2 - arctan2 (fst v) (snd v)) ->
  cos psi = fst v / d /\ sin psi = snd v / d.
Proof.
  intros Hd Hnorm [k ->]. rewrite cos_turns, sin_turns, cos_shift, sin_shift.
  assert (Hne : snd v <> 0 \/ fst v <> 0).
  { destruct (Req_dec (snd v) 0) as [Hs |]; [| now left].
    destruct (Req_dec (fst v) 0) as [Hf |]; [| now right].
    exfalso. unfold norm in Hnorm. rewrite Hs, Hf in Hnorm.
    replace (0 * 0 + 0 * 0) with 0 in Hnorm by ring.
    rewrite sqrt_0 in Hnorm. lra. }
  destruct (arctan2_direction (snd v) (fst v) Hne) as [Hc Hs].
  unfold norm in Hnorm.
  rewrite (Rplus_comm (snd v * snd v)) in Hc, Hs. rewrite Hnorm in Hc, Hs.
  now split.
Qed.

Lemma directions_of_segments (d : R) (V : list point) (psi : list R) :
  0 < d -> Forall (fun v => norm v = d) V ->
  Forall2 (fun s b => same_angle s (PI / 2 - b)) psi (Geometry.arctan2_rows V) ->
  map cos psi = map (fun v => fst v / d) V /\
  map sin psi = map (fun v => snd v / d) V.
Proof.
  intros Hd HV. revert psi. induction HV as [| v V Hv _ IH]; intros psi H.
  - inversion H. split; reflexivity.
  - destruct psi as [| s psi']; [inversion H |].
    unfold Geometry.arctan2_rows in H. cbn [map] in H.
    apply Forall2_cons_iff in H. destruct H as [Hs Hrest].
    destruct (IH psi' Hrest) as [Hc Hsn].
    destruct (segment_direction v d s Hd Hv Hs) as [Hcv Hsv].
    cbn [map]. rewrite Hc, Hsn, Hcv, Hsv. split; reflexivity.
Qed.

(** Summing the segments of a curve from its first point on gives back the
    curve relative to that point. *)
Lemma cumsum_segments (d ax ay : R) (c : point) (t : list point) :
  d <> 0 ->
  map (pscale d)
    (combine (cumsum_from ax (map (fun v => fst v / d) (diff psub (c :: t))))
             (cumsum_from ay (map (fun v => snd v / d) (diff psub (c :: t)))))
  = map (fun p => (d * ax + (fst p - fst c), d * ay + (snd p - snd c))) t.
Proof.
  intros Hd. revert c ax ay. induction t as [| p t IH]; intros c ax ay.
  - reflexivity.
  - change (diff psub (c :: p :: t)) with (psub p c :: diff psub (p :: t)).
    cbn [map cumsum_from combine]. rewrite IH. f_equal.
    + unfold pscale, psub. cbn [fst snd]. f_equal; field; exact Hd.
    + apply map_ext. intros q. unfold psub. cbn [fst snd]. f_equal; field; exact Hd.
Qed.

Lemma sum_even_norms (d : R) (V : list point) :
  Forall (fun v => norm v = d) V -> sum (norm_axis1 V) = INR (length V) * d.
Proof.
  induction 1 as [| v V Hv _ IH].
  - simpl. ring.
  - unfold norm_axis1, sum in *. cbn [map fold_right length].
    rewrite IH, Hv, S_INR. ring.
Qed.

Section RoundTrip.

Variable resample_curve : list point -> Z -> option R -> list point.
Variable resample_curve1d : list R -> Z -> option R -> list R.

(** On a center line of at least two points, all of whose segments have
    the same positive length, the round trip is the identity. *)
Lemma roundtrip_discrete_even (center : list point) (d : R) :
  (2 <= length center)%nat -> 0 < d -> evenly_spaced d center ->
  roundtrip_discrete resample_curve resample_curve1d center = Ok center.
Proof.
  intros Hn Hd Hev.
  destruct (theta_from_center_discrete_default resample_curve resample_curve1d
              center 0 Hn) as [t1 [xy [Ht1 [Hxy Heq]]]].
  unfold roundtrip_discrete. rewrite Heq. cbn [bind]. clear Heq.
  unfold evenly_spaced in Hev.
  set (V := diff psub center) in *.
  unfold Geometry.arctan2_rows at 1 2.
  rewrite map_removelast, map_tl, sub_arrays_diff.
  fold (Geometry.arctan2_rows V).
  set (A := Geometry.arctan2_rows V).
  set (W := map Geometry.wrap (diff (fun y x => x - y) A)).
  assert (HlenV : length V = (length center - 1)%nat) by apply length_diff.
  assert (HlenA : length A = length V) by apply length_map.
  assert (HlenW : length W = (length center - 2)%nat).
  { unfold W. rewrite length_map, length_diff. lia. }
  set (theta := map (fun a => a * IZR (Geometry.len center - 1)) W).
  assert (Hnt : (Geometry.len theta + 2 = Geometry.len center)%Z).
  { unfold Geometry.len, theta. rewrite length_map, HlenW. lia. }
  unfold Geometry.center_from_theta_discrete, Geometry.integrate_theta.
  cbn [Geometry.default]. rewrite Hnt, Z.eqb_refl. cbn [negb orb].
  assert (Hm : IZR (Geometry.len center - 1) = INR (length V)).
  { rewrite INR_IZR_INZ, HlenV. f_equal. unfold Geometry.len. lia. }
  assert (Hmpos : 0 < INR (length V)).
  { apply lt_0_INR. lia. }
  destruct (Geometry.len center - 1 =? 0)%Z eqn:E;
    [apply Z.eqb_eq in E; unfold Geometry.len in E; lia | clear E].
  (* the integrated angle is the running sum of the wrapped turns *)
  assert (HS : map (fun a => a * (1 / IZR (Geometry.len center - 1)))
                 (cumsum (0 :: theta)) = cumsum (0 :: W)).
  { unfold cumsum. rewrite cumsum_from_scale. f_equal; [ring |].
    cbn [map]. f_equal; [ring |]. unfold theta. rewrite map_map.
    rewrite <- (map_id W) at 2. apply map_ext. intros a.
    rewrite Hm. field. lra. }
  rewrite HS. clear HS.
  set (S := cumsum (0 :: W)).
  destruct A as [| a0 rest] eqn:EA; [simpl in HlenA; lia |].
  assert (HSA : Forall2 (fun s b => same_angle s (a0 - b)) S (a0 :: rest)).
  { unfold S, cumsum. cbn [cumsum_from].
    assert (H0 : same_angle (0 + 0) (a0 - a0)).
    { eapply same_angle_eq; [apply same_angle_refl | ring]. }
    constructor; [exact H0 |]. unfold W. now apply cumsum_turns. }
  assert (Hn2 : (0 <= (Geometry.len center - 1) / 2 < Z.of_nat (length V))%Z).
  { unfold Geometry.len. rewrite HlenV. split.
    - apply Z.div_pos; lia.
    - apply Z.div_lt_upper_bound; lia. }
  destruct (getitem_in_range S ((Geometry.len center - 1) / 2)%Z)
    as [i2 [Hi2 Hi2n]].
  { rewrite (Forall2_length HSA), HlenA. exact Hn2. }
  destruct (getitem_in_range (a0 :: rest) ((Geometry.len center - 1) / 2)%Z)
    as [a2 [Ha2 Ha2n]].
  { rewrite HlenA. exact Hn2. }
  assert (Ha2' : a2 = arctan2 (fst t1) (snd t1)).
  { rewrite <- EA in Ha2. unfold A, Geometry.arctan2_rows in Ha2.
    rewrite (getitem_map _ _ _ _ Ht1) in Ha2. now inversion Ha2. }
  pose proof (Forall2_nth_error _ _ _ _ _ _ HSA Hi2n Ha2n) as Hi2a.
  rewrite Hi2. cbn [bind].
  set (o := Geometry.wrap (arctan2 1 0 - arctan2 (fst t1) (snd t1))).
  assert (Hpsi : Forall2 (fun s b => same_angle s (PI / 2 - b))
                   (map (fun a => a + (o - i2)) S) (a0 :: rest)).
  { clear - HSA Hi2a Ha2'. induction HSA as [| s b S' A' Hsb _ IH]; cbn [map].
    - constructor.
    - constructor; [| exact IH].
      eapply same_angle_eq.
      + apply same_angle_add; [exact Hsb |].
        apply same_angle_sub; [apply same_angle_wrap | exact Hi2a].
      + rewrite Ha2', arctan2_up. ring. }
  rewrite <- EA in Hpsi.
  destruct (directions_of_segments d V _ Hd Hev Hpsi) as [Hcos Hsin].
  rewrite Hcos, Hsin.
  replace (sum (norm_axis1 V) * (1 / IZR (Geometry.len center - 1))) with d
    by (rewrite (sum_even_norms d V Hev), Hm; field; lra).
  (* the running sum of the segments is the center line itself *)
  destruct center as [| c0 t]; [simpl in Hn; lia |].
  assert (Hcenter :
    map (pscale d)
      ((0, 0) :: combine (cumsum (map (fun v => fst v / d) V))
                         (cumsum (map (fun v => snd v / d) V)))
    = map (fun p => (fst p - fst c0, snd p - snd c0)) (c0 :: t)).
  { cbn [map]. unfold cumsum, V. rewrite cumsum_segments by lra. f_equal.
    - unfold pscale. cbn [fst snd]. f_equal; ring.
    - apply map_ext. intros p. f_equal; ring. }
  rewrite Hcenter.
  rewrite (getitem_map _ _ _ _ Hxy). cbn [bind].
  rewrite map_map. f_equal.
  rewrite <- (map_id (c0 :: t)) at 2. apply map_ext.
  intros [px py]. unfold padd, psub. cbn [fst snd]. f_equal; ring.
Qed.

End RoundTrip.

(** *** A center line with uneven spacing *)

Lemma arctan2_vertical (y : R) : 0 < y -> arctan2 y 0 = PI / 2.
Proof.
  intros Hy. unfold arctan2.
  destruct (Rlt_dec 0 0) as [H | _]; [lra |].
  destruct (Rlt_dec 0 y) as [_ | H]; [reflexivity | lra].
Qed.

Lemma norm_horizontal (x : R) : 0 <= x -> norm (x, 0) = x.
Proof.
  intros Hx. unfold norm. cbn [fst snd].
  replace (x * x + 0 * 0) with (x * x) by ring. now apply sqrt_square.
Qed.

Lemma wrap_0 : Geometry.wrap 0 = 0.
Proof.
  unfold Geometry.wrap. pose proof PI_RGT_0.
  rewrite remainder_small by lra. ring.
Qed.

Lemma diff_cons {A : Type} (sub : A -> A -> A) (a b : A) (t : list A) :
  diff sub (a :: b :: t) = sub b a :: diff sub (b :: t).
Proof. reflexivity. Qed.

Lemma diff_single {A : Type} (sub : A -> A -> A) (a : A) : diff sub [a] = [].
Proof. reflexivity. Qed.

Section Uneven.

Variable resample_curve : list point -> Z -> option R -> list point.
Variable resample_curve1d : list R -> Z -> option R -> list R.

Lemma uneven_theta :
  Geometry.theta_from_center_discrete resample_curve resample_curve1d
    [(0, 0); (1, 0); (3, 0); (4, 0); (5, 0)] None None false 0
  = Ok ([0; 0; 0], 0, (3, 0), 5).
Proof.
  destruct (theta_from_center_discrete_default resample_curve resample_curve1d
              [(0, 0); (1, 0); (3, 0); (4, 0); (5, 0)] 0)
    as [t1 [xy [Ht1 [Hxy Heq]]]]; [simpl; lia |].
  rewrite Heq. clear Heq.
  change ((Geometry.len [(0, 0); (1, 0); (3, 0); (4, 0); (5, 0)] - 1) / 2)%Z
    with 2%Z in Ht1, Hxy.
  change (Geometry.len [(0, 0); (1, 0); (3, 0); (4, 0); (5, 0)] - 1)%Z with 4%Z.
  rewrite !diff_cons, diff_single in *.
  rewrite (getitem_nonneg _ 2 (psub (4, 0) (3, 0))) in Ht1
    by (try lia; reflexivity).
  rewrite (getitem_nonneg _ 2 (3, 0)) in Hxy by (try lia; reflexivity).
  inversion Ht1. inversion Hxy. subst t1 xy. clear Ht1 Hxy.
  cbn [removelast tl Geometry.arctan2_rows map sub_arrays combine fst snd].
  unfold psub, norm_axis1, sum. cbn [fst snd map fold_right].
  replace (0 - 0) with 0 by ring. replace (1 - 0) with 1 by ring.
  replace (3 - 1) with 2 by ring. replace (4 - 3) with 1 by ring.
  replace (5 - 4) with 1 by ring.
  rewrite !norm_horizontal by lra.
  rewrite !arctan2_vertical by lra.
  replace (PI / 2 - PI / 2) with 0 by ring. rewrite wrap_0.
  repeat f_equal; ring.
Qed.

Lemma uneven_center :
  Geometry.center_from_theta_discrete resample_curve resample_curve1d
    [0; 0; 0] 0 (3, 0) 5 None None false 0 false
  = Ok ([(1 / 2, 0); (7 / 4, 0); (3, 0); (17 / 4, 0); (11 / 2, 0)], None).
Proof.
  unfold Geometry.center_from_theta_discrete, Geometry.integrate_theta,
    Geometry.len.
  cbn [Geometry.default length].
  change (Z.of_nat 3 + 2)%Z with 5%Z. change ((5 - 1) / 2)%Z with 2%Z.
  change (5 - 1)%Z with 4%Z.
  change (5 =? 5)%Z with true. change (4 =? 0)%Z with false. cbn [negb orb].
  unfold cumsum. cbn [cumsum_from map].
  rewrite (getitem_nonneg _ 2 ((0 + 0 + 0 + 0) * (1 / 4)))
    by (try lia; reflexivity).
  cbn [bind map].
  repeat match goal with
         | |- context [cos ?a] =>
             replace (cos a) with 1 by (replace a with 0 by field; now rewrite cos_0)
         | |- context [sin ?a] =>
             replace (sin a) with 0 by (replace a with 0 by field; now rewrite sin_0)
         end.
  cbn [cumsum_from combine map].
  rewrite (getitem_nonneg _ 2 (pscale (5 * (1 / 4)) (0 + 1 + 1, 0 + 0 + 0)))
    by (try lia; reflexivity).
  cbn [bind map]. unfold padd, psub, pscale. cbn [fst snd].
  do 2 f_equal.
  repeat (apply f_equal2; [apply f_equal2; lra |]). reflexivity.
Qed.

End Uneven.

Lemma roundtrip_uneven
    (resample_curve : list point -> Z -> option R -> list point)
    (resample_curve1d : list R -> Z -> option R -> list R) :
  roundtrip_discrete resample_curve resample_curve1d
    [(0, 0); (1, 0); (3, 0); (4, 0); (5, 0)]
  = Ok [(1 / 2, 0); (7 / 4, 0); (3, 0); (17 / 4, 0); (11 / 2, 0)].
Proof.
  unfold roundtrip_discrete.
  rewrite uneven_theta. cbn [bind]. rewrite uneven_center. reflexivity.
Qed.

(** C1 as stated fails: the five-point center line (0,0), (1,0), (3,0),
    (4,0), (5,0) comes back as (1/2,0), (7/4,0), (3,0), (17/4,0), (11/2,0),
    half a unit off at its first point. *)
Lemma roundtrip_not_within_tolerance :
  ~ (forall center : list point,
       (5 <= length center)%nat ->
       exists recon,
         roundtrip_discrete (fun c _ _ => c) (fun a _ _ => a) center = Ok recon /\
         within (1 / 4) recon center).
Proof.
  intros H.
  destruct (H [(0, 0); (1, 0); (3, 0); (4, 0); (5, 0)]) as [recon [Heq Hw]];
    [simpl; lia |].
  rewrite roundtrip_uneven in Heq. inversion Heq; subst recon. clear Heq.
  inversion Hw as [| p q l1 l2 [Hx _] _]; subst.
  cbn [fst snd] in Hx.
  unfold Rabs in Hx. destruct (Rcase_abs (1 / 2 - 0)); lra.
Qed.

(** A bent center line of five points one unit apart. *)
Lemma staircase_evenly_spaced :
  evenly_spaced 1 [(0, 0); (1, 0); (1, 1); (2, 1); (2, 2)].
Proof.
  unfold evenly_spaced. rewrite !diff_cons, diff_single.
  repeat constructor; unfold norm, psub; cbn [fst snd];
    match goal with
    | |- sqrt ?a = 1 => replace a with (1 * 1) by ring; apply sqrt_square; lra
    end.
Qed.

(** C1, as the code has it: on a center line of at least five points whose
    consecutive points are all the same positive distance apart, the
    discrete round trip returns the center line itself (over the reals, so
    within any tolerance). *)
Theorem roundtrip_discrete_evenly_spaced
    (resample_curve : list point -> Z -> option R -> list point)
    (resample_curve1d : list R -> Z -> option R -> list R)
    (center : list point) (d : R) :
  (5 <= length center)%nat -> 0 < d -> evenly_spaced d center ->
  exists recon,
    roundtrip_discrete resample_curve resample_curve1d center = Ok recon /\
    recon = center /\
    forall eps, 0 <= eps -> within eps recon center.
Proof.
  intros Hn Hd Hev. exists center.
  split; [apply (roundtrip_discrete_even _ _ center d); [lia | exact Hd | exact Hev] |].
  split; [reflexivity |].
  intros eps Heps. unfold within. clear Hn Hev.
  induction center as [| p c IH]; constructor; [| exact IH].
  replace (fst p - fst p) with 0 by ring. replace (snd p - snd p) with 0 by ring.
  rewrite Rabs_R0. split; exact Heps.
Qed.

Lemma roundtrip_discrete_evenly_spaced_witness :
  exists recon,
    roundtrip_discrete pad_resample2 pad_resample
      [(0, 0); (1, 0); (1, 1); (2, 1); (2, 2)] = Ok recon /\
    recon = [(0, 0); (1, 0); (1, 1); (2, 1); (2, 2)] /\
    forall eps, 0 <= eps ->
      within eps recon [(0, 0); (1, 0); (1, 1); (2, 1); (2, 2)].
Proof.
  apply (roundtrip_discrete_evenly_spaced pad_resample2 pad_resample
           [(0, 0); (1, 0); (1, 1); (2, 1); (2, 2)] 1).
  - simpl. lia.
  - exact Rlt_0_1.
  - exact staircase_evenly_spaced.
Defined.

(** * Further properties of the geometry *)

(** ** Slices and sums *)

Lemma length_slice {A : Type} (l : list A) (start stop : option Z) :
  length (slice l start stop)
  = (Nat.min (Z.to_nat match stop with
                       | Some i => clip_index (Z.of_nat (length l)) i
                       | None => Z.of_nat (length l)
                       end) (length l)
     - Z.to_nat match start with
                | Some i => clip_index (Z.of_nat (length l)) i
                | None => 0%Z
                end)%nat.
Proof.
  unfold slice. rewrite length_skipn, length_firstn. reflexivity.
Qed.

Lemma length_cumsum (l : list R) : length (cumsum l) = length l.
Proof. apply length_cumsum_from. Qed.

Lemma diff_shift (t : point) (l : list point) :
  diff psub (map (fun p => padd p t) l) = diff psub l.
Proof.
  induction l as [| a l IH]; [reflexivity |].
  destruct l as [| b l]; [reflexivity |].
  cbn [map] in *. rewrite !diff_cons, IH. f_equal.
  unfold psub, padd. cbn [fst snd]. f_equal; ring.
Qed.

Lemma diff_pscale (s : R) (l : list point) :
  diff psub (map (pscale s) l) = map (pscale s) (diff psub l).
Proof.
  induction l as [| a l IH]; [reflexivity |].
  destruct l as [| b l]; [reflexivity |].
  cbn [map] in *. rewrite !diff_cons, IH. cbn [map]. f_equal.
  unfold psub, pscale. cbn [fst snd]. f_equal; ring.
Qed.

(** The differences of running sums are the summands. *)
Lemma diff_running_sums (ax ay : R) (xs ys : list R) :
  diff psub ((ax, ay) :: combine (cumsum_from ax xs) (cumsum_from ay ys))
  = combine xs ys.
Proof.
  revert ax ay ys. induction xs as [| x xs IH]; intros ax ay ys.
  - reflexivity.
  - destruct ys as [| y ys]; [reflexivity |].
    cbn [cumsum_from combine]. rewrite diff_cons, IH. f_equal.
    unfold psub. cbn [fst snd]. f_equal; ring.
Qed.

Lemma norm_scaled_direction (s a : R) : norm (pscale s (cos a, sin a)) = Rabs s.
Proof.
  unfold norm, pscale. cbn [fst snd].
  replace (s * cos a * (s * cos a) + s * sin a * (s * sin a))
    with (Rsqr s * (Rsqr (sin a) + Rsqr (cos a))) by (unfold Rsqr; ring).
  rewrite sin2_cos2, Rmult_1_r. apply sqrt_Rsqr_abs.
Qed.

Lemma sum_constant (c : R) (l : list R) :
  Forall (fun x => x = c) l -> sum l = INR (length l) * c.
Proof.
  induction 1 as [| x l Hx _ IH].
  - simpl. ring.
  - unfold sum in *. cbn [fold_right length]. rewrite IH, Hx, S_INR. ring.
Qed.

(** ** The center line of a theta *)

Section CenterFromTheta.

Variable resample_curve : list point -> Z -> option R -> list point.
Variable resample_curve1d : list R -> Z -> option R -> list R.

(** With the default sample count the angles integrate to one angle per
    segment. *)
Lemma integrate_theta_default (theta : list R) (orientation : R) :
  exists psi,
    Geometry.integrate_theta resample_curve1d theta orientation
      (Geometry.len theta + 2) false = Ok psi /\
    length psi = S (length theta).
Proof.
  unfold Geometry.integrate_theta, Geometry.len.
  rewrite Z.eqb_refl. cbn [negb orb].
  destruct (Z.of_nat (length theta) + 2 - 1 =? 0)%Z eqn:E;
    [apply Z.eqb_eq in E; lia | clear E].
  set (S0 := map _ (cumsum (0 :: theta))).
  assert (HS0 : length S0 = S (length theta)).
  { unfold S0. rewrite length_map, length_cumsum. reflexivity. }
  destruct (getitem_in_range S0 ((Z.of_nat (length theta) + 2 - 1) / 2)%Z)
    as [i2 [Hi2 _]].
  { rewrite HS0. split.
    - apply Z.div_pos; lia.
    - apply Z.div_lt_upper_bound; lia. }
  rewrite Hi2. cbn [bind]. eexists. split; [reflexivity |].
  now rewrite length_map.
Qed.

(** The default call spelled out: the running sums of the unit directions,
    scaled to the segment length and moved so that the middle sample is
    [xy]. *)
Lemma center_from_theta_discrete_default (theta : list R)
    (orientation : R) (xy : point) (l smooth : R) :
  exists psi c2,
    length psi = S (length theta) /\
    nth_error
      (map (pscale (l * (1 / IZR (Geometry.len theta + 2 - 1))))
         ((0, 0) :: combine (cumsum (map cos psi)) (cumsum (map sin psi))))
      (Z.to_nat ((Geometry.len theta + 2 - 1) / 2)) = Some c2 /\
    Geometry.center_from_theta_discrete resample_curve resample_curve1d
      theta orientation xy l None None false smooth false
    = Ok (map (fun p => padd p (psub xy c2))
            (map (pscale (l * (1 / IZR (Geometry.len theta + 2 - 1))))
               ((0, 0) :: combine (cumsum (map cos psi)) (cumsum (map sin psi)))),
          None).
Proof.
  destruct (integrate_theta_default theta orientation) as [psi [Hpsi Hlen]].
  unfold Geometry.center_from_theta_discrete. cbn [Geometry.default].
  rewrite Hpsi. cbn [bind].
  set (C0 := map _ ((0, 0) :: combine (cumsum (map cos psi)) (cumsum (map sin psi)))).
  assert (HC0 : length C0 = S (S (length theta))).
  { unfold C0. rewrite length_map. cbn [length].
    rewrite length_combine, !length_cumsum, !length_map, Hlen, Nat.min_id.
    reflexivity. }
  destruct (getitem_in_range C0 ((Geometry.len theta + 2 - 1) / 2)%Z)
    as [c2 [Hc2 Hc2n]].
  { rewrite HC0. unfold Geometry.len. split.
    - apply Z.div_pos; lia.
    - apply Z.div_lt_upper_bound; lia. }
  rewrite Hc2. cbn [bind]. rewrite Z.eqb_refl. cbn [negb orb].
  exists psi, c2. repeat split; assumption.
Qed.

End CenterFromTheta.

(** X1: whatever the theta, orientation, anchor and length, the default
    [center_from_theta_discrete] returns two points more than there are
    thetas, and the sample at the middle index [(n - 1) // 2] is the
    anchor [xy]. *)
Theorem center_from_theta_discrete_anchor
    (resample_curve : list point -> Z -> option R -> list point)
    (resample_curve1d : list R -> Z -> option R -> list R)
    (theta : list R) (orientation : R) (xy : point) (l smooth : R) :
  exists center,
    Geometry.center_from_theta_discrete resample_curve resample_curve1d
      theta orientation xy l None None false smooth false = Ok (center, None) /\
    length center = (length theta + 2)%nat /\
    nth_error center ((length theta + 1) / 2) = Some xy.
Proof.
  destruct (center_from_theta_discrete_default resample_curve resample_curve1d
              theta orientation xy l smooth) as [psi [c2 [Hlen [Hc2 Heq]]]].
  eexists. split; [exact Heq |]. split.
  - rewrite !length_map. cbn [length].
    rewrite length_combine, !length_cumsum, !length_map, Hlen, Nat.min_id. lia.
  - replace ((length theta + 1) / 2)%nat
      with (Z.to_nat ((Geometry.len theta + 2 - 1) / 2)).
    + rewrite nth_error_map, Hc2. cbn [option_map]. f_equal.
      destruct xy as [x y], c2 as [cx cy]. unfold padd, psub. cbn [fst snd].
      f_equal; ring.
    + unfold Geometry.len.
      replace (Z.of_nat (length theta) + 2 - 1)%Z
        with (Z.of_nat (length theta + 1)) by lia.
      rewrite <- (Nat2Z.inj_div _ 2). apply Nat2Z.id.
Qed.

(** X2: the center line that the default [center_from_theta_discrete]
    returns is evenly spaced: each of its segments has the length
    |length| / (n - 1), so its measured length is |length|. *)
Theorem center_from_theta_discrete_spacing
    (resample_curve : list point -> Z -> option R -> list point)
    (resample_curve1d : list R -> Z -> option R -> list R)
    (theta : list R) (orientation : R) (xy : point) (l smooth : R) :
  exists center,
    Geometry.center_from_theta_discrete resample_curve resample_curve1d
      theta orientation xy l None None false smooth false = Ok (center, None) /\
    evenly_spaced (Rabs l / INR (length theta + 1)) center /\
    Geometry.length_from_center_discrete center = Rabs l.
Proof.
  destruct (center_from_theta_discrete_default resample_curve resample_curve1d
              theta orientation xy l smooth) as [psi [c2 [Hlen [_ Heq]]]].
  eexists. split; [exact Heq |].
  assert (Hn : IZR (Geometry.len theta + 2 - 1) = INR (length theta + 1)).
  { rewrite INR_IZR_INZ. f_equal. unfold Geometry.len. lia. }
  assert (Hpos : 0 < INR (length theta + 1)) by (apply lt_0_INR; lia).
  set (s := l * (1 / IZR (Geometry.len theta + 2 - 1))).
  assert (Hs : Rabs s = Rabs l / INR (length theta + 1)).
  { unfold s. rewrite Hn, Rabs_mult. unfold Rdiv. f_equal.
    rewrite Rmult_1_l, Rabs_right; [reflexivity |].
    left. now apply Rinv_0_lt_compat. }
  assert (Hdiff :
    diff psub
      (map (fun p => padd p (psub xy c2))
         (map (pscale s)
            ((0, 0) :: combine (cumsum (map cos psi)) (cumsum (map sin psi)))))
    = map (pscale s) (combine (map cos psi) (map sin psi))).
  { rewrite diff_shift, diff_pscale. unfold cumsum.
    now rewrite diff_running_sums. }
  assert (Hall : Forall (fun v => norm v = Rabs s)
                   (map (pscale s) (combine (map cos psi) (map sin psi)))).
  { apply Forall_forall. intros v Hv. apply in_map_iff in Hv.
    destruct Hv as [[cx cy] [<- Hin]].
    clear - Hin. induction psi as [| a psi IH]; [destruct Hin |].
    cbn [map combine] in Hin. destruct Hin as [Heq | Hin].
    - inversion Heq. apply norm_scaled_direction.
    - now apply IH. }
  split.
  - unfold evenly_spaced. rewrite Hdiff, <- Hs. exact Hall.
  - unfold Geometry.length_from_center_discrete. cbv zeta. rewrite Hdiff.
    change (map (fun d : R * R => sqrt (fst d * fst d + snd d * snd d)))
      with (map norm).
    rewrite (sum_constant (Rabs s)).
    + rewrite !length_map, length_combine, !length_map, Nat.min_id, Hlen, Hs.
      replace (S (length theta)) with (length theta + 1)%nat by lia.
      field. lra.
    + apply Forall_forall. intros x Hx. apply in_map_iff in Hx.
      destruct Hx as [v [<- Hv]].
      rewrite Forall_forall in Hall. now apply Hall.
Qed.

(** ** The theta of a moved or short center line *)

(** X3: moving a center line by a vector changes neither theta, nor the
    orientation, nor the length that [theta_from_center_discrete] returns;
    the anchor moves by the vector. *)
Theorem theta_from_center_discrete_translation
    (resample_curve : list point -> Z -> option R -> list point)
    (resample_curve1d : list R -> Z -> option R -> list R)
    (center : list point) (v : point) (smooth : R)
    (theta : list R) (orientation : R) (xy : point) (l : R) :
  Geometry.theta_from_center_discrete resample_curve resample_curve1d
    center None None false smooth = Ok (theta, orientation, xy, l) ->
  Geometry.theta_from_center_discrete resample_curve resample_curve1d
    (map (fun p => padd p v) center) None None false smooth
  = Ok (theta, orientation, padd xy v, l).
Proof.
  unfold Geometry.theta_from_center_discrete, Geometry.len.
  cbn [Geometry.default]. rewrite length_map, !Z.eqb_refl. cbn [negb orb].
  rewrite diff_shift.
  destruct (getitem (diff psub center) _) as [t1 | e]; [| discriminate].
  cbn [bind].
  destruct (getitem center _) as [xy0 | e] eqn:Hxy; [| discriminate].
  rewrite (getitem_map _ _ _ _ Hxy). cbn [bind].
  intros H. inversion H. reflexivity.
Qed.

Lemma theta_from_center_discrete_translation_witness :
  Geometry.theta_from_center_discrete pad_resample2 pad_resample
    (map (fun p => padd p (2, 3)) [(0, 0); (1, 0); (3, 0); (4, 0); (5, 0)])
    None None false 0
  = Ok ([0; 0; 0], 0, padd (3, 0) (2, 3), 5).
Proof.
  apply (theta_from_center_discrete_translation pad_resample2 pad_resample
           [(0, 0); (1, 0); (3, 0); (4, 0); (5, 0)] (2, 3) 0 [0; 0; 0] 0 (3, 0) 5).
  exact (uneven_theta pad_resample2 pad_resample).
Defined.

(** X4: on a center line of fewer than two points the default
    [theta_from_center_discrete] raises IndexError. *)
Theorem theta_from_center_discrete_too_short
    (resample_curve : list point -> Z -> option R -> list point)
    (resample_curve1d : list R -> Z -> option R -> list R)
    (center : list point) (smooth : R) :
  (length center < 2)%nat ->
  Geometry.theta_from_center_discrete resample_curve resample_curve1d
    center None None false smooth = Raise IndexError.
Proof.
  intros H. destruct center as [| p [| q t]]; [reflexivity | reflexivity |].
  simpl in H. lia.
Qed.

Lemma theta_from_center_discrete_too_short_witness :
  Geometry.theta_from_center_discrete pad_resample2 pad_resample
    [(1, 2)] None None false 0 = Raise IndexError.
Proof.
  apply (theta_from_center_discrete_too_short pad_resample2 pad_resample
           [(1, 2)] 0).
  simpl. lia.
Defined.

(** X5: the length that [theta_from_center_discrete] returns for a center
    line is the length that [length_from_center_discrete] measures. *)
Theorem theta_length_is_measured_length
    (resample_curve : list point -> Z -> option R -> list point)
    (resample_curve1d : list R -> Z -> option R -> list R)
    (center : list point) (smooth : R)
    (theta : list R) (orientation : R) (xy : point) (l : R) :
  Geometry.theta_from_center_discrete resample_curve resample_curve1d
    center None None false smooth = Ok (theta, orientation, xy, l) ->
  l = Geometry.length_from_center_discrete center.
Proof.
  unfold Geometry.theta_from_center_discrete, Geometry.len.
  cbn [Geometry.default]. rewrite !Z.eqb_refl. cbn [negb orb].
  destruct (getitem (diff psub center) _) as [t1 | e]; [| discriminate].
  cbn [bind].
  destruct (getitem center _) as [xy0 | e]; [| discriminate].
  cbn [bind]. intros H. inversion H. reflexivity.
Qed.

Lemma theta_length_is_measured_length_witness :
  5 = Geometry.length_from_center_discrete
        [(0, 0); (1, 0); (3, 0); (4, 0); (5, 0)].
Proof.
  apply (theta_length_is_measured_length pad_resample2 pad_resample
           [(0, 0); (1, 0); (3, 0); (4, 0); (5, 0)] 0 [0; 0; 0] 0 (3, 0) 5).
  exact (uneven_theta pad_resample2 pad_resample).
Defined.

(** ** Normals *)

Lemma spread_half_angles_length (itheta dtheta : list R) :
  length itheta = S (length dtheta) ->
  exists r,
    Geometry.spread_half_angles itheta dtheta = Ok r /\
    length r = S (length itheta).
Proof.
  intros Hlen. unfold Geometry.spread_half_angles.
  destruct (getitem_in_range itheta (Z.of_nat (length dtheta))) as [l [_ Hl]];
    [lia |].
  assert (Hlast : getitem itheta (-1)%Z = Ok l).
  { apply getitem_negative; [lia | lia |].
    replace (-1 + Z.of_nat (length itheta))%Z with (Z.of_nat (length dtheta)) by lia.
    exact Hl. }
  rewrite Hlast. cbn [bind].
  set (J := itheta ++ [l]).
  assert (HJ : length J = S (S (length dtheta))).
  { unfold J. rewrite length_app, Hlen. simpl. lia. }
  assert (Hmid : length (slice J (Some 1%Z) (Some (-1)%Z))
                 = length (map (fun d => d / 2) dtheta)).
  { rewrite length_slice, length_map, HJ. unfold clip_index, norm_index.
    change (1 <? 0)%Z with false. change (-1 <? 0)%Z with true. cbv iota. lia. }
  rewrite (broadcast_same_length _ _ _ Hmid). cbn [bind].
  eexists. split; [reflexivity |].
  rewrite !length_app, length_map, length_combine, Hmid, Nat.min_id, length_map.
  rewrite !length_slice, HJ. unfold clip_index, norm_index.
  change (1 <? 0)%Z with false. change (-1 <? 0)%Z with true. cbv iota. lia.
Qed.

Lemma unit_directions (angles : list R) :
  Forall (fun n => norm n = 1) (combine (map cos angles) (map sin angles)).
Proof.
  induction angles as [| a angles IH]; constructor; [| exact IH].
  unfold norm. cbn [fst snd].
  replace (cos a * cos a + sin a * sin a) with (Rsqr (sin a) + Rsqr (cos a))
    by (unfold Rsqr; ring).
  rewrite sin2_cos2. apply sqrt_1.
Qed.

Lemma normals_of_theta
    (resample_curve1d : list R -> Z -> option R -> list R)
    (theta : list R) (orientation : R) :
  exists normals,
    Geometry.normals_from_theta_discrete resample_curve1d
      theta orientation None None false = Ok normals /\
    length normals = (length theta + 2)%nat /\
    Forall (fun n => norm n = 1) normals.
Proof.
  destruct (integrate_theta_default resample_curve1d theta orientation)
    as [psi [Hpsi Hlen]].
  unfold Geometry.normals_from_theta_discrete. cbn [Geometry.default].
  rewrite Hpsi. cbn [bind]. rewrite Z.eqb_refl. cbn [negb].
  destruct (spread_half_angles_length (map (fun a => a + PI / 2) psi)
              (diff Rminus psi)) as [r [Hr Hrlen]].
  { rewrite length_map, length_diff, Hlen. lia. }
  rewrite Hr. cbn [bind]. eexists. split; [reflexivity |]. split.
  - rewrite length_combine, !length_map, Nat.min_id, Hrlen, length_map, Hlen. lia.
  - apply unit_directions.
Qed.

(** X6: the default [normals_from_theta_discrete] returns one normal per
    point of the center line, two more than there are thetas, and every
    normal has length one. *)
Theorem normals_from_theta_discrete_unit
    (resample_curve1d : list R -> Z -> option R -> list R)
    (theta : list R) (orientation : R) :
  exists normals,
    Geometry.normals_from_theta_discrete resample_curve1d
      theta orientation None None false = Ok normals /\
    length normals = (length theta + 2)%nat /\
    Forall (fun n => norm n = 1) normals.
Proof. apply normals_of_theta. Qed.

Lemma normals_of_center
    (resample_curve : list point -> Z -> option R -> list point)
    (resample_curve1d : list R -> Z -> option R -> list R)
    (center : list point) :
  (2 <= length center)%nat ->
  exists normals,
    Geometry.normals_from_center_discrete resample_curve resample_curve1d center
      = Ok normals /\
    length normals = length center /\
    Forall (fun n => norm n = 1) normals.
Proof.
  intros Hn.
  destruct (theta_from_center_discrete_default resample_curve resample_curve1d
              center 0 Hn) as [t1 [xy [_ [_ Heq]]]].
  unfold Geometry.normals_from_center_discrete. rewrite Heq. cbn [bind].
  match goal with
  | |- context [Geometry.normals_from_theta_discrete _ ?th ?o _ _ _] =>
      destruct (normals_of_theta resample_curve1d th o)
        as [normals [Hnormals [Hlen Hunit]]];
      assert (Hth : length th = (length center - 2)%nat)
  end.
  { rewrite !length_map. unfold sub_arrays, Geometry.arctan2_rows.
    rewrite length_map, length_combine, !length_map,
      length_removelast, length_tl, length_diff. lia. }
  exists normals. split; [exact Hnormals |]. split; [lia | exact Hunit].
Qed.

(** X7: on a center line of N >= 2 points [normals_from_center_discrete]
    returns N normals of length one. *)
Theorem normals_from_center_discrete_unit
    (resample_curve : list point -> Z -> option R -> list point)
    (resample_curve1d : list R -> Z -> option R -> list R)
    (center : list point) :
  (2 <= length center)%nat ->
  exists normals,
    Geometry.normals_from_center_discrete resample_curve resample_curve1d center
      = Ok normals /\
    length normals = length center /\
    Forall (fun n => norm n = 1) normals.
Proof. apply normals_of_center. Qed.

Lemma normals_from_center_discrete_unit_witness :
  exists normals,
    Geometry.normals_from_center_discrete pad_resample2 pad_resample
      [(0, 0); (1, 0); (1, 1)] = Ok normals /\
    length normals = 3%nat /\
    Forall (fun n => norm n = 1) normals.
Proof.
  apply (normals_from_center_discrete_unit pad_resample2 pad_resample
           [(0, 0); (1, 0); (1, 1)]).
  simpl. lia.
Defined.

(** ** Sides and center line *)

Lemma norm_scaled (a : R) (v : point) :
  norm (a * fst v, a * snd v) = Rabs a * norm v.
Proof.
  unfold norm. cbn [fst snd].
  replace (a * fst v * (a * fst v) + a * snd v * (a * snd v))
    with (Rsqr a * (fst v * fst v + snd v * snd v)) by (unfold Rsqr; ring).
  rewrite sqrt_mult; [| apply Rle_0_sqr | nra].
  now rewrite sqrt_Rsqr_abs.
Qed.

Section ShapeFacts.

Variable resample_curve : list point -> Z -> option R -> list point.
Variable resample_curve1d : list R -> Z -> option R -> list R.

Lemma half_offsets_length (width : list R) (normals : list point) :
  length normals = length width ->
  length (half_offsets width normals) = length width.
Proof.
  intros H. unfold half_offsets.
  rewrite length_map, length_combine, length_map, length_combine, Nat.min_id, H.
  apply Nat.min_id.
Qed.

Lemma half_offsets_nth (width : list R) (normals : list point)
    (i : nat) (wi : R) (n : point) :
  nth_error width i = Some wi -> nth_error normals i = Some n ->
  nth_error (half_offsets width normals) i
  = Some (0.5 * wi * fst n, 0.5 * wi * snd n).
Proof.
  intros Hw Hn. unfold half_offsets.
  rewrite (nth_error_zip _ _ _ i (0.5 * wi, 0.5 * wi) n); [reflexivity | | exact Hn].
  rewrite nth_error_map.
  assert (Hww : nth_error (combine width width) i = Some (wi, wi)).
  { clear - Hw. revert i Hw. induction width as [| a w IH]; intros [| i] H;
      simpl in *; try discriminate.
    - now inversion H.
    - now apply IH. }
  now rewrite Hww.
Qed.

(** With supplied normals and as many widths and normals as points,
    nothing is resampled and nothing can fail. *)
Lemma shape_from_center_discrete_explicit (center : list point)
    (width : list R) (normals : list point) (with_normals : bool) :
  length width = length center -> length normals = length center ->
  Geometry.shape_from_center_discrete resample_curve resample_curve1d
    center width (Some normals) with_normals
  = Ok (map (fun ab => padd (fst ab) (snd ab))
          (combine center (half_offsets width normals)),
        map (fun ab => psub (fst ab) (snd ab))
          (combine center (half_offsets width normals)),
        if with_normals then Some normals else None).
Proof.
  intros Hw Hn. unfold Geometry.shape_from_center_discrete.
  apply Nat.eqb_eq in Hw as Hwb. rewrite Hwb. cbn [negb bind].
  rewrite broadcast_same_length
    by (rewrite length_map, length_combine, Nat.min_id; congruence).
  cbn [bind]. fold (half_offsets width normals).
  assert (Hh : length center = length (half_offsets width normals))
    by (rewrite half_offsets_length; congruence).
  rewrite !(broadcast_same_length _ _ _ Hh). cbn [bind].
  destruct with_normals; reflexivity.
Qed.

Lemma mean_of_offsets (c h : list point) :
  length c = length h ->
  map (fun p => (fst p / 2, snd p / 2))
    (map (fun ab => padd (fst ab) (snd ab))
       (combine (map (fun ab => padd (fst ab) (snd ab)) (combine c h))
                (map (fun ab => psub (fst ab) (snd ab)) (combine c h))))
  = c.
Proof.
  revert h. induction c as [| [cx cy] c IH]; intros [| [hx hy] h] Hlen;
    try discriminate; [reflexivity |].
  cbn [map combine]. rewrite IH by (simpl in Hlen; lia). f_equal.
  unfold padd, psub. cbn [fst snd]. f_equal; field.
Qed.

End ShapeFacts.

(** X8: the center line is recovered from the sides: when
    [shape_from_center_discrete] is given as many widths and normals as the
    center line has points, [center_from_sides_mean] of the left and right
    sides it returns is that center line. *)
Theorem center_from_sides_mean_of_shape
    (resample_curve : list point -> Z -> option R -> list point)
    (resample_curve1d : list R -> Z -> option R -> list R)
    (center : list point) (width : list R) (normals : list point)
    (with_normals : bool) (left right : list point)
    (ns : option (list point)) :
  length width = length center -> length normals = length center ->
  Geometry.shape_from_center_discrete resample_curve resample_curve1d
    center width (Some normals) with_normals = Ok (left, right, ns) ->
  Geometry.center_from_sides_mean resample_curve left right None None false false
  = Ok (center, None).
Proof.
  intros Hw Hn.
  rewrite (shape_from_center_discrete_explicit _ _ _ _ _ _ Hw Hn).
  intros H. inversion H. subst. clear H.
  assert (Hh : length center = length (half_offsets width normals))
    by (rewrite half_offsets_length; congruence).
  unfold Geometry.center_from_sides_mean, Geometry.len. cbn [Geometry.default].
  rewrite !length_map, !length_combine, <- Hh, Nat.min_id, Z.max_id, !Z.eqb_refl.
  cbn [negb orb].
  rewrite broadcast_same_length
    by (rewrite !length_map, !length_combine; reflexivity).
  cbn [bind]. rewrite (mean_of_offsets _ _ Hh). reflexivity.
Qed.

Lemma center_from_sides_mean_of_shape_witness :
  Geometry.center_from_sides_mean pad_resample2
    (map (fun ab => padd (fst ab) (snd ab))
       (combine [(0, 0); (1, 0)] (half_offsets [2; 4] [(0, 1); (0, 1)])))
    (map (fun ab => psub (fst ab) (snd ab))
       (combine [(0, 0); (1, 0)] (half_offsets [2; 4] [(0, 1); (0, 1)])))
    None None false false
  = Ok ([(0, 0); (1, 0)], None).
Proof.
  apply (center_from_sides_mean_of_shape pad_resample2 pad_resample
           [(0, 0); (1, 0)] [2; 4] [(0, 1); (0, 1)] false _ _ None);
    reflexivity.
Defined.

(** X9: without supplied normals, on a center line of N >= 2 points with N
    widths, [shape_from_center_discrete] returns N left and N right
    points; each left point is half the (absolute) width away from its
    center point, and left and right point are the (absolute) width
    apart. *)
Theorem shape_from_center_discrete_distances
    (resample_curve : list point -> Z -> option R -> list point)
    (resample_curve1d : list R -> Z -> option R -> list R)
    (center : list point) (width : list R) :
  (2 <= length center)%nat -> length width = length center ->
  exists left right,
    Geometry.shape_from_center_discrete resample_curve resample_curve1d
      center width None false = Ok (left, right, None) /\
    length left = length center /\
    length right = length center /\
    forall i c wi l r,
      nth_error center i = Some c -> nth_error width i = Some wi ->
      nth_error left i = Some l -> nth_error right i = Some r ->
      norm (psub l c) = Rabs wi / 2 /\ norm (psub l r) = Rabs wi.
Proof.
  intros Hn Hw.
  destruct (normals_of_center resample_curve resample_curve1d center Hn)
    as [normals [Hnormals [Hlen Hunit]]].
  pose proof (shape_from_center_discrete_explicit resample_curve resample_curve1d
                center width normals false Hw Hlen) as Hshape.
  assert (Hnone :
    Geometry.shape_from_center_discrete resample_curve resample_curve1d
      center width None false
    = Geometry.shape_from_center_discrete resample_curve resample_curve1d
        center width (Some normals) false).
  { unfold Geometry.shape_from_center_discrete. now rewrite Hnormals. }
  rewrite Hnone, Hshape. clear Hnone Hshape.
  assert (Hh : length center = length (half_offsets width normals))
    by (rewrite half_offsets_length; congruence).
  eexists _, _. split; [reflexivity |].
  split; [apply length_zip; exact Hh |].
  split; [apply length_zip; exact Hh |].
  intros i c wi l r Hc Hwi Hl Hr.
  destruct (nth_error normals i) as [n |] eqn:Hni.
  2:{ apply nth_error_None in Hni.
      assert (i < length center)%nat
        by (apply nth_error_Some; rewrite Hc; discriminate).
      lia. }
  pose proof (half_offsets_nth width normals i wi n Hwi Hni) as Hhi.
  rewrite (nth_error_zip _ _ _ i c _ Hc Hhi) in Hl.
  rewrite (nth_error_zip _ _ _ i c _ Hc Hhi) in Hr.
  inversion Hl. inversion Hr. subst l r. clear Hl Hr.
  assert (Hnorm : norm n = 1).
  { rewrite Forall_forall in Hunit. apply Hunit. eapply nth_error_In. exact Hni. }
  unfold padd, psub. cbn [fst snd].
  replace 0.5 with (1 / 2) by lra. split.
  - replace (fst c + 1 / 2 * wi * fst n - fst c) with (wi / 2 * fst n) by field.
    replace (snd c + 1 / 2 * wi * snd n - snd c) with (wi / 2 * snd n) by field.
    rewrite norm_scaled, Hnorm, Rmult_1_r.
    unfold Rdiv. rewrite Rabs_mult. f_equal. apply Rabs_right.
    lra.
  - replace (fst c + 1 / 2 * wi * fst n - (fst c - 1 / 2 * wi * fst n))
      with (wi * fst n) by field.
    replace (snd c + 1 / 2 * wi * snd n - (snd c - 1 / 2 * wi * snd n))
      with (wi * snd n) by field.
    rewrite norm_scaled, Hnorm. ring.
Qed.

Lemma shape_from_center_discrete_distances_witness :
  exists left right,
    Geometry.shape_from_center_discrete pad_resample2 pad_resample
      [(0, 0); (1, 0); (1, 1)] [2; 4; 2] None false = Ok (left, right, None) /\
    length left = 3%nat /\
    length right = 3%nat /\
    forall i c wi l r,
      nth_error [(0, 0); (1, 0); (1, 1)] i = Some c ->
      nth_error [2; 4; 2] i = Some wi ->
      nth_error left i = Some l -> nth_error right i = Some r ->
      norm (psub l c) = Rabs wi / 2 /\ norm (psub l r) = Rabs wi.
Proof.
  apply (shape_from_center_discrete_distances pad_resample2 pad_resample
           [(0, 0); (1, 0); (1, 1)] [2; 4; 2]).
  - simpl. lia.
  - reflexivity.
Defined.

(** ** Moving, turning and stretching a center line *)

Lemma length_from_center_discrete_norms (center : list point) :
  Geometry.length_from_center_discrete center = sum (map norm (diff psub center)).
Proof. reflexivity. Qed.

Lemma diff_rotation (rad : R) (pos : point) (l : list point) :
  diff psub
    (map (fun c => padd (Geometry.dot_rotation rad (psub c pos)) pos) l)
  = map (Geometry.dot_rotation rad) (diff psub l).
Proof.
  induction l as [| a l IH]; [reflexivity |].
  destruct l as [| b l]; [reflexivity |].
  cbn [map] in *. rewrite !diff_cons, IH. cbn [map]. f_equal.
  unfold psub, padd, Geometry.dot_rotation. cbn [fst snd]. f_equal; ring.
Qed.

Lemma norm_rotation (rad : R) (v : point) :
  norm (Geometry.dot_rotation rad v) = norm v.
Proof.
  unfold norm, Geometry.dot_rotation. cbn [fst snd]. f_equal.
  replace ((fst v * cos rad + snd v * - sin rad)
           * (fst v * cos rad + snd v * - sin rad)
           + (fst v * sin rad + snd v * cos rad)
             * (fst v * sin rad + snd v * cos rad))
    with ((fst v * fst v + snd v * snd v) * (Rsqr (sin rad) + Rsqr (cos rad)))
    by (unfold Rsqr; ring).
  rewrite sin2_cos2. ring.
Qed.

Lemma diff_stretch (f : R) (p0 : point) (l : list point) :
  diff psub (map (fun c => padd (pscale f (psub c p0)) p0) l)
  = map (pscale f) (diff psub l).
Proof.
  induction l as [| a l IH]; [reflexivity |].
  destruct l as [| b l]; [reflexivity |].
  cbn [map] in *. rewrite !diff_cons, IH. cbn [map]. f_equal.
  unfold psub, padd, pscale. cbn [fst snd]. f_equal; ring.
Qed.

Lemma sum_scaled (a : R) (l : list R) : sum (map (fun x => a * x) l) = a * sum l.
Proof.
  unfold sum. induction l as [| x l IH]; cbn [map fold_right]; [ring |].
  rewrite IH. ring.
Qed.

(** [center_of_center_discrete] commutes with every map of the plane that
    keeps midpoints. *)
Lemma center_of_center_discrete_map (g : point -> point)
    (center : list point) (p : point) :
  (forall a b,
     ((fst (g a) + fst (g b)) / 2, (snd (g a) + snd (g b)) / 2)
     = g ((fst a + fst b) / 2, (snd a + snd b) / 2)) ->
  Geometry.center_of_center_discrete center = Ok p ->
  Geometry.center_of_center_discrete (map g center) = Ok (g p).
Proof.
  intros Hmid. unfold Geometry.center_of_center_discrete, Geometry.len.
  rewrite length_map.
  destruct (Z.of_nat (length center) mod 2 =? 0)%Z.
  - destruct (getitem center (Z.of_nat (length center) / 2 - 1)) as [a |] eqn:Ha;
      [| discriminate].
    cbn [bind].
    destruct (getitem center (Z.of_nat (length center) / 2)) as [b |] eqn:Hb;
      [| discriminate].
    cbn [bind]. intros H. inversion H.
    rewrite (getitem_map g _ _ _ Ha), (getitem_map g _ _ _ Hb). cbn [bind].
    now rewrite Hmid.
  - intros H. now apply getitem_map.
Qed.

(** X10: turning a center line about any point keeps the number of its
    points and its length. *)
Theorem rotate_center_discrete_length (center : list point) (rad : R)
    (pos : option point) (rotated : list point) :
  Geometry.rotate_center_discrete center rad pos = Ok rotated ->
  length rotated = length center /\
  Geometry.length_from_center_discrete rotated
  = Geometry.length_from_center_discrete center.
Proof.
  unfold Geometry.rotate_center_discrete.
  destruct (match pos with
            | Some p => Ok p
            | None => Geometry.center_of_center_discrete center
            end) as [p |]; [| discriminate].
  cbn [bind]. intros H. inversion H. split; [apply length_map |].
  rewrite !length_from_center_discrete_norms, diff_rotation, map_map.
  f_equal. apply map_ext. intros v. apply norm_rotation.
Qed.

Lemma rotate_center_discrete_length_witness :
  length (map (fun c => padd (Geometry.dot_rotation (PI / 2) (psub c (75, 75)))
                             (75, 75)) [(0, 0); (3, 4)])
  = length [(0, 0); (3, 4)] /\
  Geometry.length_from_center_discrete
    (map (fun c => padd (Geometry.dot_rotation (PI / 2) (psub c (75, 75)))
                        (75, 75)) [(0, 0); (3, 4)])
  = Geometry.length_from_center_discrete [(0, 0); (3, 4)].
Proof.
  apply (rotate_center_discrete_length [(0, 0); (3, 4)] (PI / 2)
           (Some (75, 75))).
  reflexivity.
Defined.

(** X11: turning about a given point by the angle 0 returns the center
    line as it is, and turning by one angle and then by another about the
    same point is turning by their sum. *)
Theorem rotate_center_discrete_compose (center : list point) (a b : R)
    (pos : point) :
  Geometry.rotate_center_discrete center 0 (Some pos) = Ok center /\
  (rotated <- Geometry.rotate_center_discrete center a (Some pos) ;;
   Geometry.rotate_center_discrete rotated b (Some pos))
  = Geometry.rotate_center_discrete center (a + b) (Some pos).
Proof.
  unfold Geometry.rotate_center_discrete. cbn [bind]. split.
  - f_equal. rewrite <- (map_id center) at 2. apply map_ext.
    intros [x y]. unfold padd, psub, Geometry.dot_rotation. cbn [fst snd].
    rewrite cos_0, sin_0. f_equal; ring.
  - f_equal. rewrite map_map. apply map_ext.
    intros [x y]. unfold padd, psub, Geometry.dot_rotation. cbn [fst snd].
    rewrite cos_plus, sin_plus. f_equal; ring.
Qed.

(** X12: [center_of_center_discrete] raises IndexError on an empty center
    line; on a center line of an odd number of points it is the middle
    point, which is the anchor of [theta_from_center_discrete]; and it
    moves along with the center line. *)
Theorem center_of_center_discrete_cases
    (resample_curve : list point -> Z -> option R -> list point)
    (resample_curve1d : list R -> Z -> option R -> list R)
    (center : list point) (v : point) :
  Geometry.center_of_center_discrete [] = Raise IndexError /\
  (forall theta orientation xy l smooth,
     Nat.odd (length center) = true ->
     Geometry.theta_from_center_discrete resample_curve resample_curve1d
       center None None false smooth = Ok (theta, orientation, xy, l) ->
     Geometry.center_of_center_discrete center = Ok xy) /\
  (forall p,
     Geometry.center_of_center_discrete center = Ok p ->
     Geometry.center_of_center_discrete (map (fun c => padd c v) center)
     = Ok (padd p v)).
Proof.
  split; [reflexivity |]. split.
  - intros theta orientation xy l smooth Hodd.
    unfold Geometry.theta_from_center_discrete, Geometry.len.
    cbn [Geometry.default]. rewrite !Z.eqb_refl. cbn [negb orb].
    destruct (getitem (diff psub center) _) as [t1 | e]; [| discriminate].
    cbn [bind].
    destruct (getitem center _) as [xy0 | e] eqn:Hxy; [| discriminate].
    cbn [bind]. intros H. inversion H. subst xy0.
    unfold Geometry.center_of_center_discrete, Geometry.len.
    apply Nat.odd_spec in Hodd. destruct Hodd as [k Hk].
    assert (Hmod : (Z.of_nat (length center) mod 2 = 1)%Z).
    { rewrite Hk, Nat2Z.inj_add, Nat2Z.inj_mul.
      replace (Z.of_nat 2 * Z.of_nat k + Z.of_nat 1)%Z
        with (1 + Z.of_nat k * 2)%Z by lia.
      now rewrite Z.mod_add by lia. }
    rewrite Hmod. change (1 =? 0)%Z with false. cbv iota.
    replace (Z.of_nat (length center) / 2)%Z
      with ((Z.of_nat (length center) - 1) / 2)%Z; [exact Hxy |].
    rewrite Hk, Nat2Z.inj_add, Nat2Z.inj_mul.
    replace (Z.of_nat 2 * Z.of_nat k + Z.of_nat 1 - 1)%Z
      with (Z.of_nat k * 2)%Z by lia.
    replace (Z.of_nat 2 * Z.of_nat k + Z.of_nat 1)%Z
      with (1 + Z.of_nat k * 2)%Z by lia.
    rewrite Z.div_mul, Z.div_add by lia. reflexivity.
  - intros p Hp.
    apply (center_of_center_discrete_map (fun c => padd c v) center p); [| exact Hp].
    intros a b. unfold padd. cbn [fst snd]. f_equal; field.
Qed.

Lemma center_of_center_discrete_cases_witness :
  Geometry.center_of_center_discrete
    [(0, 0); (1, 0); (3, 0); (4, 0); (5, 0)] = Ok (3, 0) /\
  Geometry.center_of_center_discrete
    (map (fun c => padd c (1, 1)) [(0, 0); (1, 0); (3, 0); (4, 0); (5, 0)])
  = Ok (padd (3, 0) (1, 1)).
Proof.
  destruct (center_of_center_discrete_cases pad_resample2 pad_resample
              [(0, 0); (1, 0); (3, 0); (4, 0); (5, 0)] (1, 1))
    as [_ [Hodd Hmove]].
  assert (H : Geometry.center_of_center_discrete
                [(0, 0); (1, 0); (3, 0); (4, 0); (5, 0)] = Ok (3, 0)).
  { apply (Hodd [0; 0; 0] 0 (3, 0) 5 0); [reflexivity |].
    exact (uneven_theta pad_resample2 pad_resample). }
  split; [exact H | apply Hmove, H].
Defined.

(** * Further properties of the worm model *)

Lemma slice_whole {A : Type} (l : list A) (stop : Z) :
  (Z.of_nat (length l) <= stop)%Z -> slice l (Some 0%Z) (Some stop) = l.
Proof.
  intros H. unfold slice, clip_index, norm_index.
  change (0 <? 0)%Z with false. cbv iota.
  destruct (stop <? 0)%Z eqn:E; [apply Z.ltb_lt in E; lia |].
  replace (Z.to_nat (Z.max 0 (Z.min (Z.of_nat (length l)) 0))) with 0%nat by lia.
  replace (Z.to_nat (Z.max 0 (Z.min (Z.of_nat (length l)) stop)))
    with (length l) by lia.
  rewrite skipn_O. apply firstn_all.
Qed.

Lemma getitem_rev_first {A : Type} (l : list A) :
  getitem (rev l) 0 = getitem l (-1)%Z.
Proof.
  rewrite <- (rev_involutive l) at 2.
  destruct (rev l) as [| a r]; [reflexivity |].
  cbn [rev]. rewrite getitem_last. reflexivity.
Qed.

Section MoreModelFacts.

Import WormModel.

(** The state the constructor leaves a model in, as far as the parameter
    interface depends on it. *)
Lemma init_well_formed (c : center_arg) (w : width_arg) (p : point)
    (l : R) (n : nat) (self : t) :
  init c w p l n = Ok self ->
  npoints self = List.length (center self) /\
  List.length (width self) = npoints self /\
  nparameter self = (2 * npoints self)%nat /\
  length self = Float l /\ speed self = Float 0.
Proof.
  unfold init.
  destruct (match c with
            | CenterNone => _
            | CenterCurve values => Ok values
            | CenterArray a => Ok a
            end) as [sc | e]; [| discriminate].
  cbn [bind].
  destruct (negb _) eqn:E; [discriminate |].
  intros H. inversion H. cbn.
  apply negb_false_iff, Nat.eqb_eq in E. repeat split. now symmetry.
Qed.

End MoreModelFacts.

(** X13: the center-only parameter vector round-trips: on a model in the
    state the constructor leaves it in, [set_parameter] applied to
    [get_parameter()] returns normally and leaves the model as it was. *)
Theorem set_parameter_get_parameter_center (self : WormModel.t) :
  WormModel.npoints self = length (WormModel.center self) ->
  WormModel.nparameter self = (2 * WormModel.npoints self)%nat ->
  WormModel.set_parameter (WormModel.get_parameter false self) self
  = (Ok tt, self).
Proof.
  intros Hn Hp. destruct self as [l xy sp c n w np npt pidx].
  cbn in Hn, Hp. subst n np.
  unfold WormModel.set_parameter, WormModel.get_parameter.
  cbn [WormModel.center WormModel.npoints].
  rewrite slice_whole by (rewrite length_flatten; lia).
  unfold reshape2. rewrite length_flatten, Nat.eqb_refl, pairs_flatten.
  cbn [WormModel.nparameter WormModel.set_center].
  destruct (_ <? _)%nat eqn:E; [apply Nat.ltb_lt in E; lia | reflexivity].
Qed.

Lemma set_parameter_get_parameter_center_witness :
  WormModel.set_parameter (WormModel.get_parameter false three_point_worm)
    three_point_worm
  = (Ok tt, three_point_worm).
Proof.
  apply (set_parameter_get_parameter_center three_point_worm); reflexivity.
Defined.

(** X14: a parameter vector with fewer than two entries per center point
    makes [set_parameter] raise ValueError, and the model is left as it
    was. *)
Theorem set_parameter_short_vector (self : WormModel.t) (parameter : list R) :
  (length parameter < 2 * WormModel.npoints self)%nat ->
  WormModel.set_parameter parameter self = (Raise ValueError, self).
Proof.
  intros H. unfold WormModel.set_parameter.
  rewrite slice_whole by lia. unfold reshape2.
  destruct (length parameter =? 2 * WormModel.npoints self)%nat eqn:E;
    [apply Nat.eqb_eq in E; lia | reflexivity].
Qed.

Lemma set_parameter_short_vector_witness :
  WormModel.set_parameter [0; 0; 1; 0] three_point_worm
  = (Raise ValueError, three_point_worm).
Proof.
  apply (set_parameter_short_vector three_point_worm [0; 0; 1; 0]).
  simpl. lia.
Defined.

(** X15: switching head and tail twice restores the model, and after one
    switch the head is what the tail was (an empty center line raises
    IndexError for both). *)
Theorem swith_head_tail_involution (self : WormModel.t) :
  snd (WormModel.swith_head_tail (snd (WormModel.swith_head_tail self))) = self /\
  fst (WormModel.head (snd (WormModel.swith_head_tail self)))
  = fst (WormModel.tail self).
Proof.
  split.
  - destruct self. unfold WormModel.swith_head_tail, WormModel.set_center.
    cbn. now rewrite rev_involutive.
  - cbn. apply getitem_rev_first.
Qed.

(** X16: moving a model by one vector and then by another is moving it by
    their sum, and moving does not change the measured length of the
    center line. *)
Theorem translate_compose (self : WormModel.t) (v w : point) :
  WormModel.and_then (WormModel.translate v) (WormModel.translate w) self
  = WormModel.translate (fst v + fst w, snd v + snd w) self /\
  Geometry.length_from_center_discrete
    (WormModel.center (snd (WormModel.translate v self)))
  = Geometry.length_from_center_discrete (WormModel.center self).
Proof.
  split.
  - unfold WormModel.and_then, WormModel.translate, WormModel.set_center. cbn.
    do 2 f_equal. rewrite map_map. apply map_ext.
    intros [x y]. unfold padd. cbn [fst snd]. f_equal; ring.
  - cbn. unfold Geometry.length_from_center_discrete. cbv zeta.
    now rewrite diff_shift.
Qed.

(** X17: [stretch] about the center point: when the center line has a
    center point, [stretch] returns normally, the center point stays where
    it was, the measured length of the center line is multiplied by
    |factor|, and the width is untouched; on an empty center line it
    raises IndexError and changes nothing. *)
Theorem stretch_about_center_point (self : WormModel.t) (factor : R) :
  (forall p0,
     Geometry.center_of_center_discrete (WormModel.center self) = Ok p0 ->
     exists self',
       WormModel.stretch factor self = (Ok tt, self') /\
       Geometry.center_of_center_discrete (WormModel.center self') = Ok p0 /\
       Geometry.length_from_center_discrete (WormModel.center self')
       = Rabs factor
         * Geometry.length_from_center_discrete (WormModel.center self) /\
       WormModel.width self' = WormModel.width self) /\
  (WormModel.center self = [] ->
   WormModel.stretch factor self = (Raise IndexError, self)).
Proof.
  split.
  - intros p0 Hp0. unfold WormModel.stretch, WormModel.center_point.
    rewrite Hp0. eexists. split; [reflexivity |].
    cbn [WormModel.center WormModel.set_center WormModel.width].
    split; [| split; [| reflexivity]].
    + pose proof (center_of_center_discrete_map
                    (fun c => padd (pscale factor (psub c p0)) p0)
                    (WormModel.center self) p0) as Hmap.
      cbv beta in Hmap. rewrite Hmap; [| | exact Hp0].
      * f_equal. destruct p0 as [x y]. unfold padd, pscale, psub.
        cbn [fst snd]. f_equal; ring.
      * intros a b. unfold padd, pscale, psub. cbn [fst snd]. f_equal; field.
    + rewrite !length_from_center_discrete_norms, diff_stretch, map_map.
      rewrite <- sum_scaled, map_map. f_equal. apply map_ext.
      intros v. unfold pscale. apply norm_scaled.
  - intros Hempty. unfold WormModel.stretch, WormModel.center_point.
    rewrite Hempty. reflexivity.
Qed.

Lemma stretch_about_center_point_witness :
  exists self',
    WormModel.stretch 2 three_point_worm = (Ok tt, self') /\
    Geometry.center_of_center_discrete (WormModel.center self') = Ok (1, 0) /\
    Geometry.length_from_center_discrete (WormModel.center self')
    = Rabs 2
      * Geometry.length_from_center_discrete (WormModel.center three_point_worm) /\
    WormModel.width self' = WormModel.width three_point_worm.
Proof.
  apply (proj1 (stretch_about_center_point three_point_worm 2) (1, 0)).
  reflexivity.
Defined.

(** X18: [widen] always raises AttributeError and changes nothing, so
    [scale] never returns normally: on a center line with a center point
    it leaves the center line stretched and the width as it was. *)
Theorem scale_raises (self : WormModel.t) (factor : R) :
  WormModel.widen factor self = (Raise AttributeError, self) /\
  (forall p0,
     Geometry.center_of_center_discrete (WormModel.center self) = Ok p0 ->
     exists self',
       WormModel.scale factor self = (Raise AttributeError, self') /\
       WormModel.center self'
       = map (fun c => padd (pscale factor (psub c p0)) p0)
           (WormModel.center self) /\
       WormModel.width self' = WormModel.width self).
Proof.
  split; [reflexivity |].
  intros p0 Hp0.
  unfold WormModel.scale, WormModel.and_then, WormModel.stretch,
    WormModel.center_point.
  rewrite Hp0. eexists. split; [reflexivity |]. split; reflexivity.
Qed.

Lemma scale_raises_witness :
  exists self',
    WormModel.scale 2 three_point_worm = (Raise AttributeError, self') /\
    WormModel.center self'
    = map (fun c => padd (pscale 2 (psub c (1, 0))) (1, 0))
        (WormModel.center three_point_worm) /\
    WormModel.width self' = WormModel.width three_point_worm.
Proof.
  apply (proj2 (scale_raises three_point_worm 2) (1, 0)).
  reflexivity.
Defined.

(** ** The default worm *)

Lemma length_linspace (a b : R) (n : nat) : length (linspace a b n) = n.
Proof.
  destruct n as [| [| m]]; [reflexivity | reflexivity |].
  unfold linspace. now rewrite length_map, length_seq.
Qed.

Lemma linspace_unit_interval (n : nat) (x : R) :
  In x (linspace 0 1 n) -> 0 <= x <= 1.
Proof.
  destruct n as [| [| m]]; [intros [] | intros [<- | []]; lra |].
  unfold linspace. intros H. apply in_map_iff in H.
  destruct H as [i [<- Hi]]. apply in_seq in Hi.
  assert (Hm : 0 < INR (S m)) by (apply lt_0_INR; lia).
  assert (Hi0 : 0 <= INR i) by apply pos_INR.
  assert (Him : INR i <= INR (S m)) by (apply le_INR; lia).
  replace (0 + INR i * ((1 - 0) / INR (S m))) with (INR i / INR (S m))
    by (field; lra).
  split.
  - apply Rmult_le_pos; [exact Hi0 | left; now apply Rinv_0_lt_compat].
  - apply Rmult_le_reg_r with (INR (S m)); [exact Hm |].
    unfold Rdiv. rewrite Rmult_assoc, Rinv_l by lra. lra.
Qed.

Lemma power_nonneg (x y : R) : 0 <= power x y.
Proof.
  unfold power. destruct (Req_dec_T x 0); [lra |].
  left. unfold Rpower. apply exp_pos.
Qed.

Lemma length_default_width (npoints : nat) :
  length (Geometry.default_width npoints) = npoints.
Proof.
  unfold Geometry.default_width. now rewrite length_map, length_linspace.
Qed.

(** X19: the default width profile has one entry per sample point, no
    entry is negative, and with two or more sample points the first and
    the last entry are 0. *)
Theorem default_width_profile (npoints : nat) :
  length (Geometry.default_width npoints) = npoints /\
  Forall (fun w => 0 <= w) (Geometry.default_width npoints) /\
  ((2 <= npoints)%nat ->
   nth_error (Geometry.default_width npoints) 0 = Some 0 /\
   nth_error (Geometry.default_width npoints) (npoints - 1) = Some 0).
Proof.
  split; [| split].
  - apply length_default_width.
  - unfold Geometry.default_width. apply Forall_forall. intros w Hw. apply in_map_iff in Hw.
    destruct Hw as [x [<- _]]. unfold Geometry.default_width_w. cbv zeta.
    pose proof (power_nonneg x 0.351). pose proof (power_nonneg (1 - x) 0.351).
    pose proof (power_nonneg 0.5 (-2 * 0.351)).
    apply Rmult_le_pos; [apply Rmult_le_pos; [apply Rmult_le_pos |] |];
      try assumption. lra.
  - intros Hn. unfold Geometry.default_width.
    destruct npoints as [| [| m]]; [lia | lia |].
    assert (Hm : 0 < INR (S m)) by (apply lt_0_INR; lia).
    unfold linspace. split.
    + cbn [seq map nth_error]. f_equal. unfold Geometry.default_width_w, power.
      cbv zeta.
      destruct (Req_dec_T (0 + INR 0 * ((1 - 0) / INR (S m))) 0) as [_ | Hne];
        [ring | exfalso; apply Hne; simpl; ring].
    + rewrite nth_error_map, nth_error_map.
      replace (S (S m) - 1)%nat with (S m) by lia.
      rewrite (nth_error_nth' _ 0%nat) by (rewrite length_seq; lia).
      rewrite seq_nth by lia. cbn [option_map Nat.add]. f_equal.
      unfold Geometry.default_width_w, power. cbv zeta.
      destruct (Req_dec_T (1 - (0 + INR (S m) * ((1 - 0) / INR (S m)))) 0)
        as [_ | Hne]; [ring | exfalso; apply Hne; field; lra].
Qed.

Lemma default_width_profile_witness :
  nth_error (Geometry.default_width 3) 0 = Some 0 /\
  nth_error (Geometry.default_width 3) (3 - 1) = Some 0.
Proof.
  apply (proj2 (proj2 (default_width_profile 3))). lia.
Defined.

(** X20: constructed without a center line and without a width, the model
    is always built: it has the requested number of points, as many
    widths, the length it was given, and its center line lies on the
    segment from [xy] to [xy + (1, 0)], whatever that length is. *)
Theorem init_default (xy : point) (l : R) (n : nat) :
  exists self,
    WormModel.init WormModel.CenterNone WormModel.WidthNone xy l n = Ok self /\
    WormModel.npoints self = n /\
    length (WormModel.center self) = n /\
    length (WormModel.width self) = n /\
    WormModel.length self = WormModel.Float l /\
    forall p, In p (WormModel.center self) ->
              snd p = 0 + snd xy /\ fst xy <= fst p <= fst xy + 1.
Proof.
  unfold WormModel.init, columns.
  rewrite length_linspace. unfold zeros. rewrite repeat_length, Nat.eqb_refl.
  cbn [bind].
  set (c := map (fun p => padd p xy) (combine (linspace 0 1 n) (repeat 0 n))).
  assert (Hc : length c = n).
  { unfold c. rewrite length_map, length_combine, length_linspace, repeat_length.
    apply Nat.min_id. }
  assert (Hw : length (Geometry.default_width (length c)) = length c)
    by apply length_default_width.
  rewrite Hw, Nat.eqb_refl. cbn [negb].
  eexists. split; [reflexivity |].
  cbn [WormModel.npoints WormModel.center WormModel.width WormModel.length].
  repeat split; try assumption; try congruence.
  - unfold c in H. apply in_map_iff in H. destruct H as [[x y] [<- Hin]].
    apply in_combine_r in Hin. apply repeat_spec in Hin. subst y. reflexivity.
  - unfold c in H. apply in_map_iff in H. destruct H as [[x y] [<- Hin]].
    apply in_combine_l, linspace_unit_interval in Hin.
    unfold padd. cbn [fst snd]. lra.
  - unfold c in H. apply in_map_iff in H. destruct H as [[x y] [<- Hin]].
    apply in_combine_l, linspace_unit_interval in Hin.
    unfold padd. cbn [fst snd]. lra.
Qed.

(** * Further properties: lifting angles *)

Lemma update_from_split (op : R -> R) (lift : list R) (i : Z) :
  (0 <= i)%Z ->
  Geometry.update_from op lift i
  = firstn (Z.to_nat i) lift ++ map op (skipn (Z.to_nat i) lift).
Proof.
  intros Hi. unfold Geometry.update_from, slice, clip_index, norm_index.
  destruct (i <? 0)%Z eqn:E; [apply Z.ltb_lt in E; lia |].
  rewrite Nat2Z.id, firstn_all. cbn [Z.to_nat skipn].
  destruct (Z_le_gt_dec i (Z.of_nat (length lift))) as [Hle | Hgt].
  - replace (Z.max 0 (Z.min (Z.of_nat (length lift)) i)) with i by lia.
    reflexivity.
  - replace (Z.max 0 (Z.min (Z.of_nat (length lift)) i))
      with (Z.of_nat (length lift)) by lia.
    rewrite Nat2Z.id, firstn_all, skipn_all.
    rewrite firstn_all2, skipn_all2 by lia. reflexivity.
Qed.

Lemma nth_error_patch {A : Type} (op : A -> A) (m : nat) (l : list A) (k : nat) :
  nth_error (firstn m l ++ map op (skipn m l)) k
  = option_map (fun x => if (m <=? k)%nat then op x else x) (nth_error l k).
Proof.
  revert l k. induction m as [| m IH]; intros l k.
  - cbn [firstn skipn app Nat.leb]. apply nth_error_map.
  - destruct l as [| a t]; [now destruct k |].
    destruct k as [| k]; [reflexivity |].
    cbn [firstn skipn app nth_error Nat.leb]. apply IH.
Qed.

Lemma length_update_from (op : R -> R) (lift : list R) (i : Z) :
  (0 <= i)%Z -> length (Geometry.update_from op lift i) = length lift.
Proof.
  intros Hi. rewrite update_from_split by exact Hi.
  rewrite length_app, length_map, <- length_app, firstn_skipn. reflexivity.
Qed.

Lemma length_fold_update_from (op : R -> R) (idx : list Z) (lift : list R) :
  Forall (fun i => (0 <= i)%Z) idx ->
  length (fold_left (Geometry.update_from op) idx lift) = length lift.
Proof.
  intros H. revert lift. induction H as [| i idx Hi _ IH]; intros lift;
    [reflexivity |].
  cbn [fold_left]. rewrite IH. now apply length_update_from.
Qed.

(** How far apart two neighbouring entries are after the updates: each
    index equal to the second position adds one [c]. *)
Lemma fold_update_from_step (op : R -> R) (c : R) (idx : list Z) (lift : list R)
    (k : nat) (a b : R) :
  (forall x, op x = x + c) ->
  Forall (fun i => (0 <= i)%Z) idx ->
  nth_error lift k = Some a -> nth_error lift (S k) = Some b ->
  exists a' b',
    nth_error (fold_left (Geometry.update_from op) idx lift) k = Some a' /\
    nth_error (fold_left (Geometry.update_from op) idx lift) (S k) = Some b' /\
    b' - a'
    = b - a
      + c * INR (length (filter (fun i => (i =? Z.of_nat (S k))%Z) idx)).
Proof.
  intros Hop H. revert lift a b.
  induction H as [| i idx Hi _ IH]; intros lift a b Ha Hb.
  - exists a, b. cbn [fold_left filter length INR]. repeat split; try assumption.
    ring.
  - cbn [fold_left filter].
    pose proof (update_from_split op lift i Hi) as Hsplit.
    pose proof (nth_error_patch op (Z.to_nat i) lift k) as Hk.
    pose proof (nth_error_patch op (Z.to_nat i) lift (S k)) as HSk.
    rewrite <- Hsplit, Ha in Hk. rewrite <- Hsplit, Hb in HSk.
    cbn [option_map] in Hk, HSk.
    destruct (IH _ _ _ Hk HSk) as [a' [b' [Ha' [Hb' Hd]]]].
    exists a', b'. repeat split; try assumption. rewrite Hd.
    destruct (i =? Z.of_nat (S k))%Z eqn:E.
    + apply Z.eqb_eq in E.
      destruct (Z.to_nat i <=? k)%nat eqn:E1; [apply Nat.leb_le in E1; lia |].
      destruct (Z.to_nat i <=? S k)%nat eqn:E2; [| apply Nat.leb_gt in E2; lia].
      cbn [length]. rewrite S_INR, Hop. ring.
    + apply Z.eqb_neq in E.
      destruct (Z.to_nat i <=? k)%nat eqn:E1.
      * apply Nat.leb_le in E1.
        destruct (Z.to_nat i <=? S k)%nat eqn:E2; [| apply Nat.leb_gt in E2; lia].
        rewrite !Hop. ring.
      * apply Nat.leb_gt in E1.
        destruct (Z.to_nat i <=? S k)%nat eqn:E2; [apply Nat.leb_le in E2; lia |].
        ring.
Qed.

Lemma nonzero_from_lower (s : Z) (m : list bool) :
  Forall (fun i => (s <= i)%Z) (nonzero_from s m).
Proof.
  revert s. induction m as [| b t IH]; intros s; [constructor |].
  cbn [nonzero_from].
  assert (Ht : Forall (fun i => (s <= i)%Z) (nonzero_from (s + 1) t)).
  { eapply Forall_impl; [| apply IH]. cbv beta. intros; lia. }
  destruct b; [constructor; [lia | exact Ht] | exact Ht].
Qed.

(** The position after a flagged entry occurs once among the shifted
    indices, the position after an unflagged one not at all. *)
Lemma count_nonzero_from (s : Z) (m : list bool) (j : nat) :
  length (filter (fun i => (i =? s + Z.of_nat j + 1)%Z)
                 (map (fun i => (i + 1)%Z) (nonzero_from s m)))
  = if nth j m false then 1%nat else 0%nat.
Proof.
  revert s j. induction m as [| b t IH]; intros s j.
  - now destruct j.
  - cbn [nonzero_from]. destruct j as [| j].
    + assert (Hrest : filter (fun i => (i =? s + Z.of_nat 0 + 1)%Z)
                        (map (fun i => (i + 1)%Z) (nonzero_from (s + 1) t)) = []).
      { pose proof (nonzero_from_lower (s + 1) t) as Hlow.
        induction Hlow as [| i l Hi _ IHl]; [reflexivity |].
        cbn [map filter].
        destruct (i + 1 =? s + Z.of_nat 0 + 1)%Z eqn:E;
          [apply Z.eqb_eq in E; lia | exact IHl]. }
      cbn [nth]. destruct b; cbn [map filter].
      * destruct (s + 1 =? s + Z.of_nat 0 + 1)%Z eqn:E;
          [| apply Z.eqb_neq in E; lia].
        cbn [length]. now rewrite Hrest.
      * now rewrite Hrest.
    + cbn [nth]. specialize (IH (s + 1)%Z j).
      replace (s + 1 + Z.of_nat j + 1)%Z with (s + Z.of_nat (S j) + 1)%Z in IH
        by lia.
      destruct b; cbn [map filter]; [| exact IH].
      destruct (s + 1 =? s + Z.of_nat (S j) + 1)%Z eqn:E;
        [apply Z.eqb_eq in E; lia | exact IH].
Qed.

Lemma nth_error_diff {A : Type} (sub : A -> A -> A) (l : list A) (k : nat) :
  nth_error (diff sub l) k
  = match nth_error l k, nth_error l (S k) with
    | Some a, Some b => Some (sub b a)
    | _, _ => None
    end.
Proof.
  revert k. induction l as [| a t IH]; intros k; [now destruct k |].
  destruct t as [| b t'].
  - cbn [diff]. destruct k as [| k]; [reflexivity |].
    cbn [nth_error]. now destruct k.
  - change (diff sub (a :: b :: t')) with (sub b a :: diff sub (b :: t')).
    destruct k as [| k]; [reflexivity |].
    cbn [nth_error]. rewrite IH. reflexivity.
Qed.

Lemma shifted_nonzero_nonneg (m : list bool) :
  Forall (fun i => (0 <= i)%Z) (map (fun i => (i + 1)%Z) (nonzero m)).
Proof.
  apply Forall_map. eapply Forall_impl; [| apply (nonzero_from_lower 0)].
  cbv beta. intros; lia.
Qed.

Lemma fold_update_from_turns (op : R -> R) (c : Z) (idx : list Z) (lift : list R) :
  (forall x, op x = x + 2 * IZR c * PI) ->
  Forall (fun i => (0 <= i)%Z) idx ->
  Forall (fun x => exists k : Z, x = 2 * IZR k * PI) lift ->
  Forall (fun x => exists k : Z, x = 2 * IZR k * PI)
         (fold_left (Geometry.update_from op) idx lift).
Proof.
  intros Hop H. revert lift. induction H as [| i idx Hi _ IH]; intros lift Hl;
    [exact Hl |].
  cbn [fold_left]. apply IH. rewrite update_from_split by exact Hi.
  rewrite <- (firstn_skipn (Z.to_nat i) lift) in Hl.
  apply Forall_app in Hl. destruct Hl as [Hfirst Hskip].
  apply Forall_app. split; [exact Hfirst |].
  apply Forall_map. eapply Forall_impl; [| exact Hskip].
  cbv beta. intros x [k ->]. exists (k + c)%Z. rewrite Hop, plus_IZR. ring.
Qed.

(** X21: [lift_cirular] keeps the number of angles and moves each one by
    whole turns only; on angles between -pi and pi the lifted curve has
    no step larger than pi between neighbours. *)
Theorem lift_cirular_continuous (phi : list R) :
  length (Geometry.lift_cirular phi) = length phi /\
  Forall2 same_angle (Geometry.lift_cirular phi) phi /\
  (Forall (fun a => - PI <= a <= PI) phi ->
   Forall (fun d => - PI <= d <= PI) (diff Rminus (Geometry.lift_cirular phi))).
Proof.
  unfold Geometry.lift_cirular.
  set (dphi := diff Rminus phi).
  set (mi := map (fun d => Rltb d (- PI)) dphi).
  set (mp := map (fun d => Rltb PI d) dphi).
  set (ii := map (fun i => (i + 1)%Z) (nonzero mi)).
  set (ip := map (fun i => (i + 1)%Z) (nonzero mp)).
  set (opi := fun x : R => x + 2 * PI).
  set (opp := fun x : R => x - 2 * PI).
  set (L1 := fold_left (Geometry.update_from opi) ii (zeros (length phi))).
  set (L := fold_left (Geometry.update_from opp) ip L1).
  assert (Hii : Forall (fun i => (0 <= i)%Z) ii) by apply shifted_nonzero_nonneg.
  assert (Hip : Forall (fun i => (0 <= i)%Z) ip) by apply shifted_nonzero_nonneg.
  assert (HL1 : length L1 = length phi).
  { unfold L1. rewrite length_fold_update_from by exact Hii.
    apply repeat_length. }
  assert (HL : length L = length phi).
  { unfold L. now rewrite length_fold_update_from. }
  assert (Hturns : Forall (fun x => exists k : Z, x = 2 * IZR k * PI) L).
  { apply (fold_update_from_turns opp (-1)); [| exact Hip |].
    - intros x. unfold opp. simpl. lra.
    - apply (fold_update_from_turns opi 1); [| exact Hii |].
      + intros x. unfold opi. simpl. lra.
      + unfold zeros. apply Forall_forall. intros x Hx.
        apply repeat_spec in Hx. exists 0%Z. simpl. lra. }
  split; [| split].
  - rewrite length_map, length_combine, HL. apply Nat.min_id.
  - clearbody L. clear - Hturns HL. revert L Hturns HL.
    induction phi as [| a phi IH]; intros L Hturns HL.
    + destruct L; [constructor | discriminate].
    + destruct L as [| x L]; [discriminate |].
      inversion Hturns as [| ? ? [k Hk] Hrest]; subst.
      cbn [combine map fst snd]. constructor.
      * exists k. reflexivity.
      * apply IH; [exact Hrest | now inversion HL].
  - intros Hphi. apply Forall_forall. intros d Hd.
    apply In_nth_error in Hd. destruct Hd as [k Hk].
    rewrite nth_error_diff in Hk.
    destruct (nth_error (map _ (combine phi L)) k) as [u |] eqn:Hu;
      [| discriminate].
    destruct (nth_error (map _ (combine phi L)) (S k)) as [v |] eqn:Hv;
      [| discriminate].
    inversion Hk; subst d; clear Hk.
    assert (Hlt : (S k < length phi)%nat).
    { assert (Hne : nth_error (map (fun ab : R * R => fst ab + snd ab)
                                   (combine phi L)) (S k) <> None)
        by (rewrite Hv; discriminate).
      apply nth_error_Some in Hne.
      rewrite length_map, length_combine, HL, Nat.min_id in Hne. exact Hne. }
    destruct (nth_error phi k) as [pa |] eqn:Hpa;
      [| apply nth_error_None in Hpa; lia].
    destruct (nth_error phi (S k)) as [pb |] eqn:Hpb;
      [| apply nth_error_None in Hpb; lia].
    assert (Hz : forall j, (j < length phi)%nat ->
                           nth_error (zeros (length phi)) j = Some 0).
    { intros j Hj. unfold zeros. rewrite nth_error_repeat by exact Hj.
      reflexivity. }
    destruct (fold_update_from_step opi (2 * PI) ii (zeros (length phi)) k 0 0)
      as [a1 [b1 [Ha1 [Hb1 Hd1]]]];
      [reflexivity | exact Hii | apply Hz; lia | apply Hz; lia |].
    fold L1 in Ha1, Hb1.
    destruct (fold_update_from_step opp (- (2 * PI)) ip L1 k a1 b1)
      as [a2 [b2 [Ha2 [Hb2 Hd2]]]];
      [intros x; unfold opp; ring | exact Hip | exact Ha1 | exact Hb1 |].
    fold L in Ha2, Hb2.
    rewrite (nth_error_zip _ _ _ _ _ _ Hpa Ha2) in Hu.
    rewrite (nth_error_zip _ _ _ _ _ _ Hpb Hb2) in Hv.
    inversion Hu; inversion Hv; subst u v. cbn [fst snd].
    unfold ii in Hd1. unfold ip in Hd2.
    pose proof (count_nonzero_from 0 mi k) as Ci.
    pose proof (count_nonzero_from 0 mp k) as Cp.
    replace (0 + Z.of_nat k + 1)%Z with (Z.of_nat (S k)) in Ci, Cp by lia.
    unfold nonzero in Hd1, Hd2. rewrite Ci in Hd1. rewrite Cp in Hd2.
    assert (Hdk : nth_error dphi k = Some (pb - pa)).
    { unfold dphi. rewrite nth_error_diff, Hpa, Hpb. reflexivity. }
    assert (Hmi : nth k mi false = Rltb (pb - pa) (- PI)).
    { unfold mi. apply nth_error_nth. rewrite nth_error_map, Hdk. reflexivity. }
    assert (Hmp : nth k mp false = Rltb PI (pb - pa)).
    { unfold mp. apply nth_error_nth. rewrite nth_error_map, Hdk. reflexivity. }
    rewrite Hmi in Hd1. rewrite Hmp in Hd2.
    assert (Ba : - PI <= pa <= PI).
    { eapply Forall_forall in Hphi; [exact Hphi |].
      eapply nth_error_In; exact Hpa. }
    assert (Bb : - PI <= pb <= PI).
    { eapply Forall_forall in Hphi; [exact Hphi |].
      eapply nth_error_In; exact Hpb. }
    pose proof PI_RGT_0 as Hpi.
    unfold Rltb in Hd1, Hd2.
    destruct (Rlt_dec (pb - pa) (- PI)); destruct (Rlt_dec PI (pb - pa));
      simpl in Hd1, Hd2; lra.
Qed.

Lemma lift_cirular_continuous_witness :
  Forall (fun d => - PI <= d <= PI) (diff Rminus (Geometry.lift_cirular [3; -3])).
Proof.
  apply (proj2 (proj2 (lift_cirular_continuous [3; -3]))).
  pose proof PI2_3_2 as H2.
  repeat constructor; lra.
Defined.

(** * Further properties: normals of a contour *)

Lemma length_setitem_first {A : Type} (l r : list A) (v : A) :
  setitem l 0 v = Ok r -> length r = length l.
Proof.
  unfold setitem, norm_index. change (0 <? 0)%Z with false. cbv iota.
  destruct ((0 <=? 0)%Z && (0 <? Z.of_nat (length l))%Z)%bool eqn:E;
    [| discriminate].
  intros H. inversion H. subst r. destruct l as [| a l]; [discriminate |].
  cbn [Z.to_nat firstn skipn app length]. reflexivity.
Qed.

Lemma allclose_refl (a : point) : Geometry.allclose a a = true.
Proof.
  unfold Geometry.allclose.
  assert (H : forall x, Rabs (x - x) <= 1 / 100000000 + 1 / 100000 * Rabs x).
  { intros x. replace (x - x) with 0 by ring. rewrite Rabs_R0.
    pose proof (Rabs_pos x). lra. }
  destruct (Rle_dec _ _) as [_ | Hn]; [| exfalso; apply Hn, H].
  destruct (Rle_dec _ _) as [_ | Hn]; [| exfalso; apply Hn, H].
  reflexivity.
Qed.

(** X22: [normals_from_contour_discrete] raises IndexError on a contour of
    fewer than two points and ValueError on one whose last point is not
    close to its first; on any other contour it returns one normal per
    segment of the contour, each of length 1. *)
Theorem normals_from_contour_discrete_cases (contour : list point) :
  ((length contour < 2)%nat ->
   Geometry.normals_from_contour_discrete contour = Raise IndexError) /\
  (forall c0 cl,
     getitem contour 0 = Ok c0 -> getitem contour (-1) = Ok cl ->
     Geometry.allclose c0 cl = false ->
     Geometry.normals_from_contour_discrete contour = Raise ValueError) /\
  (forall c0 cl,
     (2 <= length contour)%nat ->
     getitem contour 0 = Ok c0 -> getitem contour (-1) = Ok cl ->
     Geometry.allclose c0 cl = true ->
     exists normals,
       Geometry.normals_from_contour_discrete contour = Ok normals /\
       length normals = (length contour - 1)%nat /\
       Forall (fun n => norm n = 1) normals).
Proof.
  split; [| split].
  - intros Hn. destruct contour as [| c [| c' contour]];
      [reflexivity | | simpl in Hn; lia].
    unfold Geometry.normals_from_contour_discrete.
    change (getitem [c] 0) with (Ok c). change (getitem [c] (-1)) with (Ok c).
    cbn [bind]. rewrite allclose_refl. reflexivity.
  - intros c0 cl H0 Hl Hc. unfold Geometry.normals_from_contour_discrete.
    rewrite H0, Hl. cbn [bind]. rewrite Hc. reflexivity.
  - intros c0 cl Hn H0 Hl Hc. unfold Geometry.normals_from_contour_discrete.
    rewrite H0, Hl. cbn [bind]. rewrite Hc. cbn [negb].
    set (cv := diff psub contour).
    assert (Hcv : length cv = (length contour - 1)%nat) by apply length_diff.
    destruct (getitem_in_range cv 0) as [t1 [Ht1 _]]; [lia |].
    rewrite Ht1. cbn [bind].
    match goal with
    | |- context [broadcast Rminus _ (map _ ?t)] => set (theta := t)
    end.
    match goal with
    | |- context [broadcast Rminus ?a _] => set (it := a)
    end.
    assert (Hth : length theta = (length contour - 1)%nat).
    { unfold theta. cbn [length]. unfold sub_arrays.
      rewrite !length_map, length_combine, !length_map, !length_slice, Hcv.
      unfold clip_index, norm_index.
      change (1 <? 0)%Z with false. change (-1 <? 0)%Z with true. cbv iota. lia. }
    assert (Hit : length it = length theta).
    { unfold it. rewrite length_map, length_cumsum. reflexivity. }
    rewrite broadcast_same_length
      by (rewrite Hit; symmetry; apply length_map).
    cbn [bind].
    set (it2 := map _ (combine it _)).
    assert (Hit2 : length it2 = length theta).
    { unfold it2. rewrite length_map, length_combine, length_map, Hit.
      apply Nat.min_id. }
    destruct (getitem_in_range it2 0) as [i0 [Hi0 _]]; [lia |].
    rewrite Hi0. cbn [bind].
    destruct (getitem_in_range theta (Z.of_nat (length theta) - 1))
      as [tl [_ Htl]]; [lia |].
    rewrite (getitem_negative theta (-1) tl); [| lia | lia |].
    + cbn [bind].
      assert (Hset : (0 <= 0 < Z.of_nat (length it2))%Z) by lia.
      rewrite (setitem_nonneg it2 0 _ Hset). cbn [bind].
      eexists. split; [reflexivity |]. split; [| apply unit_directions].
      rewrite length_combine, !length_map, Nat.min_id.
      destruct it2 as [| x it2]; [simpl in Hit2; lia |].
      cbn [Z.to_nat firstn skipn app length] in *. lia.
    + replace (-1 + Z.of_nat (length theta))%Z
        with (Z.of_nat (length theta) - 1)%Z by lia. exact Htl.
Qed.

Lemma normals_from_contour_discrete_cases_witness :
  exists normals,
    Geometry.normals_from_contour_discrete [(0, 0); (1, 0); (1, 1); (0, 0)]
    = Ok normals /\
    length normals = (length [(0, 0); (1, 0); (1, 1); (0, 0)] - 1)%nat /\
    Forall (fun n => norm n = 1) normals.
Proof.
  apply (proj2 (proj2 (normals_from_contour_discrete_cases
                         [(0, 0); (1, 0); (1, 1); (0, 0)])) (0, 0) (0, 0)).
  - simpl. lia.
  - reflexivity.
  - reflexivity.
  - apply allclose_refl.
Defined.

(** * Further properties: matching head and tail *)

Section ArgminFacts.

Variable A : Type.
Variable lt : A -> A -> bool.
Variable le : A -> A -> Prop.
Hypothesis le_refl : forall a, le a a.
Hypothesis le_trans : forall a b c, le a b -> le b c -> le a c.
Hypothesis lt_le : forall a b, lt a b = true -> le a b.
Hypothesis not_lt_le : forall a b, lt a b = false -> le b a.

Lemma argmin_from_least (best : A) (ibest i : Z) (t : list A) :
  (argmin_from lt best ibest i t = ibest /\ forall y, In y t -> le best y) \/
  (exists x,
     (i <= argmin_from lt best ibest i t)%Z /\
     nth_error t (Z.to_nat (argmin_from lt best ibest i t - i)) = Some x /\
     le x best /\ forall y, In y t -> le x y).
Proof.
  revert best ibest i. induction t as [| x t IH]; intros best ibest i.
  - left. split; [reflexivity | intros y []].
  - cbn [argmin_from]. destruct (lt x best) eqn:E.
    + right. destruct (IH x i (i + 1)%Z) as [[Hr Hall] | [x' [Hi [Hn [Hx Hall]]]]].
      * exists x. rewrite Hr, Z.sub_diag. repeat split.
        -- lia.
        -- now apply lt_le.
        -- intros y [<- | Hy]; [apply le_refl | now apply Hall].
      * exists x'. repeat split.
        -- lia.
        -- replace (Z.to_nat (argmin_from lt x i (i + 1) t - i))
             with (S (Z.to_nat (argmin_from lt x i (i + 1) t - (i + 1))))
             by lia.
           exact Hn.
        -- eapply le_trans; [exact Hx | now apply lt_le].
        -- intros y [<- | Hy]; [exact Hx | now apply Hall].
    + destruct (IH best ibest (i + 1)%Z)
        as [[Hr Hall] | [x' [Hi [Hn [Hx Hall]]]]].
      * left. split; [exact Hr |].
        intros y [<- | Hy]; [now apply not_lt_le | now apply Hall].
      * right. exists x'. repeat split.
        -- lia.
        -- replace (Z.to_nat (argmin_from lt best ibest (i + 1) t - i))
             with (S (Z.to_nat (argmin_from lt best ibest (i + 1) t - (i + 1))))
             by lia.
           exact Hn.
        -- exact Hx.
        -- intros y [<- | Hy];
             [eapply le_trans; [exact Hx | now apply not_lt_le]
             | now apply Hall].
Qed.

(** [argmin] returns a position of the array, and no entry is below the
    entry there. *)
Lemma argmin_by_least (l : list A) (r : Z) :
  argmin_by lt l = Ok r ->
  exists x,
    (0 <= r < Z.of_nat (length l))%Z /\
    nth_error l (Z.to_nat r) = Some x /\
    forall y, In y l -> le x y.
Proof.
  destruct l as [| b t]; [discriminate |].
  unfold argmin_by. intros H. inversion H as [Hr]. clear H.
  destruct (argmin_from_least b 0 1 t) as [[H0 Hall] | [x [Hi [Hn [Hx Hall]]]]].
  - exists b. rewrite H0. repeat split; try (simpl; lia).
    intros y [<- | Hy]; [apply le_refl | now apply Hall].
  - assert (Hnth : nth_error (b :: t) (Z.to_nat (argmin_from lt b 0 1 t)) = Some x).
    { replace (Z.to_nat (argmin_from lt b 0 1 t))
        with (S (Z.to_nat (argmin_from lt b 0 1 t - 1))) by lia.
      exact Hn. }
    exists x. repeat split; try lia; try exact Hnth.
    + assert (Hne : nth_error (b :: t) (Z.to_nat (argmin_from lt b 0 1 t)) <> None)
        by (rewrite Hnth; discriminate).
      apply nth_error_Some in Hne. lia.
    + intros y [<- | Hy]; [exact Hx | now apply Hall].
Qed.

End ArgminFacts.

Lemma argmin_least (l : list R) (r : Z) :
  argmin l = Ok r ->
  exists x,
    (0 <= r < Z.of_nat (length l))%Z /\
    nth_error l (Z.to_nat r) = Some x /\
    forall y, In y l -> x <= y.
Proof.
  apply (argmin_by_least R Rltb Rle).
  - intros a. lra.
  - intros a b c. lra.
  - intros a b. unfold Rltb. destruct (Rlt_dec a b); [lra | discriminate].
  - intros a b. unfold Rltb. destruct (Rlt_dec a b); [discriminate | lra].
Qed.

Lemma amax_upper (l : list R) (m : R) :
  amax l = Ok m -> forall y, In y l -> y <= m.
Proof.
  destruct l as [| x t]; [discriminate |].
  unfold amax. intros H. inversion H as [Hm]. clear H Hm.
  assert (Hfold : forall t acc,
             acc <= fold_left Rmax t acc /\
             forall y, In y t -> y <= fold_left Rmax t acc).
  { clear. induction t as [| a t IH]; intros acc.
    - split; [cbn; lra | intros y []].
    - cbn [fold_left]. destruct (IH (Rmax acc a)) as [Hacc Hall].
      pose proof (Rmax_l acc a). pose proof (Rmax_r acc a).
      split; [lra |]. intros y [<- | Hy]; [lra | now apply Hall]. }
  destruct (Hfold t x) as [Hx Hall].
  intros y [<- | Hy]; [exact Hx | now apply Hall].
Qed.

(** After [a[i] = v], position [i] holds [v], and any array of two or
    more entries still holds one of its old entries at another position. *)
Lemma setitem_other {A : Type} (l l' : list A) (i : Z) (v : A) :
  (0 <= i < Z.of_nat (length l))%Z -> (2 <= length l)%nat ->
  setitem l i v = Ok l' ->
  length l' = length l /\
  nth_error l' (Z.to_nat i) = Some v /\
  exists y, In y l /\ In y l'.
Proof.
  intros Hi Hlen Hset. rewrite setitem_nonneg in Hset by exact Hi.
  assert (Hk : (Z.to_nat i < length l)%nat) by lia.
  set (k := Z.to_nat i) in *.
  assert (Hl' : l' = firstn k l ++ v :: skipn (S k) l) by congruence.
  clear Hset. subst l'.
  assert (Hfirst : length (firstn k l) = k) by (rewrite length_firstn; lia).
  split; [| split].
  - rewrite length_app, Hfirst. cbn [length]. rewrite length_skipn. lia.
  - rewrite nth_error_app2, Hfirst, Nat.sub_diag by lia. reflexivity.
  - clearbody k. destruct k as [| k].
    + destruct l as [| a [| b l]]; try (simpl in Hlen; lia).
      exists b. split; [right; left; reflexivity |].
      cbn [firstn skipn app]. right. left. reflexivity.
    + destruct l as [| a l]; [simpl in Hlen; lia |].
      exists a. split; [left; reflexivity |].
      cbn [firstn app]. left. reflexivity.
Qed.

(** Raising the entry at the minimum above every entry moves the minimum. *)
Lemma argmin_after_raise (l l' : list R) (i j : Z) (top : R) :
  (2 <= length l)%nat ->
  argmin l = Ok i -> amax l = Ok top ->
  setitem l i (top + 1) = Ok l' -> argmin l' = Ok j ->
  j <> i /\ (0 <= i < Z.of_nat (length l))%Z /\ (0 <= j < Z.of_nat (length l))%Z.
Proof.
  intros Hlen Hi Htop Hset Hj.
  destruct (argmin_least l i Hi) as [x [Hir _]].
  destruct (setitem_other l l' i (top + 1) Hir Hlen Hset) as [Hl' [Hnth [y [Hy Hy']]]].
  destruct (argmin_least l' j Hj) as [z [Hjr [Hz Hmin]]].
  rewrite Hl' in Hjr. repeat split; try lia.
  intros ->. rewrite Hnth in Hz. inversion Hz. subst z.
  pose proof (Hmin y Hy'). pose proof (amax_upper l top Htop y Hy). lra.
Qed.

(** X23: when [match_ends] matches both the head and the tail to hint
    points, it matches them to two different hint points, and both
    matches are positions of the hint array. *)
Theorem match_ends_distinct (left match_head_tail : list point)
    (dh dt : float) (h t : Z) :
  Geometry.match_ends left match_head_tail = Ok (dh, Some h, dt, Some t) ->
  h <> t /\
  (0 <= h < Geometry.len match_head_tail)%Z /\
  (0 <= t < Geometry.len match_head_tail)%Z.
Proof.
  unfold Geometry.match_ends.
  destruct (0 <? Geometry.len match_head_tail)%Z; [| discriminate].
  destruct (getitem left 0) as [head | e]; [| discriminate].
  destruct (getitem left (-1)) as [tail | e]; [| discriminate].
  cbn [bind].
  set (dists_head := norm_axis1 (map (fun m => psub head m) match_head_tail)).
  set (dists_tail := norm_axis1 (map (fun m => psub tail m) match_head_tail)).
  assert (Hlh : Z.of_nat (length dists_head) = Geometry.len match_head_tail).
  { unfold dists_head, norm_axis1, Geometry.len. now rewrite !length_map. }
  assert (Hlt : Z.of_nat (length dists_tail) = Geometry.len match_head_tail).
  { unfold dists_tail, norm_axis1, Geometry.len. now rewrite !length_map. }
  destruct (argmin dists_head) as [hm | e] eqn:Hhm; [| discriminate].
  destruct (argmin dists_tail) as [tm | e] eqn:Htm; [| discriminate].
  cbn [bind].
  destruct (argmin_least _ _ Hhm) as [xh [Hhr _]].
  destruct (argmin_least _ _ Htm) as [xt [Htr _]].
  destruct (getitem dists_head hm) as [distance_head | e]; [| discriminate].
  destruct (getitem dists_tail tm) as [distance_tail | e]; [| discriminate].
  cbn [bind].
  destruct (hm =? tm)%Z eqn:Heq.
  - apply Z.eqb_eq in Heq.
    destruct (Rle_dec distance_head distance_tail).
    + unfold Geometry.len at 1.
      destruct (Z.of_nat (length dists_tail) <=? 1)%Z eqn:Hone; [discriminate |].
      apply Z.leb_gt in Hone.
      destruct (amax dists_tail) as [top | e] eqn:Htop; [| discriminate].
      cbn [bind].
      destruct (setitem dists_tail tm (top + 1)) as [dists_tail' | e] eqn:Hset;
        [| discriminate].
      cbn [bind].
      destruct (argmin dists_tail') as [tm' | e] eqn:Htm'; [| discriminate].
      cbn [bind].
      destruct (getitem dists_tail' tm') as [distance_tail' | e]; [| discriminate].
      cbn [bind]. intros H. inversion H. subst.
      destruct (argmin_after_raise dists_tail dists_tail' h t top)
        as [Hne [_ Hr]]; try assumption; [lia |].
      repeat split; try lia.
    + unfold Geometry.len at 1.
      destruct (Z.of_nat (length dists_head) <=? 1)%Z eqn:Hone; [discriminate |].
      apply Z.leb_gt in Hone.
      destruct (amax dists_head) as [top | e] eqn:Htop; [| discriminate].
      cbn [bind].
      destruct (setitem dists_head hm (top + 1)) as [dists_head' | e] eqn:Hset;
        [| discriminate].
      cbn [bind].
      destruct (argmin dists_head') as [hm' | e] eqn:Hhm'; [| discriminate].
      cbn [bind].
      destruct (getitem dists_tail hm') as [d | e]; [| discriminate].
      cbn [bind]. intros H. inversion H. subst.
      destruct (argmin_after_raise dists_head dists_head' t h top)
        as [Hne [_ Hr]]; try assumption; [lia |].
      repeat split; try lia.
  - apply Z.eqb_neq in Heq. intros H. inversion H. subst.
    repeat split; try lia.
Qed.

Lemma match_ends_distinct_witness :
  (1 <> 0)%Z /\
  (0 <= 1 < Geometry.len [(0, 2); (0, -10)])%Z /\
  (0 <= 0 < Geometry.len [(0, 2); (0, -10)])%Z.
Proof.
  apply (match_ends_distinct [(0, 0); (0, 3)] [(0, 2); (0, -10)]
           (Num 2) (Num 1) 1 0).
  exact match_ends_head_farther.
Defined.

(** ** Head and tail from a hint *)

Lemma argmin_float_least (l : list float) (r : Z) :
  argmin_float l = Ok r ->
  exists x,
    (0 <= r < Z.of_nat (length l))%Z /\
    nth_error l (Z.to_nat r) = Some x /\
    forall y, In y l -> flt y x = false.
Proof.
  apply (argmin_by_least float flt (fun a b => flt b a = false)).
  - intros [x | |]; cbn; [destruct (Rlt_dec x x); [lra | reflexivity] | |];
      reflexivity.
  - intros [a | |] [b | |] [c | |]; cbn; try congruence; try reflexivity.
    destruct (Rlt_dec b a), (Rlt_dec c b), (Rlt_dec c a);
      try congruence; try reflexivity; lra.
  - intros [a | |] [b | |]; cbn; try congruence; try reflexivity.
    destruct (Rlt_dec a b), (Rlt_dec b a); try congruence; try reflexivity; lra.
  - intros a b H. exact H.
Qed.

(** The two nearest positions that the program picks for the head and the
    tail hint among two or more points are different positions. *)
Lemma nearest_two_distinct (dist_h dist_t : list R) (i_h i_t0 i_t : Z) :
  length dist_h = length dist_t -> (2 <= length dist_t)%nat ->
  argmin dist_h = Ok i_h -> argmin dist_t = Ok i_t0 ->
  (if (i_h =? i_t0)%Z
   then dist_t <- setitem (map Num dist_t) i_t0 Inf ;; argmin_float dist_t
   else Ok i_t0) = Ok i_t ->
  i_h <> i_t /\
  (0 <= i_h < Z.of_nat (length dist_t))%Z /\
  (0 <= i_t < Z.of_nat (length dist_t))%Z.
Proof.
  intros Hlen H2 Hh Ht0.
  destruct (argmin_least _ _ Hh) as [xh [Hhr _]].
  destruct (argmin_least _ _ Ht0) as [xt [Htr _]].
  rewrite Hlen in Hhr.
  destruct (i_h =? i_t0)%Z eqn:E.
  - apply Z.eqb_eq in E. subst i_t0.
    destruct (setitem (map Num dist_t) i_h Inf) as [d' | e] eqn:Hset;
      [| discriminate].
    cbn [bind]. intros Hj.
    destruct (setitem_other (map Num dist_t) d' i_h Inf)
      as [Hl' [Hnth [y [Hy Hy']]]];
      [rewrite length_map; lia | rewrite length_map; lia | exact Hset |].
    destruct (argmin_float_least d' i_t Hj) as [z [Hjr [Hz Hmin]]].
    rewrite Hl', length_map in Hjr. repeat split; try lia.
    intros ->. rewrite Hnth in Hz. inversion Hz. subst z.
    apply in_map_iff in Hy. destruct Hy as [v [<- _]].
    specialize (Hmin _ Hy'). discriminate.
  - apply Z.eqb_neq in E. intros H. inversion H. subst i_t0.
    repeat split; try lia.
Qed.

Lemma length_traverse {A B : Type} (f : A -> result B) (l : list A) (r : list B) :
  traverse f l = Ok r -> length r = length l.
Proof.
  revert r. induction l as [| a t IH]; intros r; cbn [traverse].
  - intros H. inversion H. reflexivity.
  - destruct (f a) as [b | e]; [| discriminate]. cbn [bind].
    destruct (traverse f t) as [bs | e]; [| discriminate]. cbn [bind].
    intros H. inversion H. cbn [length]. f_equal. now apply IH.
Qed.

Lemma getitem_Ok_nth {A : Type} (l : list A) (i : Z) (a : A) :
  (0 <= i < Z.of_nat (length l))%Z -> getitem l i = Ok a ->
  nth_error l (Z.to_nat i) = Some a.
Proof.
  intros Hi H. destruct (getitem_in_range l i Hi) as [b [Hb Hn]]. congruence.
Qed.

(** X24: with a head and tail hint, [head_tail] never gives the head and
    the tail the same place: among two or more distinct peaks it returns
    two different peaks (status + 10), and without peaks on a contour of
    two or more samples two different sample positions (status + 50). *)
Theorem head_tail_with_hint_distinct (argsort : list R -> list Z)
    (x y : list R) (peak_ids : list Z)
    (peak_values : list R) (ncontour : Z) (hint : point * point) (status : Z)
    (imax : list Z) (st : Z) :
  Geometry.head_tail argsort x y peak_ids peak_values ncontour (Some hint)
    status
  = Ok (imax, st) ->
  ((2 <= length peak_ids)%nat -> NoDup peak_ids ->
   exists p_h p_t,
     imax = [p_h; p_t] /\ p_h <> p_t /\
     In p_h peak_ids /\ In p_t peak_ids /\ st = (status + 10)%Z) /\
  (peak_ids = [] -> (2 <= length x)%nat ->
   exists i_h i_t,
     imax = [i_h; i_t] /\ i_h <> i_t /\
     (0 <= i_h < Geometry.len x)%Z /\ (0 <= i_t < Geometry.len x)%Z /\
     st = (status + 50)%Z).
Proof.
  intros H. destruct hint as [hint0 hint1]. split.
  - intros H2 Hnd. revert H. unfold Geometry.head_tail, Geometry.len.
    destruct (2 <=? Z.of_nat (length peak_ids))%Z eqn:E;
      [| apply Z.leb_gt in E; lia].
    destruct (take x peak_ids) as [xs | e] eqn:Hxs; [| discriminate].
    destruct (take y peak_ids) as [ys | e] eqn:Hys; [| discriminate].
    cbn [bind]. apply length_traverse in Hxs, Hys.
    unfold columns. rewrite Hxs, Hys, Nat.eqb_refl. cbn [bind].
    set (xy := combine xs ys).
    assert (Hxy : length xy = length peak_ids).
    { unfold xy. rewrite length_combine, Hxs, Hys. apply Nat.min_id. }
    set (dist_h := norm_axis1 (map (fun p => psub p hint0) xy)).
    set (dist_t := norm_axis1 (map (fun p => psub p hint1) xy)).
    assert (Hdh : length dist_h = length peak_ids).
    { unfold dist_h, norm_axis1. now rewrite !length_map. }
    assert (Hdt : length dist_t = length peak_ids).
    { unfold dist_t, norm_axis1. now rewrite !length_map. }
    destruct (argmin dist_h) as [i_h | e] eqn:Hh; [| discriminate].
    destruct (argmin dist_t) as [i_t0 | e] eqn:Ht0; [| discriminate].
    cbn [bind].
    match goal with
    | |- context [bind ?c _] => destruct c as [i_t | e] eqn:Ht; [| discriminate]
    end.
    cbn [bind].
    destruct (nearest_two_distinct dist_h dist_t i_h i_t0 i_t)
      as [Hne [Hhr Htr]]; try assumption; try lia.
    rewrite Hdt in Hhr, Htr.
    destruct (getitem peak_ids i_h) as [p_h | e] eqn:Hph; [| discriminate].
    destruct (getitem peak_ids i_t) as [p_t | e] eqn:Hpt; [| discriminate].
    cbn [bind]. intros H. inversion H. subst imax st.
    apply getitem_Ok_nth in Hph, Hpt; try assumption.
    exists p_h, p_t. repeat split.
    + intros ->. rewrite <- Hpt in Hph.
      apply (proj1 (NoDup_nth_error peak_ids) Hnd) in Hph; lia.
    + eapply nth_error_In; exact Hph.
    + eapply nth_error_In; exact Hpt.
  - intros -> H2. revert H. unfold Geometry.head_tail, Geometry.len.
    cbn [length]. change (2 <=? Z.of_nat 0)%Z with false.
    change (Z.of_nat 0 =? 1)%Z with false. cbv iota.
    unfold columns. destruct (length x =? length y)%nat eqn:Exy; [| discriminate].
    apply Nat.eqb_eq in Exy. cbn [bind].
    set (xy := combine x y).
    assert (Hxy : length xy = length x).
    { unfold xy. rewrite length_combine, <- Exy. apply Nat.min_id. }
    set (dist_h := norm_axis1 (map (fun p => psub p hint0) xy)).
    set (dist_t := norm_axis1 (map (fun p => psub p hint1) xy)).
    assert (Hdh : length dist_h = length x).
    { unfold dist_h, norm_axis1. now rewrite !length_map. }
    assert (Hdt : length dist_t = length x).
    { unfold dist_t, norm_axis1. now rewrite !length_map. }
    destruct (argmin dist_h) as [i_h | e] eqn:Hh; [| discriminate].
    destruct (argmin dist_t) as [i_t0 | e] eqn:Ht0; [| discriminate].
    cbn [bind].
    match goal with
    | |- context [bind ?c _] => destruct c as [i_t | e] eqn:Ht; [| discriminate]
    end.
    cbn [bind].
    destruct (nearest_two_distinct dist_h dist_t i_h i_t0 i_t)
      as [Hne [Hhr Htr]]; try assumption; try lia.
    rewrite Hdt in Hhr, Htr.
    intros H. inversion H. subst imax st.
    exists i_h, i_t. repeat split; try lia; assumption.
Qed.

(** Two peaks, both nearest to the head hint: the tail goes to the other. *)
Example head_tail_hint_two_peaks :
  Geometry.head_tail insertion_argsort [0; 0; 0] [0; 1; 5] [0%Z; 2%Z] [1; 1] 3
    (Some ((0, 0), (0, 1))) 1
  = Ok ([0%Z; 2%Z], 11%Z).
Proof.
  unfold Geometry.head_tail, Geometry.len. cbn [length].
  change (2 <=? Z.of_nat 2)%Z with true. cbv iota.
  unfold take. cbn [traverse].
  rewrite (getitem_nonneg [0; 0; 0] 0 0) by (try lia; reflexivity).
  rewrite (getitem_nonneg [0; 0; 0] 2 0) by (try lia; reflexivity).
  rewrite (getitem_nonneg [0; 1; 5] 0 0) by (try lia; reflexivity).
  rewrite (getitem_nonneg [0; 1; 5] 2 5) by (try lia; reflexivity).
  cbn [bind]. unfold columns. cbn [length Nat.eqb bind combine map norm_axis1].
  unfold psub. cbn [fst snd]. rewrite !norm_vertical.
  replace (Rabs (0 - 0)) with 0 by (unfold Rabs; decide_reals).
  replace (Rabs (5 - 0)) with 5 by (unfold Rabs; decide_reals).
  replace (Rabs (0 - 1)) with 1 by (unfold Rabs; decide_reals).
  replace (Rabs (5 - 1)) with 4 by (unfold Rabs; decide_reals).
  unfold argmin, argmin_by. cbn [argmin_from]. unfold Rltb.
  decide_reals. cbn [bind].
  change (0 =? 0)%Z with true. cbv iota.
  rewrite setitem_nonneg by (simpl; lia).
  cbn [bind Z.to_nat firstn skipn app map].
  unfold argmin_float, argmin_by. cbn [argmin_from flt bind].
  rewrite (getitem_nonneg [0%Z; 2%Z] 0 0%Z) by (try lia; reflexivity).
  rewrite (getitem_nonneg [0%Z; 2%Z] 1 2%Z) by (try lia; reflexivity).
  reflexivity.
Qed.

Lemma head_tail_with_hint_distinct_witness :
  exists p_h p_t,
    [0%Z; 2%Z] = [p_h; p_t] /\ p_h <> p_t /\
    In p_h [0%Z; 2%Z] /\ In p_t [0%Z; 2%Z] /\ 11%Z = (1 + 10)%Z.
Proof.
  apply (proj1 (head_tail_with_hint_distinct insertion_argsort
                  [0; 0; 0] [0; 1; 5] [0%Z; 2%Z]
                  [1; 1] 3 ((0, 0), (0, 1)) 1 [0%Z; 2%Z] 11
                  head_tail_hint_two_peaks)).
  - simpl. lia.
  - repeat constructor; simpl; intuition lia.
Defined.

(** * Further properties: a model given a new center line *)

Lemma flatten_app (a b : list point) : flatten (a ++ b) = flatten a ++ flatten b.
Proof.
  induction a as [| [x y] a IH]; [reflexivity |].
  cbn [app flatten]. now rewrite IH.
Qed.

(** X25: [from_center] stores the new center line but leaves [npoints] as
    it was.  After it, the center-only parameter vector no longer
    round-trips when the new center line has another number of points:
    with fewer points [set_parameter] raises ValueError and changes
    nothing; with more points it cuts the center line to its first
    [npoints] points and raises AttributeError. *)
Theorem from_center_keeps_npoints (self : WormModel.t) (c : list point)
    (w : option (list R)) :
  let self' := snd (WormModel.from_center c w self) in
  WormModel.center self' = c /\
  WormModel.npoints self' = WormModel.npoints self /\
  ((length c < WormModel.npoints self)%nat ->
   WormModel.set_parameter (WormModel.get_parameter false self') self'
   = (Raise ValueError, self')) /\
  ((WormModel.npoints self < length c)%nat ->
   WormModel.nparameter self = (2 * WormModel.npoints self)%nat ->
   fst (WormModel.set_parameter (WormModel.get_parameter false self') self')
   = Raise AttributeError /\
   WormModel.center
     (snd (WormModel.set_parameter (WormModel.get_parameter false self') self'))
   = firstn (WormModel.npoints self) c).
Proof.
  cbv zeta.
  assert (Hc : WormModel.center (snd (WormModel.from_center c w self)) = c)
    by (destruct w; reflexivity).
  assert (Hn : WormModel.npoints (snd (WormModel.from_center c w self))
               = WormModel.npoints self) by (destruct w; reflexivity).
  assert (Hp : WormModel.nparameter (snd (WormModel.from_center c w self))
               = WormModel.nparameter self) by (destruct w; reflexivity).
  set (self' := snd (WormModel.from_center c w self)) in *.
  split; [exact Hc |]. split; [exact Hn |]. split.
  - intros Hshort. unfold WormModel.set_parameter, WormModel.get_parameter.
    rewrite Hc, Hn. rewrite slice_whole by (rewrite length_flatten; lia).
    unfold reshape2. rewrite length_flatten.
    destruct (2 * length c =? 2 * WormModel.npoints self)%nat eqn:E;
      [apply Nat.eqb_eq in E; lia | reflexivity].
  - intros Hlong Hpar. unfold WormModel.set_parameter, WormModel.get_parameter.
    rewrite Hc, Hn.
    set (n := WormModel.npoints self) in *.
    assert (Hfirst : length (firstn n c) = n) by (rewrite length_firstn; lia).
    rewrite <- (firstn_skipn n c) at 1 2. rewrite flatten_app.
    replace (2 * Z.of_nat n)%Z
      with (Z.of_nat (length (flatten (firstn n c))))
      by (rewrite length_flatten, Hfirst; lia).
    rewrite slice_prefix. unfold reshape2.
    rewrite length_flatten, Hfirst, Nat.eqb_refl, pairs_flatten.
    cbn [WormModel.nparameter WormModel.set_center]. rewrite Hp, Hpar.
    rewrite length_flatten.
    destruct (2 * n <? 2 * length c)%nat eqn:E;
      [| apply Nat.ltb_ge in E; lia].
    split; reflexivity.
Qed.

Lemma from_center_keeps_npoints_witness :
  WormModel.set_parameter
    (WormModel.get_parameter false
       (snd (WormModel.from_center [(0, 0); (1, 0)] None three_point_worm)))
    (snd (WormModel.from_center [(0, 0); (1, 0)] None three_point_worm))
  = (Raise ValueError,
     snd (WormModel.from_center [(0, 0); (1, 0)] None three_point_worm)) /\
  WormModel.center
    (snd (WormModel.set_parameter
            (WormModel.get_parameter false
               (snd (WormModel.from_center
                       [(0, 0); (1, 0); (2, 0); (3, 0)] None three_point_worm)))
            (snd (WormModel.from_center
                    [(0, 0); (1, 0); (2, 0); (3, 0)] None three_point_worm))))
  = firstn 3 [(0, 0); (1, 0); (2, 0); (3, 0)].
Proof.
  split.
  - apply (proj1 (proj2 (proj2 (from_center_keeps_npoints
                                  three_point_worm [(0, 0); (1, 0)] None)))).
    simpl. lia.
  - apply (proj2 (proj2 (proj2 (from_center_keeps_npoints
             three_point_worm [(0, 0); (1, 0); (2, 0); (3, 0)] None)))).
    + simpl. lia.
    + reflexivity.
Defined.

(** * Further properties: the contour of the worm *)

Lemma getitem_In {A : Type} (l : list A) (i : Z) (a : A) :
  getitem l i = Ok a -> In a l.
Proof.
  unfold getitem. destruct (_ && _)%bool; [| discriminate].
  destruct (nth_error l _) as [b |] eqn:E; [| discriminate].
  intros H. inversion H. subst b. eapply nth_error_In. exact E.
Qed.

(** One step through a sequence of statements that ends in a return. *)
Ltac step_returning :=
  match goal with
  | |- (bind ?c _ = Ok _) -> _ =>
      let E := fresh "E" in
      destruct c eqn:E; cbn [bind]; [| discriminate]
  | |- ((if ?b then _ else _) = Ok _) -> _ =>
      let E := fresh "E" in destruct b eqn:E
  | |- (match ?o with Some _ => _ | None => _ end = Ok _) -> _ => destruct o
  end.

(** X26: the contour that [select_contour] chooses is one of the contours
    it was given, and the status grows by 1 to 5 with the rule that chose
    it; a single contour is chosen as it is, with status + 1. *)
Theorem select_contour_member
    (image : Type) (image_shape : image -> point)
    (contourArea : list point -> R)
    (cv2_moments : list point -> Geometry.moments)
    (matchShapes : list point -> list point -> R)
    (img : image) (pts : list (list point)) (hrchy : list (Z * Z * Z * Z))
    (contour_hint : option (list point)) (size_hint : option R) (status : Z)
    (p : list point) (st : Z) :
  Geometry.select_contour image image_shape contourArea cv2_moments matchShapes
    img pts hrchy contour_hint size_hint status = Ok (p, st) ->
  In p pts /\
  (status + 1 <= st <= status + 5)%Z /\
  (length pts = 1%nat -> pts = [p] /\ st = (status + 1)%Z).
Proof.
  unfold Geometry.select_contour, Geometry.len.
  destruct (Z.of_nat (length pts) =? 1)%Z eqn:Hone.
  - apply Z.eqb_eq in Hone.
    destruct pts as [| q [| q' pts]]; try (simpl in Hone; lia).
    change (getitem [q] 0) with (Ok q). cbn [bind].
    intros H. inversion H. subst. repeat split; try lia. now left.
  - apply Z.eqb_neq in Hone.
    repeat step_returning;
      (intros H; inversion H; subst; repeat split;
       [eapply getitem_In; eassumption | lia | lia | lia | lia]).
Qed.

Lemma select_contour_member_witness :
  In [(0, 0); (1, 0); (0, 0)] [[(0, 0); (1, 0); (0, 0)]] /\
  (0 + 1 <= 1 <= 0 + 5)%Z /\
  (length [[(0, 0); (1, 0); (0, 0)]] = 1%nat ->
   [[(0, 0); (1, 0); (0, 0)]] = [[(0, 0); (1, 0); (0, 0)]] /\ 1%Z = (0 + 1)%Z).
Proof.
  apply (select_contour_member R (fun _ => (0, 0)) (fun _ => 0)
           (fun _ => Geometry.Build_moments 0 0 0) (fun _ _ => 0)
           0 [[(0, 0); (1, 0); (0, 0)]] [] None None 0).
  reflexivity.
Defined.

(** ** The peaks kept on the contour *)

(** A mask computed from the first of two aligned arrays keeps them
    aligned. *)
Lemma mask_aligned {A B : Type} (f : A -> bool) (a : list A) (b : list B) :
  length a = length b ->
  mask (map f a) a = Ok (filter f a) /\
  exists b',
    mask (map f a) b = Ok b' /\
    length b' = length (filter f a) /\
    combine (filter f a) b' = filter (fun p => f (fst p)) (combine a b).
Proof.
  intros Hlen. unfold mask. rewrite !length_map, <- Hlen, Nat.eqb_refl.
  split.
  - f_equal. clear. induction a as [| x a IH]; [reflexivity |].
    cbn [map combine filter fst]. destruct (f x); cbn [map snd]; now rewrite IH.
  - eexists. split; [reflexivity |].
    revert b Hlen. induction a as [| x a IH]; intros b Hlen.
    + split; reflexivity.
    + destruct b as [| y b]; [discriminate |].
      injection Hlen as Hlen. destruct (IH b Hlen) as [IH1 IH2].
      cbn [map combine filter fst]. destruct (f x); cbn [map snd length combine].
      * split; [now rewrite IH1 | now rewrite IH2].
      * split; assumption.
Qed.

Lemma filter_filter {A : Type} (f g : A -> bool) (l : list A) :
  filter g (filter f l) = filter (fun x => f x && g x) l.
Proof.
  induction l as [| x l IH]; [reflexivity |].
  cbn [filter]. destruct (f x); cbn [filter andb]; [| exact IH].
  destruct (g x); now rewrite IH.
Qed.

(** X27: given as many peak values as peak positions,
    [keep_contour_peaks] returns normally; every position it returns lies
    on the contour, in [0, ncontour), and positions and values stay
    paired: the pairs returned are the pairs whose shifted position lies
    on the contour, in their order.  No peak at all is returned as it is. *)
Theorem keep_contour_peaks_on_contour (peak_ids : list Z) (peak_values : list R)
    (nextra ncontour : Z) :
  length peak_ids = length peak_values ->
  exists ids values,
    Geometry.keep_contour_peaks peak_ids peak_values nextra ncontour
    = Ok (ids, values) /\
    length ids = length values /\
    Forall (fun i => (0 <= i < ncontour)%Z) ids /\
    combine ids values
    = filter (fun p => (0 <=? fst p)%Z && (fst p <? ncontour)%Z)
        (combine (map (fun i => (i - nextra)%Z) peak_ids) peak_values).
Proof.
  intros Hlen. unfold Geometry.keep_contour_peaks, Geometry.len.
  destruct peak_ids as [| i0 peak_ids].
  - destruct peak_values; [| discriminate].
    exists [], []. repeat split. constructor.
  - change (0 <? Z.of_nat (length (i0 :: peak_ids)))%Z with true. cbv iota.
    set (shifted := map (fun i => (i - nextra)%Z) (i0 :: peak_ids)).
    assert (Hs : length shifted = length peak_values).
    { unfold shifted. now rewrite length_map. }
    destruct (mask_aligned (fun i => (0 <=? i)%Z) shifted peak_values Hs)
      as [Hids [v1 [Hv1 [Hl1 Hc1]]]].
    rewrite Hv1, Hids. cbn [bind].
    destruct (mask_aligned (fun i => (i <? ncontour)%Z)
                (filter (fun i => (0 <=? i)%Z) shifted) v1 (eq_sym Hl1))
      as [Hids2 [v2 [Hv2 [Hl2 Hc2]]]].
    rewrite Hv2, Hids2. cbn [bind].
    eexists _, v2. split; [reflexivity |]. split; [now rewrite Hl2 |]. split.
    + apply Forall_forall. intros i Hi.
      apply filter_In in Hi. destruct Hi as [Hi Hlt].
      apply filter_In in Hi. destruct Hi as [_ Hle].
      apply Z.leb_le in Hle. apply Z.ltb_lt in Hlt. lia.
    + rewrite Hc2, Hc1. apply filter_filter.
Qed.

Lemma keep_contour_peaks_on_contour_witness :
  exists ids values,
    Geometry.keep_contour_peaks [3%Z; 20%Z; 40%Z] [1; 2; 3] 10 25
    = Ok (ids, values) /\
    length ids = length values /\
    Forall (fun i => (0 <= i < 25)%Z) ids /\
    combine ids values
    = filter (fun p => (0 <=? fst p)%Z && (fst p <? 25)%Z)
        (combine (map (fun i => (i - 10)%Z) [3%Z; 20%Z; 40%Z]) [1; 2; 3]).
Proof.
  apply (keep_contour_peaks_on_contour [3%Z; 20%Z; 40%Z] [1; 2; 3] 10 25).
  reflexivity.
Defined.
